(** * pymclevel: bounding boxes, chunk store and light engine

    A shallow embedding of [box.py] and of the infinite-world part of
    [mclevel.py] (classes [InfdevChunk], [ZeroChunk] and
    [MCInfdevOldLevel]), followed by the properties established about them.

    Conventions.
    - Python integers are [Z]; cells of [uint8] arrays are [Z] values kept
      in [0, 256) by [u8], which is applied wherever numpy wraps.
    - A numpy array is a nested list; the axis order of the source is kept
      ([x], [z], [y] for chunk arrays, [z], [x] for the height map).
    - Methods that mutate their object or may raise are computations in the
      state-and-exception monad [M]; a Python object reachable from the
      world's [_presentChunks] dictionary is referred to by its key.
    - The tag codec ([nbt], [gzip]) and the material tables ([materials])
      are not part of the two modelled files; they are the fields of the
      classes [Codec] and [Materials]. *)

From stdpp Require Import gmap strings list fin_maps sorting.
From Stdlib Require Import ZArith Lia Ascii.

Local Open Scope Z_scope.

(* ================================================================== *)
(** * Part I: the embedding                                            *)
(* ================================================================== *)

(* ------------------------------------------------------------------ *)
(** ** box.py                                                          *)
(* ------------------------------------------------------------------ *)

Module Box.

(** [origin] and [size] are three-element lists in the source; they are
    only ever indexed at 0, 1 and 2. *)
Record vec3 := Vec3 { v0 : Z; v1 : Z; v2 : Z }.

Record BoundingBox := mkBox { origin : vec3; size : vec3 }.

Definition getMinx (b : BoundingBox) : Z := v0 (origin b).
Definition getMiny (b : BoundingBox) : Z := v1 (origin b).
Definition getMinz (b : BoundingBox) : Z := v2 (origin b).

Definition getMaxx (b : BoundingBox) : Z := v0 (origin b) + v0 (size b).
Definition getMaxy (b : BoundingBox) : Z := v1 (origin b) + v1 (size b).
Definition getMaxz (b : BoundingBox) : Z := v2 (origin b) + v2 (size b).

(** [self.size[0] -= x - self.origin[0]; self.origin[0] = x] *)
Definition setMinx (b : BoundingBox) (x : Z) : BoundingBox :=
  let sz := size b in let o := origin b in
  mkBox (Vec3 x (v1 o) (v2 o)) (Vec3 (v0 sz - (x - v0 o)) (v1 sz) (v2 sz)).

Definition setMiny (b : BoundingBox) (y : Z) : BoundingBox :=
  let sz := size b in let o := origin b in
  mkBox (Vec3 (v0 o) y (v2 o)) (Vec3 (v0 sz) (v1 sz - (y - v1 o)) (v2 sz)).

Definition setMinz (b : BoundingBox) (z : Z) : BoundingBox :=
  let sz := size b in let o := origin b in
  mkBox (Vec3 (v0 o) (v1 o) z) (Vec3 (v0 sz) (v1 sz) (v2 sz - (z - v2 o))).

(** [if x < self.origin[0]: x = self.origin[0]] then
    [self.size[0] = x - self.origin[0]] *)
Definition setMaxx (b : BoundingBox) (x : Z) : BoundingBox :=
  let sz := size b in let o := origin b in
  let x := if x <? v0 o then v0 o else x in
  mkBox o (Vec3 (x - v0 o) (v1 sz) (v2 sz)).

Definition setMaxy (b : BoundingBox) (y : Z) : BoundingBox :=
  let sz := size b in let o := origin b in
  let y := if y <? v1 o then v1 o else y in
  mkBox o (Vec3 (v0 sz) (y - v1 o) (v2 sz)).

Definition setMaxz (b : BoundingBox) (z : Z) : BoundingBox :=
  let sz := size b in let o := origin b in
  let z := if z <? v2 o then v2 o else z in
  mkBox o (Vec3 (v0 sz) (v1 sz) (z - v2 o)).

Definition getMincx (b : BoundingBox) : Z := v0 (origin b) ≫ 4.
Definition getMincz (b : BoundingBox) : Z := v2 (origin b) ≫ 4.
Definition getMaxcx (b : BoundingBox) : Z :=
  ((v0 (origin b) + v0 (size b) - 1) ≫ 4) + 1.
Definition getMaxcz (b : BoundingBox) : Z :=
  ((v2 (origin b) + v2 (size b) - 1) ≫ 4) + 1.

Definition getWidth (b : BoundingBox) : Z := v0 (size b).
Definition getHeight (b : BoundingBox) : Z := v1 (size b).
Definition getLength (b : BoundingBox) : Z := v2 (size b).

(** [itertools.product(xrange(mincx, maxcx), xrange(mincz, maxcz))] *)
Definition chunkPositions (b : BoundingBox) : list (Z * Z) :=
  cx ← seqZ (getMincx b) (getMaxcx b - getMincx b);
  cz ← seqZ (getMincz b) (getMaxcz b - getMincz b);
  [(cx, cz)].

(** [isChunkAligned] *)
Definition isChunkAligned (b : BoundingBox) : bool :=
  (Z.land (v0 (origin b)) 15 =? 0) && (Z.land (v2 (origin b)) 15 =? 0).

(** The invariant of the data model: no size component is negative. *)
Definition size_nonneg (b : BoundingBox) : Prop :=
  0 ≤ v0 (size b) ∧ 0 ≤ v1 (size b) ∧ 0 ≤ v2 (size b).

(** [pos in box]: the maximum edges are not part of the box. *)
Definition contains (b : BoundingBox) (pos : Z * Z * Z) : bool :=
  let '(x, y, z) := pos in
  if (x <? getMinx b) || (x >=? getMaxx b) then false
  else if (y <? getMiny b) || (y >=? getMaxy b) then false
  else if (z <? getMinz b) || (z >=? getMaxz b) then false
  else true.

(** [map(lambda a, b: a + b, self._origin, self._size)] *)
Definition getMaximum (b : BoundingBox) : vec3 :=
  Vec3 (v0 (origin b) + v0 (size b)) (v1 (origin b) + v1 (size b))
       (v2 (origin b) + v2 (size b)).

(** [reduce(lambda a, b: a * b, self.size)] *)
Definition getVolume (b : BoundingBox) : Z :=
  v0 (size b) * v1 (size b) * v2 (size b).

End Box.

(* ------------------------------------------------------------------ *)
(** ** Exceptions and the state-and-exception monad                    *)
(* ------------------------------------------------------------------ *)

(** The Python exceptions that the modelled code raises or lets through.
    [ChunkMalformed] is a subclass of [ChunkNotPresent]. *)
Inductive exn :=
| ChunkNotPresent | ChunkMalformed
| IOError | OSError | TypeError | KeyError | ValueError | IndexError
| AttributeError | AssertionError.

#[global] Instance exn_eq_dec : EqDecision exn.
Proof. solve_decision. Defined.

Inductive result (A : Type) :=
| Ok (a : A)
| Raise (e : exn).
Arguments Ok {A} a.
Arguments Raise {A} e.

#[global] Instance result_eq_dec {A} `{EqDecision A} : EqDecision (result A).
Proof. solve_decision. Defined.

(** [isinstance(e, ChunkNotPresent)], as tested by [except ChunkNotPresent]. *)
Definition is_ChunkNotPresent (e : exn) : bool :=
  match e with ChunkNotPresent | ChunkMalformed => true | _ => false end.

(** A method running on a mutable state [S]: the state that is left behind
    is returned also when an exception escapes. *)
Definition M (S A : Type) : Type := S → result A * S.

Definition ret {S A} (a : A) : M S A := λ s, (Ok a, s).
Definition raise {S A} (e : exn) : M S A := λ s, (Raise e, s).
Definition bind {S A B} (m : M S A) (k : A → M S B) : M S B :=
  λ s, match m s with
       | (Ok a, s') => k a s'
       | (Raise e, s') => (Raise e, s')
       end.
Definition get_state {S} : M S S := λ s, (Ok s, s).
Definition put_state {S} (s : S) : M S unit := λ _, (Ok tt, s).
Definition lift_result {S A} (r : result A) : M S A := λ s, (r, s).

(** [try: m except <handled>: h] *)
Definition try_except {S A} (m : M S A) (handled : exn → bool) (h : M S A) : M S A :=
  λ s, match m s with
       | (Ok a, s') => (Ok a, s')
       | (Raise e, s') => if handled e then h s' else (Raise e, s')
       end.

Notation "'let!' x ':=' m 'in' k" := (bind m (λ x, k))
  (at level 10, x pattern, m at level 100, k at level 200).
Notation "m ';;;' k" := (bind m (λ _, k))
  (at level 100, k at level 200, right associativity).

(** [for x in l: body x] *)
Fixpoint for_each {S A} (l : list A) (body : A → M S unit) : M S unit :=
  match l with
  | [] => ret tt
  | x :: l' => body x ;;; for_each l' body
  end.

(** A generator's [for x in l: body x], where the body yields values: the
    values yielded, in order. *)
Fixpoint for_yield {S A B} (l : list A) (body : A → M S (list B)) : M S (list B) :=
  match l with
  | [] => ret []
  | x :: l' =>
      let! here := body x in
      let! others := for_yield l' body in
      ret (here ++ others)
  end.

(** [range(a, b)] *)
Definition range (a b : Z) : list Z := seqZ a (b - a).

(** An [assert]. *)
Definition assert {S} (b : bool) : M S unit :=
  if b then ret tt else raise AssertionError.

(* ------------------------------------------------------------------ *)
(** ** Directory hashing and base-36 names                             *)
(* ------------------------------------------------------------------ *)

Module Base36.

Definition base36alphabet : list ascii :=
  String.list_ascii_of_string "0123456789abcdefghijklmnopqrstuvwxyz".

(** [alphabet.index(c)]; [None] when [c] does not occur. *)
Fixpoint index (c : ascii) (l : list ascii) : option Z :=
  match l with
  | [] => None
  | d :: l' => if Ascii.eqb c d then Some 0 else Z.succ <$> index c l'
  end.

(** The [while len(s)] loop of [decbase36]: it stops at the first letter
    that is not in the alphabet. *)
Fixpoint decbase36_loop (n : Z) (s : list ascii) : Z :=
  match s with
  | [] => n
  | c :: s' =>
      match index c base36alphabet with
      | None => n
      | Some d => decbase36_loop (n * 36 + d) s'
      end
  end.

(** [s[0]] raises [IndexError] on the empty string. *)
Definition decbase36 (s : string) : result Z :=
  match String.list_ascii_of_string s with
  | [] => Raise IndexError
  | c :: s' =>
      if Ascii.eqb c "-"%char then Ok (- decbase36_loop 0 s')
      else Ok (decbase36_loop 0 (c :: s'))
  end.

(** ["0123456789abcdefghijklmnopqrstuvwxyz"[n]] for [0 <= n < 36]. *)
Definition digit (n : Z) : string :=
  match base36alphabet !! Z.to_nat n with
  | Some c => String c EmptyString
  | None => EmptyString
  end.

(** [n = n % 64]; a ["1"] is put in front and 36 taken off when
    [n >= 36]. *)
Definition dirhash (n : Z) : string :=
  let n := n `mod` 64 in
  let s := EmptyString in
  let '(s, n) := if 36 <=? n then (String.append s "1", n - 36) else (s, n) in
  String.append s (digit n).

(** The [while(n)] loop of [base36]: [digit = n % 36], [n /= 36],
    [s = alphabet[digit] + s]. [fuel] bounds the number of rounds; [None]
    says that the loop has not come to its end within them. *)
Fixpoint base36_loop (fuel : nat) (n : Z) (s : string) : option string :=
  if n =? 0 then Some s
  else match fuel with
       | O => None
       | S fuel' =>
           let d := n `mod` 36 in
           let n := n `div` 36 in
           base36_loop fuel' n (String.append (digit d) s)
       end.

(** [base36]: ['0'] for zero, a ['-'] in front of the digits of [-n] for
    a negative [n]. *)
Definition base36 (n : Z) : option string :=
  if 0 =? n then Some "0"%string
  else
    let '(neg, n) := if n <? 0 then ("-"%string, - n) else (EmptyString, n) in
    s ← base36_loop (Z.to_nat n) n EmptyString;
    Some (String.append neg s).

(** [self.dirhashes = [self.dirhash(n) for n in range(64)]], and
    [dirhashlookup], which [__init__] installs in the place of
    [dirhash]: [self.dirhashes[n % 64]]. *)
Definition dirhashes : list string := dirhash <$> seqZ 0 64.

Definition dirhashlookup (n : Z) : result string :=
  match dirhashes !! Z.to_nat (n `mod` 64) with
  | Some s => Ok s
  | None => Raise IndexError
  end.

(** The last component of the path that [chunkFilename] builds:
    ["c.%s.%s.dat" % (self.base36(x), self.base36(z))]. *)
Definition chunkFilename_base (x z : Z) : option string :=
  bx ← base36 x;
  bz ← base36 z;
  Some (String.append "c."
         (String.append bx (String.append "." (String.append bz ".dat")))).

(** [s.split(sep)] for a separator of one letter: the pieces between the
    separators, empty pieces included. *)
Fixpoint split (sep : ascii) (s : string) : list string :=
  match s with
  | EmptyString => [EmptyString]
  | String c s' =>
      if Ascii.eqb c sep then EmptyString :: split sep s'
      else match split sep s' with
           | f :: fs => String c f :: fs
           | [] => [String c EmptyString]
           end
  end.

(** [s.lower()] on ASCII letters. *)
Definition lower_char (c : ascii) : ascii :=
  let n := nat_of_ascii c in
  if (65 <=? n)%nat && (n <=? 90)%nat then ascii_of_nat (n + 32) else c.

Fixpoint lower (s : string) : string :=
  match s with
  | EmptyString => EmptyString
  | String c s' => String (lower_char c) (lower s')
  end.

(** The list comprehension of [preloadChunkPaths]:
    [(self.decbase36(b[1]), self.decbase36(b[2])) for b in bits if len(b) > 3]. *)
Fixpoint decode_bits (bits : list (list string)) : result (list (Z * Z)) :=
  match bits with
  | [] => Ok []
  | b :: bits' =>
      if (3 <? length b)%nat then
        match b !! 1%nat, b !! 2%nat with
        | Some s1, Some s2 =>
            match decbase36 s1 with
            | Raise e => Raise e
            | Ok x =>
                match decbase36 s2 with
                | Raise e => Raise e
                | Ok z =>
                    match decode_bits bits' with
                    | Raise e => Raise e
                    | Ok l => Ok ((x, z) :: l)
                    end
                end
            end
        | _, _ => Raise IndexError
        end
      else decode_bits bits'
  end.

(** What [preloadChunkPaths] makes of the file names of one directory:
    [bits = map(lambda x: x.split('.'), filenames)], the [filter] that
    keeps the names of the form c.<x>.<z>.dat, and the chunk positions
    decoded from them. Each position becomes a key of [_presentChunks]. *)
Definition preload_positions (filenames : list string) : result (list (Z * Z)) :=
  let bits := split "."%char <$> filenames in
  let bits :=
    filter (λ x, length x = 4%nat
                 ∧ lower <$> x !! 0%nat = Some "c"%string
                 ∧ lower <$> x !! 3%nat = Some "dat"%string) bits in
  decode_bits bits.

End Base36.

(* ------------------------------------------------------------------ *)
(** ** numpy arrays of [uint8]                                         *)
(* ------------------------------------------------------------------ *)

(** Wrap-around of [uint8] arithmetic. *)
Definition u8 (v : Z) : Z := v `mod` 256.

Abbreviation arr1 := (list Z) (only parsing).
Abbreviation arr2 := (list (list Z)) (only parsing).
Abbreviation arr3 := (list (list (list Z))) (only parsing).

(** The arrays of a chunk tag are one-dimensional as they come out of the
    codec, and two- or three-dimensional once they have been given a
    shape. *)
Inductive ndarray :=
| A1 (a : arr1)
| A2 (a : arr2)
| A3 (a : arr3).

(** [a.flat], in row-major order. *)
Definition flatten (a : ndarray) : list Z :=
  match a with
  | A1 l => l
  | A2 l => concat l
  | A3 l => concat (concat l)
  end.

(** [a.shape] *)
Definition shape (a : ndarray) : list nat :=
  match a with
  | A1 l => [length l]
  | A2 l => [length l; length (default [] (head l))]
  | A3 l => [length l; length (default [] (head l));
             length (default [] (head (default [] (head l))))]
  end.

(** [k] consecutive pieces of [n] elements each. *)
Fixpoint chunks {A} (k n : nat) (l : list A) : list (list A) :=
  match k with
  | O => []
  | S k' => take n l :: chunks k' n (drop n l)
  end.

(** [a.shape = (n0, n1)] and [a.shape = (n0, n1, n2)]: numpy refuses a
    shape whose size differs from that of the array. *)
Definition reshape2 (n0 n1 : nat) (a : ndarray) : result arr2 :=
  let f := flatten a in
  if decide (length f = (n0 * n1)%nat) then Ok (chunks n0 n1 f)
  else Raise ValueError.

Definition reshape3 (n0 n1 n2 : nat) (a : ndarray) : result arr3 :=
  let f := flatten a in
  if decide (length f = (n0 * n1 * n2)%nat)
  then Ok (chunks n0 n1 (chunks (n0 * n1) n2 f))
  else Raise ValueError.

(** The cell at an index, when the index is within the array. *)
Definition cell2 (a : arr2) (z x : nat) : option Z :=
  match a !! z with
  | Some r => r !! x
  | None => None
  end.

Definition cell3 (a : arr3) (x z y : nat) : option Z :=
  match a !! x with
  | Some p => cell2 p z y
  | None => None
  end.

(** [a[x, z, y]] and [a[z, x]] for non-negative indices. *)
Definition idx3 (a : arr3) (x z y : nat) : result Z :=
  match cell3 a x z y with
  | Some v => Ok v
  | None => Raise IndexError
  end.

Definition idx2 (a : arr2) (z x : nat) : result Z :=
  match cell2 a z x with
  | Some v => Ok v
  | None => Raise IndexError
  end.

(** The same reads inside whole-array expressions, where the operand
    shapes have been checked beforehand. *)
Definition get3 (a : arr3) (x z y : nat) : Z := default 0 (cell3 a x z y).

Definition get2 (a : arr2) (z x : nat) : Z := default 0 (cell2 a z x).

(** [a[x, z, y] = v] and [a[z, x] = v] *)
Definition set3 (a : arr3) (x z y : nat) (v : Z) : result arr3 :=
  match idx3 a x z y with
  | Ok _ => Ok (alter (alter (<[y := u8 v]>) z) x a)
  | Raise e => Raise e
  end.

Definition set2 (a : arr2) (z x : nat) (v : Z) : result arr2 :=
  match idx2 a z x with
  | Ok _ => Ok (alter (<[x := u8 v]>) z a)
  | Raise e => Raise e
  end.

(** An assignment to the cells selected by [sel]; the new value of a cell
    is computed from its index and its old value. *)
Definition upd3 (sel : nat → nat → nat → bool) (g : nat → nat → nat → Z → Z)
    (a : arr3) : arr3 :=
  imap (λ x, imap (λ z, imap (λ y v, if sel x z y then g x z y v else v))) a.

Definition upd2 (g : nat → nat → Z → Z) (a : arr2) : arr2 :=
  imap (λ z, imap (λ x v, g z x v)) a.

(** [zeros((n0, n1, n2), uint8)] and [zeros((n0, n1), uint8)] *)
Definition zeros3 (n0 n1 n2 : nat) : arr3 := replicate n0 (replicate n1 (replicate n2 0)).
Definition zeros2 (n0 n1 : nat) : arr2 := replicate n0 (replicate n1 0).

(** Every cell satisfies [P]. *)
Definition Forall3 (P : Z → Prop) (a : arr3) : Prop :=
  Forall (Forall (Forall P)) a.

(** [a.shape == (n0, n1, n2)] for a rectangular array. *)
Definition has_shape3 (n0 n1 n2 : nat) (a : arr3) : Prop :=
  length a = n0 ∧ Forall (λ p, length p = n1 ∧ Forall (λ c, length c = n2) p) a.

Definition has_shape2 (n0 n1 : nat) (a : arr2) : Prop :=
  length a = n0 ∧ Forall (λ r, length r = n1) a.

Definition is_byte (v : Z) : Prop := 0 ≤ v < 256.

(* ------------------------------------------------------------------ *)
(** ** Chunk tags, the codec and the material tables                   *)
(* ------------------------------------------------------------------ *)

(** The tag names used as keys of the [Level] compound. *)
Definition Blocks : string := "Blocks".
Definition Data : string := "Data".
Definition SkyLight : string := "SkyLight".
Definition BlockLight : string := "BlockLight".
Definition HeightMap : string := "HeightMap".
Definition Entities : string := "Entities".
Definition TileEntities : string := "TileEntities".

(** The kinds of tag found in a [Level] compound, as far as the chunk code
    looks at them: a byte array with its [value], or a list of entity
    compounds (kept as opaque payloads). *)
Inductive TagValue :=
| TAG_Byte_Array (value : ndarray)
| TAG_List (items : list (list Z)).

(** The root compound of a chunk file; [tagLevel] is [root_tag[Level]],
    absent when the compound has no such key. *)
Record RootTag := mkRoot { tagLevel : option (gmap string TagValue) }.

(** [gzip] and [nbt], which are not part of the modelled files. An
    exception raised by either is the [Raise] of the result. *)
Class Codec := {
  gunzip : list Z → result (list Z);
  nbt_load : list Z → result RootTag
}.

(** [materials.lightAbsorption] and [materials.lightEmission]: tables of
    [uint8] indexed by block id. *)
Class Materials := {
  lightAbsorption : Z → Z;
  lightEmission : Z → Z
}.

(* ------------------------------------------------------------------ *)
(** ** class InfdevChunk                                               *)
(* ------------------------------------------------------------------ *)

Record InfdevChunk := mkChunk {
  chunkPosition : Z * Z;
  filename : string;
  compressedTag : option (list Z);
  root_tag : option RootTag;
  dirty : bool;
  needsCompression : bool;
  needsLighting : bool
}.

Definition set_compressedTag (v : option (list Z)) (c : InfdevChunk) : InfdevChunk :=
  mkChunk (chunkPosition c) (filename c) v (root_tag c)
          (dirty c) (needsCompression c) (needsLighting c).
Definition set_root_tag (v : option RootTag) (c : InfdevChunk) : InfdevChunk :=
  mkChunk (chunkPosition c) (filename c) (compressedTag c) v
          (dirty c) (needsCompression c) (needsLighting c).
Definition set_dirty (v : bool) (c : InfdevChunk) : InfdevChunk :=
  mkChunk (chunkPosition c) (filename c) (compressedTag c) (root_tag c)
          v (needsCompression c) (needsLighting c).
Definition set_needsCompression (v : bool) (c : InfdevChunk) : InfdevChunk :=
  mkChunk (chunkPosition c) (filename c) (compressedTag c) (root_tag c)
          (dirty c) v (needsLighting c).
Definition set_needsLighting (v : bool) (c : InfdevChunk) : InfdevChunk :=
  mkChunk (chunkPosition c) (filename c) (compressedTag c) (root_tag c)
          (dirty c) (needsCompression c) v.

(** A chunk method runs on the chunk object and on the files of the
    world directory (file name to content). *)
Abbreviation Files := (gmap string (list Z)) (only parsing).
Abbreviation ChunkSt := (gmap string (list Z) * InfdevChunk)%type (only parsing).

Definition get_self : M ChunkSt InfdevChunk := λ s, (Ok (snd s), s).
Definition modify_self (f : InfdevChunk → InfdevChunk) : M ChunkSt unit :=
  λ s, (Ok tt, (fst s, f (snd s))).

(** [self.root_tag[Level]]: [None] is not subscriptable. *)
Definition level_compound : M ChunkSt (gmap string TagValue) :=
  let! c := get_self in
  match root_tag c with
  | None => raise TypeError
  | Some t =>
      match tagLevel t with
      | None => raise KeyError
      | Some lv => ret lv
      end
  end.

(** [self.root_tag[Level][key].value], used as an array. *)
Definition tag_value (key : string) : M ChunkSt ndarray :=
  let! lv := level_compound in
  match lv !! key with
  | None => raise KeyError
  | Some (TAG_Byte_Array a) => ret a
  | Some (TAG_List _) => raise AttributeError
  end.

(** [self.root_tag[Level][key] = v] *)
Definition set_tag (key : string) (v : TagValue) : M ChunkSt unit :=
  let! lv := level_compound in
  modify_self (set_root_tag (Some (mkRoot (Some (<[key := v]> lv))))).

(** [self.root_tag[Level][key].value = a], and the in-place assignments to
    the array held there. *)
Definition set_tag_value (key : string) (a : ndarray) : M ChunkSt unit :=
  tag_value key ;;; set_tag key (TAG_Byte_Array a).

(** *** Shaping, unpacking and packing *)

Definition set_shape3 (key : string) (n0 n1 n2 : nat) : M ChunkSt unit :=
  let! a := tag_value key in
  let! a' := lift_result (reshape3 n0 n1 n2 a) in
  set_tag_value key (A3 a').

Definition set_shape2 (key : string) (n0 n1 : nat) : M ChunkSt unit :=
  let! a := tag_value key in
  let! a' := lift_result (reshape2 n0 n1 a) in
  set_tag_value key (A2 a').

(** [if not key in chunkTag[Level]: chunkTag[Level][key] = TAG_List()] *)
Definition ensure_list (key : string) : M ChunkSt unit :=
  let! lv := level_compound in
  match lv !! key with
  | Some _ => ret tt
  | None => set_tag key (TAG_List [])
  end.

Definition shapeChunkData : M ChunkSt unit :=
  let chunkSize := 16%nat in
  set_shape3 Blocks chunkSize chunkSize 128 ;;;
  set_shape2 HeightMap chunkSize chunkSize ;;;
  set_shape3 SkyLight chunkSize chunkSize 64 ;;;
  set_shape3 BlockLight chunkSize chunkSize 64 ;;;
  set_shape3 "Data" chunkSize chunkSize 64 ;;;
  ensure_list TileEntities ;;;
  ensure_list Entities.

(** [dataArray.shape[2]]: a tuple index out of range is an [IndexError]. *)
Definition shape_2 (a : ndarray) : result nat :=
  match shape a !! 2%nat with
  | Some n => Ok n
  | None => Raise IndexError
  end.

(** One packed byte gives two cells: the low nibble, then the high one. *)
Definition unpack_byte (b : Z) : list Z := [Z.land b 15; b ≫ 4].

(** The array expression of [unpackChunkData]: every byte of the last axis
    is replaced by its two nibbles, and the result is given the shape
    (16, 16, 128). *)
Definition unpack_array (a : ndarray) : result arr3 :=
  reshape3 16 16 128 (A1 (flatten a ≫= unpack_byte)).

Definition unpackChunkData : M ChunkSt unit :=
  for_each [SkyLight; BlockLight; Data] (λ key,
    let! dataArray := tag_value key in
    let! n := lift_result (shape_2 dataArray) in
    assert (bool_decide (n = 64%nat)) ;;;
    let! unpackedData := lift_result (unpack_array dataArray) in
    set_tag_value key (A3 unpackedData)).

(** What [unpack_array] comes to on an array of the shape (16, 16, 64):
    every column (last axis) is unpacked on its own. *)
Definition map_columns (f : list Z → list Z) (a : arr3) : arr3 :=
  fmap (M:=list) f <$> a.

Definition unpacked (x : arr3) : arr3 := map_columns (λ c, c ≫= unpack_byte) x.

(** Two consecutive cells give one packed byte:
    [unpackedData[...,1] <<= 4; unpackedData[...,1] |= unpackedData[...,0]]. *)
Fixpoint pack_pairs (l : list Z) : list Z :=
  match l with
  | lo :: hi :: l' => Z.lor (u8 (hi ≪ 4)) lo :: pack_pairs l'
  | _ => []
  end.

(** The array expression of [packChunkData]: [reshape(16, 16, 64, 2)]
    needs 16*16*128 cells; the result has the shape (16, 16, 64). *)
Definition pack_array (a : ndarray) : result arr3 :=
  if decide (length (flatten a) = (16 * 16 * 64 * 2)%nat)
  then Ok (chunks 16 16 (chunks (16 * 16) 64 (pack_pairs (flatten a))))
  else Raise ValueError.

Definition packChunkData : M ChunkSt unit :=
  let! c := get_self in
  match root_tag c with
  | None => ret tt
  | Some _ =>
      for_each [SkyLight; BlockLight; Data] (λ key,
        let! dataArray := tag_value key in
        let! n := lift_result (shape_2 dataArray) in
        assert (bool_decide (n = 128%nat)) ;;;
        let! packed := lift_result (pack_array dataArray) in
        set_tag_value key (A3 packed))
  end.

(** The chunk [c] with [lv] as the [Level] compound of its tag. *)
Definition with_level (lv : gmap string TagValue) (c : InfdevChunk) : InfdevChunk :=
  set_root_tag (Some (mkRoot (Some lv))) c.

(** [u] holds the nibbles of the packed array [x]: in every column, cell
    [2k] is the low nibble of byte [k] and cell [2k+1] its high nibble. *)
Definition nibbles_of (x u : arr3) : Prop :=
  has_shape3 16 16 128 u
  ∧ ∀ i j k : nat, (i < 16)%nat → (j < 16)%nat → (k < 64)%nat →
      cell3 u i j (2 * k) = Some (Z.land (get3 x i j k) 15)
      ∧ cell3 u i j (2 * k + 1) = Some (get3 x i j k ≫ 4).

(** A light value: between 0 and 15. *)
Definition is_light (v : Z) : Prop := 0 ≤ v ≤ 15.

(** The array [a] with the shape (n0, n1, n2), and with the shape
    (n0, n1). *)
Definition shaped3 (n0 n1 n2 : nat) (a : ndarray) : arr3 :=
  chunks n0 n1 (chunks (n0 * n1) n2 (flatten a)).
Definition shaped2 (n0 n1 : nat) (a : ndarray) : arr2 :=
  chunks n0 n1 (flatten a).

(** The compound [lv] after [ensure_list key]. *)
Definition ensured (key : string) (lv : gmap string TagValue) : gmap string TagValue :=
  match lv !! key with
  | Some _ => lv
  | None => <[key := TAG_List []]> lv
  end.

(** The [Level] compound that [decompress] leaves when the parsed compound
    [raw] has the five arrays [ab], [ah], [asl], [abl], [ad] under
    [Blocks], [HeightMap], [SkyLight], [BlockLight] and [Data]: the
    arrays shaped, the two lists ensured, the nibble arrays unpacked. *)
Definition decompressed_level (raw : gmap string TagValue)
    (ab ah asl abl ad : ndarray) : gmap string TagValue :=
  let lv := <[Blocks := TAG_Byte_Array (A3 (shaped3 16 16 128 ab))]> raw in
  let lv := <[HeightMap := TAG_Byte_Array (A2 (shaped2 16 16 ah))]> lv in
  let lv := <[SkyLight := TAG_Byte_Array (A3 (shaped3 16 16 64 asl))]> lv in
  let lv := <[BlockLight := TAG_Byte_Array (A3 (shaped3 16 16 64 abl))]> lv in
  let lv := <[Data := TAG_Byte_Array (A3 (shaped3 16 16 64 ad))]> lv in
  let lv := ensured Entities (ensured TileEntities lv) in
  let lv := <[SkyLight := TAG_Byte_Array (A3 (unpacked (shaped3 16 16 64 asl)))]> lv in
  let lv := <[BlockLight := TAG_Byte_Array (A3 (unpacked (shaped3 16 16 64 abl)))]> lv in
  <[Data := TAG_Byte_Array (A3 (unpacked (shaped3 16 16 64 ad)))]> lv.

(** The arrays that a chunk file must hold for [decompress] to go
    through. *)
Definition well_formed_level (raw : gmap string TagValue) (ab ah asl abl ad : ndarray) : Prop :=
  raw !! Blocks = Some (TAG_Byte_Array ab)
  ∧ raw !! HeightMap = Some (TAG_Byte_Array ah)
  ∧ raw !! SkyLight = Some (TAG_Byte_Array asl)
  ∧ raw !! BlockLight = Some (TAG_Byte_Array abl)
  ∧ raw !! Data = Some (TAG_Byte_Array ad)
  ∧ length (flatten ab) = (16 * 16 * 128)%nat
  ∧ length (flatten ah) = (16 * 16)%nat
  ∧ length (flatten asl) = (16 * 16 * 64)%nat
  ∧ length (flatten abl) = (16 * 16 * 64)%nat
  ∧ length (flatten ad) = (16 * 16 * 64)%nat.

Section chunk_methods.
Context {codec : Codec} {materials : Materials}.

(** *** Decompressing and loading *)

(** [MCLevel.decompress]. Both [except] branches print a message and
    return; the calls to [world.malformedChunk] are commented out in the
    source, so the world is never told. After a [KeyError] from
    [shapeChunkData] the tag that was parsed stays in [root_tag]. *)
Definition decompress : M ChunkSt unit :=
  let! c := get_self in
  match root_tag c, compressedTag c with
  | Some _, _ => ret tt
  | None, None => ret tt
  | None, Some blob =>
      let! data :=
        try_except (lift_result (gunzip blob))
          (λ e, bool_decide (e = IOError)) (ret blob) in
      let! parsed :=
        try_except (let! t := lift_result (nbt_load data) in ret (Some t))
          (λ e, bool_decide (e = IOError ∨ e = TypeError)) (ret None) in
      match parsed with
      | None => ret tt
      | Some t =>
          modify_self (set_root_tag (Some t)) ;;;
          let! shaped :=
            try_except (shapeChunkData ;;; ret true)
              (λ e, bool_decide (e = KeyError)) (ret false) in
          if shaped : bool then unpackChunkData else ret tt
      end
  end.

(** [file(self.filename, 'rb').read()] *)
Definition read_file (name : string) : M ChunkSt (list Z) :=
  λ s, match fst s !! name with
       | Some content => (Ok content, s)
       | None => (Raise IOError, s)
       end.

(** [os.remove(name)] *)
Definition os_remove (name : string) : M ChunkSt unit :=
  λ s, match fst s !! name with
       | Some _ => (Ok tt, (delete name (fst s), snd s))
       | None => (Raise OSError, s)
       end.

Definition load : M ChunkSt unit :=
  let! c := get_self in
  (match compressedTag c with
   | None =>
       let! compressedData := read_file (filename c) in
       modify_self (set_compressedTag (Some compressedData))
   | Some _ => ret tt
   end) ;;;
  let! c := get_self in
  match root_tag c with
  | None => decompress
  | Some _ => ret tt
  end.


Definition isLoaded (c : InfdevChunk) : bool :=
  negb (negb (bool_decide (is_Some (compressedTag c)))
        && negb (bool_decide (is_Some (root_tag c)))).

Definition isCompressed (c : InfdevChunk) : bool :=
  bool_decide (is_Some (compressedTag c)) && negb (bool_decide (is_Some (root_tag c))).

(** *** The array properties, each behind [@decompress_first] *)

Definition getBlocks : M ChunkSt ndarray := decompress ;;; tag_value Blocks.
Definition getData : M ChunkSt ndarray := decompress ;;; tag_value Data.
Definition getHeightMap : M ChunkSt ndarray := decompress ;;; tag_value HeightMap.
Definition getSkyLight : M ChunkSt ndarray := decompress ;;; tag_value SkyLight.
Definition getBlockLight : M ChunkSt ndarray := decompress ;;; tag_value BlockLight.

(** An indexing expression with three (two) indices needs an array of
    that many dimensions. *)
Definition as3 {S} (a : ndarray) : M S arr3 :=
  match a with A3 l => ret l | _ => raise IndexError end.
Definition as2 {S} (a : ndarray) : M S arr2 :=
  match a with A2 l => ret l | _ => raise IndexError end.

(** *** The height map *)

(** [a.nonzero()] on the three-dimensional array [lightAbsorption[blocks]]:
    the indices of the cells that are not zero, in row-major order. *)
Definition nonzero1 (c : list Z) : list nat :=
  concat (imap (λ y b, if decide (lightAbsorption b = 0) then [] else [y]) c).

Definition nonzero3 (blocks : arr3) : list (nat * nat * nat) :=
  concat (imap (λ x p,
    concat (imap (λ z c, (λ y, (x, z, y)) <$> nonzero1 c) p)) blocks).

(** [heightMap[axes[1], axes[0]] = axes[2]]: the assignments are made one
    index after the other, so that for a repeated position the last value
    stays. *)
Fixpoint assign_heights (heightMap : arr2) (axes : list (nat * nat * nat))
    : result arr2 :=
  match axes with
  | [] => Ok heightMap
  | (x, z, y) :: axes' =>
      match set2 heightMap z x (Z.of_nat y) with
      | Ok heightMap' => assign_heights heightMap' axes'
      | Raise e => Raise e
      end
  end.

(** The array computation of [generateHeightMap]:
    [heightMap[:] = 0], the indexed assignment, [heightMap += 1]. *)
Definition height_map_of (blocks : arr3) (heightMap : arr2) : result arr2 :=
  let heightMap := upd2 (λ _ _ _, 0) heightMap in
  match assign_heights heightMap (nonzero3 blocks) with
  | Ok heightMap => Ok (upd2 (λ _ _ v, u8 (v + 1)) heightMap)
  | Raise e => Raise e
  end.

(** The column of blocks at [x], [z], from the bottom up. *)
Definition column (blocks : arr3) (x z : nat) : list Z :=
  match blocks !! x with
  | Some p => default [] (p !! z)
  | None => []
  end.

(** [y] is the highest cell of the column [c] whose block absorbs light. *)
Definition top_absorbing (c : list Z) (y : nat) : Prop :=
  (∃ b, c !! y = Some b ∧ lightAbsorption b ≠ 0)
  ∧ ∀ y' b', (y < y')%nat → c !! y' = Some b' → lightAbsorption b' = 0.

(** No block of the column [c] absorbs light. *)
Definition none_absorbing (c : list Z) : Prop :=
  ∀ y b, c !! y = Some b → lightAbsorption b = 0.

Definition generateHeightMap : M ChunkSt unit :=
  let! c := get_self in
  (match root_tag c with None => load | Some _ => ret tt end) ;;;
  let! blocks := getBlocks in
  let! heightMap := getHeightMap in
  let! blocks := as3 blocks in
  let! heightMap := as2 heightMap in
  let! heightMap := lift_result (height_map_of blocks heightMap) in
  set_tag_value HeightMap (A2 heightMap).

(** *** The fast sky light *)

(** The inner loop of [genFastLights] over [ys], the heights below the
    height map from the top down; [lv <= 0] leaves the loop. The table
    [la] of the source is the light absorption table. *)
Fixpoint fast_column (blocks : arr3) (x z : nat) (ys : list nat) (lv : Z)
    (sky : arr3) : result arr3 :=
  match ys with
  | [] => Ok sky
  | y :: ys' =>
      match idx3 blocks x z y with
      | Raise e => Raise e
      | Ok b =>
          let lv := lv - Z.max (lightAbsorption b) 1 in
          if lv <=? 0 then Ok sky
          else match set3 sky x z y lv with
               | Raise e => Raise e
               | Ok sky' => fast_column blocks x z ys' lv sky'
               end
      end
  end.

(** The body of the loop over the columns:
    [SkyLight[x, z, HeightMap[z, x]:128] = 15], then the inner loop. *)
Definition fast_lights_at (blocks : arr3) (heightMap : arr2) (sky : arr3)
    (xz : nat * nat) : result arr3 :=
  let '(x, z) := xz in
  match idx2 heightMap z x with
  | Raise e => Raise e
  | Ok h =>
      match cell3 sky x z 0 with
      | None => Raise IndexError
      | Some _ =>
          let sky :=
            upd3 (λ x' z' y, bool_decide (x' = x ∧ z' = z)
                             && bool_decide (Z.to_nat h ≤ y < 128)%nat)
                 (λ _ _ _ _, 15) sky in
          fast_column blocks x z (reverse (seq 0 (Z.to_nat h))) 15 sky
      end
  end.

Fixpoint fast_lights (blocks : arr3) (heightMap : arr2) (sky : arr3)
    (cols : list (nat * nat)) : result arr3 :=
  match cols with
  | [] => Ok sky
  | xz :: cols' =>
      match fast_lights_at blocks heightMap sky xz with
      | Raise e => Raise e
      | Ok sky' => fast_lights blocks heightMap sky' cols'
      end
  end.

(** [itertools.product(xrange(16), xrange(16))] *)
Definition columns : list (nat * nat) :=
  x ← seq 0 16; z ← seq 0 16; [(x, z)].

Definition genFastLights : M ChunkSt unit :=
  let! sky := getSkyLight in
  let! sky := as3 sky in
  let sky := upd3 (λ _ _ _, true) (λ _ _ _ _, 0) sky in
  set_tag_value SkyLight (A3 sky) ;;;
  let! blocks := getBlocks in
  let! blocks := as3 blocks in
  let! heightMap := getHeightMap in
  let! heightMap := as2 heightMap in
  let! sky := lift_result (fast_lights blocks heightMap sky columns) in
  set_tag_value SkyLight (A3 sky).

(** *** Marking a chunk as changed *)

Definition chunkChanged (calcLighting : bool) : M ChunkSt unit :=
  let! c := get_self in
  let rest :=
    modify_self (set_dirty true) ;;;
    modify_self (set_needsLighting true) ;;;
    generateHeightMap ;;;
    if calcLighting then genFastLights else ret tt in
  match root_tag c, compressedTag c with
  | Some _, _ => modify_self (set_needsCompression true) ;;; rest
  | None, None => ret tt
  | None, Some _ => rest
  end.

End chunk_methods.

(* ------------------------------------------------------------------ *)
(** ** class MCInfdevOldLevel                                          *)
(* ------------------------------------------------------------------ *)

(** The level object with the files of its world directory.
    [presentChunks] is the dictionary [self._presentChunks]. *)
Record World := mkWorld {
  presentChunks : gmap (Z * Z) InfdevChunk;
  files : gmap string (list Z)
}.

(** [self.Height = 128], set by [__init__]. *)
Definition Height : Z := 128.

(** A value returned by a method that returns either a number or a
    truth value. *)
Inductive retval :=
| RInt (n : Z)
| RBool (b : bool).

(** [(start, stop)] of a [slice] object. *)
Record slice := mkSlice { start : Z; stop : Z }.

(** A method call on the chunk object that [_presentChunks] holds under
    the key [k]; the object is changed in place. *)
Definition with_chunk {A} (k : Z * Z) (m : M ChunkSt A) : M World A :=
  λ w, match presentChunks w !! k with
       | None => (Raise KeyError, w)
       | Some c =>
           let '(r, (fs, c')) := m (files w, c) in
           (r, mkWorld (<[k := c']> (presentChunks w)) fs)
       end.

Definition del_chunk (k : Z * Z) : M World unit :=
  λ w, match presentChunks w !! k with
       | None => (Raise KeyError, w)
       | Some _ => (Ok tt, mkWorld (delete k (presentChunks w)) (files w))
       end.

(** The array that the chunk under the key [k] holds in memory under the
    tag name [key], if there is one. *)
Definition stored_array (w : World) (k : Z * Z) (key : string) : option ndarray :=
  match presentChunks w !! k with
  | Some c =>
      match root_tag c with
      | Some (mkRoot (Some lv)) =>
          match lv !! key with
          | Some (TAG_Byte_Array a) => Some a
          | _ => None
          end
      | _ => None
      end
  | None => None
  end.

Section level_methods.
Context {codec : Codec} {materials : Materials}.

Definition containsChunk (cx cz : Z) : M World bool :=
  let! w := get_state in
  ret (bool_decide (is_Some (presentChunks w !! (cx, cz)))).

(** [getChunk] returns the chunk object, that is, its key. *)
Definition getChunk (cx cz : Z) : M World (Z * Z) :=
  let! present := containsChunk cx cz in
  if negb present then raise ChunkNotPresent
  else
    let c := (cx, cz) in
    with_chunk c load ;;;
    let! present := containsChunk cx cz in
    if negb present then raise ChunkMalformed
    else ret c.

(** The arrays returned by the following methods are the chunk's own:
    an assignment into one of them is made on the chunk in the store. *)
Definition blocksForChunk (cx cz : Z) : M World ndarray :=
  let! c := getChunk cx cz in with_chunk c getBlocks.

Definition lightsForChunk (cx cz : Z) : M World ndarray :=
  let! c := getChunk cx cz in with_chunk c getBlockLight.

Definition heightMapForChunk (cx cz : Z) : M World ndarray :=
  let! c := getChunk cx cz in with_chunk c getHeightMap.

Definition skyLightForChunk (cx cz : Z) : M World ndarray :=
  let! c := getChunk cx cz in with_chunk c getSkyLight.

Definition skylightAt (x y z : Z) : M World Z :=
  if bool_decide (y < 0) || bool_decide (y >= Height) then ret 0
  else
    let zc := z ≫ 4 in
    let xc := x ≫ 4 in
    let xInChunk := Z.land x 15 in
    let zInChunk := Z.land z 15 in
    let! skyLight := skyLightForChunk xc zc in
    let! skyLight := as3 skyLight in
    lift_result (idx3 skyLight (Z.to_nat xInChunk) (Z.to_nat zInChunk) (Z.to_nat y)).

Definition setSkylightAt (x y z lightValue : Z) : M World retval :=
  if bool_decide (y < 0) || bool_decide (y >= Height) then ret (RInt 0)
  else
    let zc := z ≫ 4 in
    let xc := x ≫ 4 in
    let xInChunk := Z.to_nat (Z.land x 15) in
    let zInChunk := Z.to_nat (Z.land z 15) in
    let! skyLight := skyLightForChunk xc zc in
    let! skyLight := as3 skyLight in
    let! oldValue := lift_result (idx3 skyLight xInChunk zInChunk (Z.to_nat y)) in
    (if bool_decide (oldValue < lightValue)
     then
       let! skyLight := lift_result (set3 skyLight xInChunk zInChunk (Z.to_nat y) lightValue) in
       with_chunk (xc, zc) (set_tag_value SkyLight (A3 skyLight))
     else ret tt) ;;;
    ret (RBool (bool_decide (oldValue < lightValue))).


(** *** getChunkSlices *)

(** What the generator yields: the chunk, the slices for its arrays in
    the order x, z, y, and the position of the piece within the box in
    the order x, y, z. *)
Record chunk_slice := mkChunkSlice {
  cs_chunk : Z * Z;
  cs_slices : slice * slice * slice;
  cs_point : Z * Z * Z
}.

(** The generator run to its end: the list of the values it yields. *)
Definition getChunkSlices (box : Box.BoundingBox) : M World (list chunk_slice) :=
  let minxoff := Box.getMinx box - (Box.getMincx box ≪ 4) in
  let minzoff := Box.getMinz box - (Box.getMincz box ≪ 4) in
  let maxxoff := Box.getMaxx box - (Box.getMaxcx box ≪ 4) + 16 in
  let maxzoff := Box.getMaxz box - (Box.getMaxcz box ≪ 4) + 16 in
  for_yield (range (Box.getMincx box) (Box.getMaxcx box)) (λ cx,
    let localMinX := if bool_decide (cx = Box.getMincx box) then minxoff else 0 in
    let localMaxX := if bool_decide (cx = Box.getMaxcx box - 1) then maxxoff else 16 in
    let newMinX := localMinX + (cx ≪ 4) - Box.getMinx box in
    for_yield (range (Box.getMincz box) (Box.getMaxcz box)) (λ cz,
      let localMinZ := if bool_decide (cz = Box.getMincz box) then minzoff else 0 in
      let localMaxZ := if bool_decide (cz = Box.getMaxcz box - 1) then maxzoff else 16 in
      let newMinZ := localMinZ + (cz ≪ 4) - Box.getMinz box in
      let! found :=
        try_except (blocksForChunk cx cz ;;; ret true)
          is_ChunkNotPresent (ret false) in
      if found : bool then
        let! chunk := getChunk cx cz in
        ret [mkChunkSlice chunk
               (mkSlice localMinX localMaxX, mkSlice localMinZ localMaxZ,
                mkSlice (Box.getMiny box) (Box.getMaxy box))
               (newMinX, 0, newMinZ)]
      else ret [])).

(** The value that [getChunkSlices] yields for the chunk position [k]. *)
Definition slice_at (box : Box.BoundingBox) (k : Z * Z) : chunk_slice :=
  let '(cx, cz) := k in
  let minxoff := Box.getMinx box - (Box.getMincx box ≪ 4) in
  let minzoff := Box.getMinz box - (Box.getMincz box ≪ 4) in
  let maxxoff := Box.getMaxx box - (Box.getMaxcx box ≪ 4) + 16 in
  let maxzoff := Box.getMaxz box - (Box.getMaxcz box ≪ 4) + 16 in
  let localMinX := if bool_decide (cx = Box.getMincx box) then minxoff else 0 in
  let localMaxX := if bool_decide (cx = Box.getMaxcx box - 1) then maxxoff else 16 in
  let localMinZ := if bool_decide (cz = Box.getMincz box) then minzoff else 0 in
  let localMaxZ := if bool_decide (cz = Box.getMaxcz box - 1) then maxzoff else 16 in
  mkChunkSlice (cx, cz)
    (mkSlice localMinX localMaxX, mkSlice localMinZ localMaxZ,
     mkSlice (Box.getMiny box) (Box.getMaxy box))
    (localMinX + (cx ≪ 4) - Box.getMinx box, 0,
     localMinZ + (cz ≪ 4) - Box.getMinz box).

(** The piece [t] covers the point [x], [z] of the box: the point lies in
    the rectangle that starts at the offset of the piece and has the
    extent of its slices. *)
Definition covers (t : chunk_slice) (x z : Z) : Prop :=
  (cs_point t).1.1 ≤ x < (cs_point t).1.1
                         + (stop (cs_slices t).1.1 - start (cs_slices t).1.1)
  ∧ (cs_point t).2 ≤ z < (cs_point t).2
                         + (stop (cs_slices t).1.2 - start (cs_slices t).1.2).

#[global] Instance covers_dec t x z : Decision (covers t x z).
Proof. unfold covers. apply _. Defined.

(** The chunk [c] can be loaded: [load] succeeds and leaves the chunk
    materialized, with an array of blocks and with its file content
    cached. *)
Definition loads_ok (fs : gmap string (list Z)) (c : InfdevChunk) : Prop :=
  ∃ c' lv b blob,
    load (fs, c) = (Ok tt, (fs, c'))
    ∧ root_tag c' = Some (mkRoot (Some lv))
    ∧ lv !! Blocks = Some (TAG_Byte_Array b)
    ∧ compressedTag c' = Some blob.

(** Every chunk of the store can be loaded. *)
Definition store_loads (w : World) : Prop :=
  ∀ k c, presentChunks w !! k = Some c → loads_ok (files w) c.

(** The store while [getChunkSlices] runs from the world [w0]: every
    chunk can be loaded and the chunk positions are those of [w0]. *)
Definition slices_inv (w0 w : World) : Prop :=
  store_loads w
  ∧ ∀ k, is_Some (presentChunks w !! k) ↔ is_Some (presentChunks w0 !! k).

End level_methods.

(* ------------------------------------------------------------------ *)
(** ** generateLights                                                  *)
(* ------------------------------------------------------------------ *)

#[global] Instance has_shape3_dec n0 n1 n2 a : Decision (has_shape3 n0 n1 n2 a).
Proof. unfold has_shape3. apply _. Defined.

(** A neighbour in the light pass: a chunk of the store or the one
    [ZeroChunk]. All the arrays of the [ZeroChunk] ([Blocks],
    [BlockLight], [SkyLight], [Data]) are one and the same array, which is
    the second component of the state of the pass. *)
Inductive chunk_ref :=
| StoreChunk (k : Z * Z)
| TheZeroChunk.

Abbreviation LightSt := (World * list (list (list Z)))%type (only parsing).

Definition in_world {A} (m : M World A) : M LightSt A :=
  λ s, let '(r, w') := m (fst s) in (r, (w', snd s)).

(** [newlight[newlight > 15] = 0] *)
Definition clamp (v : Z) : Z := if 15 <? v then 0 else v.

(** [dst[sel] = maximum(dst[sel], newlight)], after the clamp. *)
Definition merge (sel : nat → nat → nat → bool) (newlight : nat → nat → nat → Z)
    (dst : arr3) : arr3 :=
  upd3 sel (λ x z y old, Z.max old (clamp (newlight x z y))) dst.

(** The slices of the pass combine arrays of the shape (16, 16, 128);
    numpy refuses operands whose shapes do not go together. *)
Definition chunk_array {S} (a : ndarray) : M S arr3 :=
  match a with
  | A3 l => if decide (has_shape3 16 16 128 l) then ret l else raise ValueError
  | _ => raise ValueError
  end.

(** [array[sel] = f(array)] on the array under [key] of the chunk tag. *)
Definition modify_tag3 (key : string) (f : arr3 → arr3) : M ChunkSt unit :=
  let! a := tag_value key in
  let! a := chunk_array a in
  set_tag key (TAG_Byte_Array (A3 (f a))).

Section light_engine.
Context {codec : Codec} {materials : Materials}.

(** [la = array(self.materials.lightAbsorption)] with [la[18] = 0]. *)
Definition la (b : Z) : Z := if decide (b = 18) then 0 else lightAbsorption b.

(** [getattr(chunk, light)], a property behind [@decompress_first]. *)
Definition light_getter (light : string) : M ChunkSt ndarray :=
  decompress ;;; tag_value light.

Definition ref_light (light : string) (r : chunk_ref) : M LightSt arr3 :=
  match r with
  | TheZeroChunk => λ s, (Ok (snd s), s)
  | StoreChunk k =>
      let! a := in_world (with_chunk k (light_getter light)) in chunk_array a
  end.

Definition ref_blocks (r : chunk_ref) : M LightSt arr3 :=
  match r with
  | TheZeroChunk => λ s, (Ok (snd s), s)
  | StoreChunk k =>
      let! a := in_world (with_chunk k getBlocks) in chunk_array a
  end.

Definition modify_light (light : string) (r : chunk_ref) (f : arr3 → arr3)
    : M LightSt unit :=
  match r with
  | TheZeroChunk => λ s, (Ok tt, (fst s, f (snd s)))
  | StoreChunk k => in_world (with_chunk k (decompress ;;; modify_tag3 light f))
  end.

(** The neighbour at a chunk position: the [ZeroChunk] where the world
    has no chunk. *)
Definition neighbor (cx cz : Z) : M LightSt chunk_ref :=
  let! present := in_world (containsChunk cx cz) in
  if negb present then ret TheZeroChunk
  else
    let! k := in_world (getChunk cx cz) in
    let! loaded := in_world (with_chunk k
                     (let! c := get_self in ret (bool_decide (is_Some (root_tag c))))) in
    assert loaded ;;;
    ret (StoreChunk k).

(** Light sent from an edge of the chunk into the facing edge of the
    neighbour [nc]:
    [newlight = (chunkLight[src] - la[nc.Blocks[dst]]) - 1]. *)
Definition push_out (light : string) (k : Z * Z) (nc : chunk_ref)
    (sel : nat → nat → nat → bool) (src : nat → nat → nat → nat * nat * nat)
    : M LightSt unit :=
  ref_light light nc ;;;
  let! chunkLight := ref_light light (StoreChunk k) in
  let! ncBlocks := ref_blocks nc in
  modify_light light nc
    (merge sel (λ x z y,
       let '(x', z', y') := src x z y in
       u8 (u8 (get3 chunkLight x' z' y' - la (get3 ncBlocks x z y)) - 1))).

(** Light taken from an edge of the neighbour [nc] into the facing edge
    of the chunk: [newlight = ncLight[src] - chunkLa[dst]]. *)
Definition pull_in (light : string) (k : Z * Z) (nc : chunk_ref)
    (chunkLa : nat → nat → nat → Z)
    (sel : nat → nat → nat → bool) (src : nat → nat → nat → nat * nat * nat)
    : M LightSt unit :=
  let! ncLight := ref_light light nc in
  modify_light light (StoreChunk k)
    (merge sel (λ x z y,
       let '(x', z', y') := src x z y in
       u8 (get3 ncLight x' z' y' - chunkLa x z y))).

(** Light moved one cell within the chunk:
    [newlight = chunkLight[src] - chunkLa[dst]]. *)
Definition chunk_body (light : string) (k : Z * Z)
    (chunkLa : nat → nat → nat → Z)
    (sel : nat → nat → nat → bool) (src : nat → nat → nat → nat * nat * nat)
    : M LightSt unit :=
  modify_light light (StoreChunk k)
    (λ chunkLight,
       merge sel (λ x z y,
         let '(x', z', y') := src x z y in
         u8 (get3 chunkLight x' z' y' - chunkLa x z y)) chunkLight).

(** [zerochunkLight[:] = 0] *)
Definition reset_zero (light : string) : M LightSt unit :=
  modify_light light TheZeroChunk (upd3 (λ _ _ _, true) (λ _ _ _ _, 0)).

Definition below128 (y : nat) : bool := bool_decide (y < 128)%nat.

(** The body of the loop [for chunk in dirtyChunks] of one pass. *)
Definition light_chunk (light : string) (k : Z * Z) : M LightSt unit :=
  let! c := in_world (with_chunk k get_self) in
  let '(cx, cz) := chunkPosition c in
  let! ncXDec := neighbor (cx + -1) (cz + 0) in
  let! ncXInc := neighbor (cx + 1) (cz + 0) in
  let! ncZDec := neighbor (cx + 0) (cz + -1) in
  let! ncZInc := neighbor (cx + 0) (cz + 1) in
  let! blocks := ref_blocks (StoreChunk k) in
  let chunkLa x z y := u8 (la (get3 blocks x z y) + 1) in
  ref_light light (StoreChunk k) ;;;
  (* left edge, chunk body, right edge *)
  push_out light k ncXDec
    (λ x z y, bool_decide (x = 15)%nat && below128 y) (λ x z y, (0, z, y))%nat ;;;
  chunk_body light k chunkLa
    (λ x z y, bool_decide (x < 15)%nat && below128 y) (λ x z y, (x + 1, z, y))%nat ;;;
  pull_in light k ncXInc chunkLa
    (λ x z y, bool_decide (x = 15)%nat && below128 y) (λ x z y, (0, z, y))%nat ;;;
  (* right edge, chunk body, left edge *)
  push_out light k ncXInc
    (λ x z y, bool_decide (x = 0)%nat && below128 y) (λ x z y, (15, z, y))%nat ;;;
  chunk_body light k chunkLa
    (λ x z y, bool_decide (1 ≤ x < 16)%nat && below128 y) (λ x z y, (x - 1, z, y))%nat ;;;
  pull_in light k ncXDec chunkLa
    (λ x z y, bool_decide (x = 0)%nat && below128 y) (λ x z y, (15, z, y))%nat ;;;
  reset_zero light ;;;
  (* bottom edge, chunk body, top edge *)
  push_out light k ncZDec
    (λ x z y, bool_decide (z = 15)%nat && below128 y) (λ x z y, (x, 0, y))%nat ;;;
  chunk_body light k chunkLa
    (λ x z y, bool_decide (z < 15)%nat && below128 y) (λ x z y, (x, z + 1, y))%nat ;;;
  pull_in light k ncZInc chunkLa
    (λ x z y, bool_decide (z = 15)%nat && below128 y) (λ x z y, (x, 0, y))%nat ;;;
  (* top edge, chunk body, bottom edge *)
  push_out light k ncZInc
    (λ x z y, bool_decide (z = 0)%nat && below128 y) (λ x z y, (x, 15, y))%nat ;;;
  chunk_body light k chunkLa
    (λ x z y, bool_decide (1 ≤ z < 16)%nat && below128 y) (λ x z y, (x, z - 1, y))%nat ;;;
  pull_in light k ncZDec chunkLa
    (λ x z y, bool_decide (z = 0)%nat && below128 y) (λ x z y, (x, 15, y))%nat ;;;
  reset_zero light ;;;
  (* upwards, downwards *)
  chunk_body light k chunkLa
    (λ x z y, bool_decide (1 ≤ y < 128)%nat) (λ x z y, (x, z, y - 1))%nat ;;;
  chunk_body light k chunkLa
    (λ x z y, bool_decide (y < 127)%nat) (λ x z y, (x, z, y + 1))%nat ;;;
  reset_zero light.

(** [n] rounds of [for chunk in dirtyChunks] for one kind of light. *)
Definition passes (light : string) (n : nat) (dirtyChunks : list (Z * Z))
    : M LightSt unit :=
  for_each (seq 0 n) (λ i, for_each dirtyChunks (light_chunk light)).

(** The first loop of [generateLights], for one chunk:
    [chunk.load(); chunk.chunkChanged()], the [assert], and
    [chunk.BlockLight[:] = lightEmission[chunk.Blocks]]. *)
Definition init_lights : M ChunkSt unit :=
  load ;;;
  chunkChanged true ;;;
  let! c := get_self in
  assert (dirty c && needsCompression c && needsLighting c) ;;;
  let! blocks := getBlocks in
  let! blocks := chunk_array blocks in
  decompress ;;;
  modify_tag3 BlockLight
    (upd3 (λ _ _ _, true) (λ x z y _, u8 (lightEmission (get3 blocks x z y)))).

(** The order of Python tuples, for [sorted(..., key = chunkPosition)]. *)
Definition pos_le (a b : Z * Z) : Prop :=
  a.1 < b.1 ∨ (a.1 = b.1 ∧ a.2 ≤ b.2).

#[global] Instance pos_le_dec a b : Decision (pos_le a b).
Proof. unfold pos_le. apply _. Defined.

(** The chunks to light, as keys of the store. *)
Definition select_dirty (dirtyChunks : option (list (Z * Z))) (w : World)
    : list (Z * Z) :=
  let found :=
    match dirtyChunks with
    | None => filter (λ kc, needsLighting kc.2 = true) (map_to_list (presentChunks w))
    | Some l => omap (λ k, (λ c, (k, c)) <$> presentChunks w !! k) l
    end in
  fst <$> merge_sort (λ a b, pos_le (chunkPosition a.2) (chunkPosition b.2)) found.

Definition generateLights (dirtyChunks : option (list (Z * Z))) : M World unit :=
  let! w := get_state in
  let dirtyChunks := select_dirty dirtyChunks w in
  for_each dirtyChunks (λ k, with_chunk k init_lights) ;;;
  (λ w, let '(r, (w', _)) :=
          for_each [BlockLight; SkyLight]
            (λ light, passes light 16 dirtyChunks) (w, zeros3 16 16 128) in
        (r, w')) ;;;
  for_each dirtyChunks (λ k, with_chunk k (modify_self (set_needsLighting false))).

(** The sky light of the chunk is materialized and holds light values. *)
Definition sky_ok (c : InfdevChunk) : Prop :=
  ∃ lv sl,
    root_tag c = Some (mkRoot (Some lv))
    ∧ lv !! SkyLight = Some (TAG_Byte_Array (A3 sl))
    ∧ Forall3 is_light sl.

(** Both light arrays of the chunk are materialized, and each of their
    cells holds a value between 0 and 15. *)
Definition chunk_lights_ok (c : InfdevChunk) : Prop :=
  ∃ lv bl sl,
    root_tag c = Some (mkRoot (Some lv))
    ∧ lv !! BlockLight = Some (TAG_Byte_Array (A3 bl))
    ∧ lv !! SkyLight = Some (TAG_Byte_Array (A3 sl))
    ∧ Forall3 is_light bl ∧ Forall3 is_light sl.

(** The same for the chunk that the store holds under the key [k]. *)
Definition lights_ok (k : Z * Z) (w : World) : Prop :=
  ∃ c, presentChunks w !! k = Some c ∧ chunk_lights_ok c.

End light_engine.

(** The property of the state of a chunk method, of a level method and
    of the light pass that the lights of a chunk are in range. *)
Definition Ic (s : gmap string (list Z) * InfdevChunk) : Prop :=
  chunk_lights_ok (snd s).
Definition Iw (k0 : Z * Z) (w : World) : Prop := lights_ok k0 w.
Definition Il (k0 : Z * Z) (s : World * list (list (list Z))) : Prop :=
  lights_ok k0 (fst s).

(** A computation keeps the property [I] of the state, whether it ends
    with a value or with an exception. *)
Definition preserves {S A} (I : S → Prop) (m : M S A) : Prop :=
  ∀ s, I s → I (snd (m s)).

(** The state of a chunk method differs from the files [fs0] and the
    chunk [c0] in the tag of the chunk at most. *)
Definition tag_only (fs0 : gmap string (list Z)) (c0 : InfdevChunk)
    (s : gmap string (list Z) * InfdevChunk) : Prop :=
  fst s = fs0 ∧ set_root_tag None (snd s) = set_root_tag None c0.

(* ------------------------------------------------------------------ *)
(** ** Compressing and saving a chunk                                  *)
(* ------------------------------------------------------------------ *)

(** The writing half of [gzip] and [nbt]: [GzipFile(mode='wb')] and
    [root_tag.save]. *)
Class Encoder := {
  gzip_compress : list Z → list Z;
  nbt_save : RootTag → list Z
}.

(** The packed form of an unpacked array: every column packed on its
    own. *)
Definition packed (u : arr3) : arr3 := map_columns pack_pairs u.

(** The five arrays of the compound [raw] hold, cell after cell, what the
    arrays of the compound [lv] hold. *)
Definition same_cells (raw lv : gmap string TagValue) : Prop :=
  ∀ key, key ∈ [Blocks; HeightMap; SkyLight; BlockLight; Data] →
    ∃ a a', lv !! key = Some (TAG_Byte_Array a)
            ∧ raw !! key = Some (TAG_Byte_Array a')
            ∧ flatten a' = flatten a.

(** The compound [lv] with the three nibble arrays [sky], [bl] and [data]
    in their packed form, as [packChunkData] leaves it. *)
Definition packed_level (lv : gmap string TagValue) (sky bl data : arr3)
    : gmap string TagValue :=
  <[Data := TAG_Byte_Array (A3 (packed data))]>
    (<[BlockLight := TAG_Byte_Array (A3 (packed bl))]>
       (<[SkyLight := TAG_Byte_Array (A3 (packed sky))]> lv)).

Section chunk_files.
Context {codec : Codec} {materials : Materials} {encoder : Encoder}.

(** The codec reads the compound [raw] from what it has written for the
    tag [t]. *)
Definition reads_back (t : RootTag) (raw : gmap string TagValue) : Prop :=
  ∃ d, gunzip (gzip_compress (nbt_save t)) = Ok d
       ∧ nbt_load d = Ok (mkRoot (Some raw)).

(** [MCLevel.compress]: the tag is packed and written out when the
    compressed data is out of date or missing; in every case the tag is
    dropped from memory. *)
Definition compress : M ChunkSt unit :=
  let! c := get_self in
  match root_tag c with
  | None => ret tt
  | Some _ =>
      (if needsCompression c
          || (negb (bool_decide (is_Some (compressedTag c)))
              && bool_decide (is_Some (root_tag c)))
       then
         packChunkData ;;;
         let! c := get_self in
         match root_tag c with
         | None => raise AttributeError
         | Some t =>
             modify_self (set_compressedTag (Some (gzip_compress (nbt_save t)))) ;;;
             modify_self (set_needsCompression false)
         end
       else ret tt) ;;;
      modify_self (set_root_tag None)
  end.

(** [compressedSize] *)
Definition compressedSize : M ChunkSt Z :=
  compress ;;;
  let! c := get_self in
  match compressedTag c with
  | None => ret 0
  | Some blob => ret (Z.of_nat (length blob))
  end.

(** [ready] *)
Definition ready (c : InfdevChunk) : bool :=
  negb (negb (bool_decide (is_Some (compressedTag c)))).

(** [os.rename(src, dst)]: a file that is at [dst] is replaced. *)
Definition os_rename (src dst : string) : M ChunkSt unit :=
  λ s, match fst s !! src with
       | Some content => (Ok tt, (<[dst := content]> (delete src (fst s)), snd s))
       | None => (Raise OSError, s)
       end.

(** [chunkfh = file(name, 'wb'); chunkfh.write(data); chunkfh.close()]:
    the file is created or emptied when it is opened, and [write(None)]
    is a [TypeError]. *)
Definition write_file (name : string) (data : option (list Z)) : M ChunkSt unit :=
  λ s, match data with
       | Some d => (Ok tt, (<[name := d]> (fst s), snd s))
       | None => (Raise TypeError, (<[name := []]> (fst s), snd s))
       end.

(** [InfdevChunk.save]. [except Exception] and the bare [except] take
    every exception. *)
Definition save : M ChunkSt unit :=
  compress ;;;
  let! c := get_self in
  if dirty c then
    let old := String.append (filename c) ".old" in
    try_except (os_rename (filename c) old) (λ _, true) (ret tt) ;;;
    try_except (write_file (filename c) (compressedTag c))
      (λ e, bool_decide (e = IOError))
      (try_except (os_rename old (filename c)) (λ _, true) (ret tt)) ;;;
    try_except (os_remove old) (λ _, true) (ret tt) ;;;
    modify_self (set_dirty false)
  else ret tt.

End chunk_files.

(* ------------------------------------------------------------------ *)
(** ** MCInfdevOldLevel: blocks, data and chunks by position           *)
(* ------------------------------------------------------------------ *)

(** What [heightMap[z][x]] gives: a cell of a two-dimensional array, a
    row of a three-dimensional one. *)
Inductive item :=
| Scalar (v : Z)
| Row (r : list Z).

(** [a[i][j]], one index after the other. *)
Definition index_twice (a : ndarray) (i j : nat) : result item :=
  match a with
  | A1 _ => Raise IndexError
  | A2 l => match idx2 l i j with Ok v => Ok (Scalar v) | Raise e => Raise e end
  | A3 l =>
      match l !! i with
      | None => Raise IndexError
      | Some p => match p !! j with
                  | None => Raise IndexError
                  | Some r => Ok (Row r)
                  end
      end
  end.

Section level_accessors.
Context {codec : Codec} {materials : Materials} {encoder : Encoder}.

Definition blockDataForChunk (cx cz : Z) : M World ndarray :=
  let! c := getChunk cx cz in with_chunk c getData.

(** The cell of the array that [arrayForChunk] returns for the chunk of
    the point, or 0 when [y] is outside of the world. *)
Definition cell_at (arrayForChunk : Z → Z → M World ndarray) (x y z : Z) : M World Z :=
  if bool_decide (y < 0) || bool_decide (y >= Height) then ret 0
  else
    let zc := z ≫ 4 in
    let xc := x ≫ 4 in
    let xInChunk := Z.land x 15 in
    let zInChunk := Z.land z 15 in
    let! a := arrayForChunk xc zc in
    let! a := as3 a in
    lift_result (idx3 a (Z.to_nat xInChunk) (Z.to_nat zInChunk) (Z.to_nat y)).

Definition blockLightAt (x y z : Z) : M World Z := cell_at lightsForChunk x y z.
Definition blockDataAt (x y z : Z) : M World Z := cell_at blockDataForChunk x y z.
Definition blockAt (x y z : Z) : M World Z := cell_at blocksForChunk x y z.

(** [setBlockDataAt]: 0 is returned when [y] is outside of the world,
    and nothing ([None]) after the assignment. *)
Definition setBlockDataAt (x y z newdata : Z) : M World (option Z) :=
  if bool_decide (y < 0) || bool_decide (y >= Height) then ret (Some 0)
  else
    let zc := z ≫ 4 in
    let xc := x ≫ 4 in
    let xInChunk := Z.to_nat (Z.land x 15) in
    let zInChunk := Z.to_nat (Z.land z 15) in
    let! data := blockDataForChunk xc zc in
    let! data := as3 data in
    let! data := lift_result (set3 data xInChunk zInChunk (Z.to_nat y) newdata) in
    with_chunk (xc, zc) (set_tag_value Data (A3 data)) ;;;
    ret None.

Definition heightMapAt (x z : Z) : M World item :=
  let zc := z ≫ 4 in
  let xc := x ≫ 4 in
  let! heightMap := heightMapForChunk xc zc in
  lift_result (index_twice heightMap (Z.to_nat (Z.land z 15)) (Z.to_nat (Z.land x 15))).

Definition containsPoint (x y z : Z) : M World bool :=
  if bool_decide (y < 0) || bool_decide (y > 127) then ret false
  else containsChunk (x ≫ 4) (z ≫ 4).

(** [self._presentChunks.keys()] *)
Definition getPresentChunks : M World (list (Z * Z)) :=
  let! w := get_state in ret ((map_to_list (presentChunks w)).*1).

(** [getChunks]: the chunks, as keys of the store, of the positions that
    are present. *)
Definition getChunks (chunks : option (list (Z * Z))) : M World (list (Z * Z)) :=
  let! chunks :=
    match chunks with
    | None => getPresentChunks
    | Some l => ret l
    end in
  for_yield chunks (λ '(cx, cz),
    let! present := containsChunk cx cz in
    if present : bool then let! c := getChunk cx cz in ret [c] else ret []).

Definition chunkIsCompressed (cx cz : Z) : M World bool :=
  let! present := containsChunk cx cz in
  if negb present then raise ChunkNotPresent
  else with_chunk (cx, cz) (let! c := get_self in ret (isCompressed c)).

Definition markDirtyChunk (cx cz : Z) : M World unit :=
  let! present := containsChunk cx cz in
  if negb present then ret tt
  else with_chunk (cx, cz) (chunkChanged true).

Definition compressChunk (x z : Z) : M World unit :=
  let! present := containsChunk x z in
  if negb present then ret tt
  else with_chunk (x, z) compress.

(** [malformedChunk]: [del self._presentChunks[(cx, cz)]]; the file of
    the chunk is left where it is. *)
Definition malformedChunk (cx cz : Z) : M World unit :=
  del_chunk (cx, cz).

End level_accessors.

(* ------------------------------------------------------------------ *)
(** ** Sample data                                                     *)
(* ------------------------------------------------------------------ *)

(** A small world on which the statements of Part II are exercised: a
    material table in which only air (0) lets light through and only
    torches (50) give light, a codec that reads every non-empty file as
    an empty chunk, and chunks in the states of the life cycle. *)
Module Sample.

Definition materials : Materials :=
  {| lightAbsorption := λ b, if decide (b = 0) then 0 else 15;
     lightEmission := λ b, if decide (b = 50) then 14 else 0 |}.

Definition flat (n : nat) : ndarray := A1 (replicate n 0).

Definition raw_level : gmap string TagValue :=
  <[Blocks := TAG_Byte_Array (flat (16 * 16 * 128))]>
  (<[HeightMap := TAG_Byte_Array (flat (16 * 16))]>
  (<[SkyLight := TAG_Byte_Array (flat (16 * 16 * 64))]>
  (<[BlockLight := TAG_Byte_Array (flat (16 * 16 * 64))]>
  (<[Data := TAG_Byte_Array (flat (16 * 16 * 64))]> ∅)))).

Definition codec : Codec :=
  {| gunzip := λ d, Ok d;
     nbt_load := λ d, match d with
                      | [] => Raise IOError
                      | _ => Ok (mkRoot (Some raw_level))
                      end |}.

Definition level : gmap string TagValue :=
  <[Blocks := TAG_Byte_Array (A3 (zeros3 16 16 128))]>
  (<[HeightMap := TAG_Byte_Array (A2 (zeros2 16 16))]>
  (<[SkyLight := TAG_Byte_Array (A3 (zeros3 16 16 128))]>
  (<[BlockLight := TAG_Byte_Array (A3 (zeros3 16 16 128))]>
  (<[Data := TAG_Byte_Array (A3 (zeros3 16 16 128))]> ∅)))).

Definition packed : arr3 := replicate 16 (replicate 16 (replicate 64 171)).

Definition packed_level : gmap string TagValue :=
  <[SkyLight := TAG_Byte_Array (A3 packed)]>
  (<[BlockLight := TAG_Byte_Array (A3 packed)]>
  (<[Data := TAG_Byte_Array (A3 packed)]> ∅)).

Definition name : string := "0/0/c.0.0.dat".
Definition blob : list Z := [31; 139].

Definition unloaded_chunk : InfdevChunk :=
  mkChunk (0, 0) name None None false false false.
Definition compressed_chunk : InfdevChunk :=
  mkChunk (0, 0) name (Some blob) None false false false.
Definition malformed_chunk : InfdevChunk :=
  mkChunk (0, 0) name (Some []) None false false false.
Definition loaded_chunk : InfdevChunk := with_level level compressed_chunk.
Definition packed_chunk : InfdevChunk := with_level packed_level compressed_chunk.

Definition world : World := mkWorld {[ (0, 0) := loaded_chunk ]} ∅.
Definition malformed_world : World := mkWorld {[ (0, 0) := malformed_chunk ]} ∅.

Definition box : Box.BoundingBox :=
  Box.mkBox (Box.Vec3 (16 * 0) 0 (16 * 0)) (Box.Vec3 (16 * 1) 128 (16 * 1)).

End Sample.

(* ================================================================== *)
(** * Part II: properties                                              *)
(* ================================================================== *)

(* ------------------------------------------------------------------ *)
(** ** Bounding boxes                                                  *)
(* ------------------------------------------------------------------ *)

Section box_setters.
Import Box.

(** A setter of a maximum edge keeps every size component non-negative
    and does not move the minimum edge. *)
Lemma setMax_size_nonneg (b : BoundingBox) (v : Z) :
  size_nonneg b →
  size_nonneg (setMaxx b v) ∧ size_nonneg (setMaxy b v) ∧ size_nonneg (setMaxz b v).
Proof.
  unfold size_nonneg, setMaxx, setMaxy, setMaxz. cbn.
  intros (? & ? & ?).
  repeat split; try assumption; case_match; lia.
Qed.

Lemma setMax_keeps_min (b : BoundingBox) (v : Z) :
  origin (setMaxx b v) = origin b ∧ origin (setMaxy b v) = origin b
  ∧ origin (setMaxz b v) = origin b.
Proof. done. Qed.

(** A setter of a minimum edge does not move the maximum edge. *)
Lemma setMin_keeps_max (b : BoundingBox) (v : Z) :
  getMaxx (setMinx b v) = getMaxx b ∧ getMaxy (setMiny b v) = getMaxy b
  ∧ getMaxz (setMinz b v) = getMaxz b.
Proof. unfold getMaxx, getMaxy, getMaxz. cbn. lia. Qed.

(** The size left by a setter of a minimum edge is the distance from the
    new minimum to the old maximum, whatever its sign. *)
Lemma setMin_size (b : BoundingBox) (v : Z) :
  v0 (size (setMinx b v)) = getMaxx b - v
  ∧ v1 (size (setMiny b v)) = getMaxy b - v
  ∧ v2 (size (setMinz b v)) = getMaxz b - v.
Proof. unfold getMaxx, getMaxy, getMaxz. cbn. lia. Qed.

(** C6, at the input where the code departs from the claim: on the box of
    origin (0,0,0) and size (1,1,1), which has no negative size component,
    [setMinx 5], [setMiny 5] and [setMinz 5] each leave a size component of
    -4. The setters of the maximum edges clamp; those of the minimum edges
    do not. *)
Theorem setMin_negative_size :
  let b := mkBox (Vec3 0 0 0) (Vec3 1 1 1) in
  size_nonneg b
  ∧ size (setMinx b 5) = Vec3 (-4) 1 1
  ∧ size (setMiny b 5) = Vec3 1 (-4) 1
  ∧ size (setMinz b 5) = Vec3 1 1 (-4)
  ∧ ¬ size_nonneg (setMinx b 5)
  ∧ ¬ size_nonneg (setMiny b 5)
  ∧ ¬ size_nonneg (setMinz b 5).
Proof.
  cbn. unfold size_nonneg. cbn.
  repeat split; try done; intros (? & ? & ?); lia.
Qed.

End box_setters.

(* ------------------------------------------------------------------ *)
(** ** Directory hashing                                               *)
(* ------------------------------------------------------------------ *)

Section dirhash_labels.
Import Base36.

Lemma dirhash_mod (n : Z) : dirhash n = dirhash (n `mod` 64).
Proof. unfold dirhash. by rewrite Zmod_mod. Qed.

Lemma decbase36_dirhash_residues :
  Forall (λ r, decbase36 (dirhash r) = Ok r) (seqZ 0 64).
Proof. apply (bool_decide_unpack _). vm_compute. exact I. Qed.

Lemma dirhash_residue_shapes :
  Forall (λ r, dirhash r = digit r ∧ String.length (digit r) = 1%nat) (seqZ 0 36)
  ∧ Forall (λ r, dirhash r = String "1" (digit (r - 36))
                 ∧ String.length (digit (r - 36)) = 1%nat) (seqZ 36 28).
Proof. split; apply (bool_decide_unpack _); vm_compute; exact I. Qed.

Lemma dirhash_residues_distinct : NoDup (dirhash <$> seqZ 0 64).
Proof. apply (bool_decide_unpack _). vm_compute. exact I. Qed.

(** C8: the labels of the 64 residues are pairwise distinct, one base-36
    digit for the residues 0..35 and a digit after a "1" for the residues
    36..63, and for every integer [n] [decbase36 (dirhash n)] is
    [n mod 64]. *)
Theorem dirhash_decbase36 :
  NoDup (dirhash <$> seqZ 0 64)
  ∧ Forall (λ r, dirhash r = digit r ∧ String.length (digit r) = 1%nat) (seqZ 0 36)
  ∧ Forall (λ r, dirhash r = String "1" (digit (r - 36))
                 ∧ String.length (digit (r - 36)) = 1%nat) (seqZ 36 28)
  ∧ ∀ n : Z, decbase36 (dirhash n) = Ok (n `mod` 64).
Proof.
  split; [apply dirhash_residues_distinct|].
  split; [apply dirhash_residue_shapes|].
  split; [apply dirhash_residue_shapes|].
  intros n. rewrite dirhash_mod.
  pose proof decbase36_dirhash_residues as H.
  rewrite Forall_forall in H. apply H.
  apply elem_of_seqZ. pose proof (Z.mod_pos_bound n 64). lia.
Qed.

End dirhash_labels.

(* ------------------------------------------------------------------ *)
(** ** Arrays: shapes, flattening and cells                            *)
(* ------------------------------------------------------------------ *)

Section array_facts.

Lemma length_concat_uniform {A} (n : nat) (l : list (list A)) :
  Forall (λ c, length c = n) l → length (concat l) = (length l * n)%nat.
Proof.
  induction 1 as [|c l Hc _ IH]; [done|].
  cbn. rewrite length_app, IH, Hc. lia.
Qed.

Lemma chunks_concat {A} (k n : nat) (l : list (list A)) :
  length l = k → Forall (λ c, length c = n) l → chunks k n (concat l) = l.
Proof.
  intros <- Hl. induction Hl as [|c l Hc _ IH]; [done|].
  cbn. rewrite take_app_length', drop_app_length' by done. by rewrite IH.
Qed.

Lemma bind_concat {A B} (f : A → list B) (l : list (list A)) :
  concat l ≫= f = concat ((λ c, c ≫= f) <$> l).
Proof.
  induction l as [|c l IH]; [done|].
  cbn. by rewrite bind_app, IH.
Qed.

Lemma has_shape3_flat (n0 n1 n2 : nat) (a : arr3) :
  has_shape3 n0 n1 n2 a →
  length (concat a) = (n0 * n1)%nat
  ∧ Forall (λ c, length c = n2) (concat a)
  ∧ length (concat (concat a)) = (n0 * n1 * n2)%nat.
Proof.
  intros [Hlen Hall].
  assert (H1 : length (concat a) = (n0 * n1)%nat).
  { rewrite (length_concat_uniform n1), Hlen; [done|].
    eapply Forall_impl; [exact Hall|]. by intros p [? _]. }
  assert (H2 : Forall (λ c, length c = n2) (concat a)).
  { apply Forall_concat. eapply Forall_impl; [exact Hall|]. by intros p [_ ?]. }
  split; [done|]. split; [done|].
  by rewrite (length_concat_uniform n2), H1.
Qed.

(** Giving a flattened array its own shape gives the array back. *)
Lemma reshape3_flatten (n0 n1 n2 : nat) (a : arr3) :
  has_shape3 n0 n1 n2 a →
  chunks n0 n1 (chunks (n0 * n1) n2 (concat (concat a))) = a.
Proof.
  intros Hs. destruct (has_shape3_flat _ _ _ _ Hs) as (H1 & H2 & _).
  rewrite (chunks_concat (n0 * n1) n2) by done.
  destruct Hs as [Hlen Hall].
  apply chunks_concat; [done|].
  eapply Forall_impl; [exact Hall|]. by intros p [? _].
Qed.

Lemma has_shape3_fmap (f : list Z → list Z) (n0 n1 n2 m2 : nat) (a : arr3) :
  (∀ c, length c = n2 → length (f c) = m2) →
  has_shape3 n0 n1 n2 a → has_shape3 n0 n1 m2 (map_columns f a).
Proof.
  intros Hf [Hlen Hall]. unfold map_columns. split; [by rewrite length_fmap|].
  apply Forall_fmap. eapply Forall_impl; [exact Hall|].
  intros p [Hp Hc]. cbn. split; [by rewrite length_fmap|].
  apply Forall_fmap. eapply Forall_impl; [exact Hc|]. intros c. cbn. apply Hf.
Qed.

Lemma cell3_fmap (f : list Z → list Z) (a : arr3) (x z y : nat) :
  cell3 (map_columns f a) x z y
  = match a !! x with
    | Some p => match p !! z with Some c => f c !! y | None => None end
    | None => None
    end.
Proof.
  unfold map_columns, cell3, cell2. rewrite list_lookup_fmap.
  destruct (a !! x) as [p|]; [|done]. cbn.
  rewrite list_lookup_fmap. by destruct (p !! z).
Qed.

Lemma cell3_Some_shape (n0 n1 n2 : nat) (a : arr3) (x z y : nat) :
  has_shape3 n0 n1 n2 a → (x < n0)%nat → (z < n1)%nat → (y < n2)%nat →
  ∃ p c v, a !! x = Some p ∧ p !! z = Some c ∧ c !! y = Some v
           ∧ cell3 a x z y = Some v.
Proof.
  intros [Hlen Hall] Hx Hz Hy.
  destruct (lookup_lt_is_Some_2 a x) as [p Hp]; [lia|].
  rewrite Forall_lookup in Hall. destruct (Hall _ _ Hp) as [Hlp Hcs].
  destruct (lookup_lt_is_Some_2 p z) as [c Hc]; [lia|].
  rewrite Forall_lookup in Hcs. pose proof (Hcs _ _ Hc) as Hlc.
  destruct (lookup_lt_is_Some_2 c y) as [v Hv]; [lia|].
  exists p, c, v. unfold cell3, cell2. by rewrite Hp, Hc, Hv.
Qed.

End array_facts.

(* ------------------------------------------------------------------ *)
(** ** Packing and unpacking of the nibble arrays                      *)
(* ------------------------------------------------------------------ *)

Section nibbles.

Lemma pack_unpack_byte :
  Forall (λ b, Z.lor (u8 ((b ≫ 4) ≪ 4)) (Z.land b 15) = b) (seqZ 0 256).
Proof. apply (bool_decide_unpack _). vm_compute. exact I. Qed.

Lemma pack_pairs_unpack (l : list Z) :
  Forall is_byte l → pack_pairs (l ≫= unpack_byte) = l.
Proof.
  induction 1 as [|b l Hb _ IH]; [done|].
  cbn. rewrite IH. f_equal.
  pose proof pack_unpack_byte as H. rewrite Forall_forall in H.
  apply H, elem_of_seqZ. unfold is_byte in Hb. lia.
Qed.

Lemma length_unpack (c : list Z) : length (c ≫= unpack_byte) = (2 * length c)%nat.
Proof.
  induction c as [|b c IH]; [done|]. cbn. rewrite IH. lia.
Qed.

Lemma lookup_unpack (c : list Z) (k : nat) (b : Z) :
  c !! k = Some b →
  (c ≫= unpack_byte) !! (2 * k)%nat = Some (Z.land b 15)
  ∧ (c ≫= unpack_byte) !! (2 * k + 1)%nat = Some (b ≫ 4).
Proof.
  revert k. induction c as [|b' c IH]; intros k Hk; [done|].
  destruct k as [|k].
  - cbn in Hk. injection Hk as ->. done.
  - cbn in Hk. destruct (IH k Hk) as [H1 H2].
    replace (2 * S k)%nat with (S (S (2 * k))) by lia.
    replace (S (S (2 * k)) + 1)%nat with (S (S (2 * k + 1))) by lia.
    done.
Qed.

Lemma flatten_unpacked (x : arr3) :
  concat (concat (unpacked x)) = concat (concat x) ≫= unpack_byte.
Proof.
  rewrite bind_concat. f_equal. unfold unpacked, map_columns.
  induction x as [|p x IH]; [done|].
  cbn. rewrite fmap_app. by f_equal.
Qed.

Lemma unpacked_shape (x : arr3) :
  has_shape3 16 16 64 x → has_shape3 16 16 128 (unpacked x).
Proof.
  intros Hs. eapply has_shape3_fmap; [|exact Hs].
  intros c Hc. rewrite length_unpack. lia.
Qed.

Lemma unpack_array_shaped (x : arr3) :
  has_shape3 16 16 64 x → unpack_array (A3 x) = Ok (unpacked x).
Proof.
  intros Hs. unfold unpack_array, reshape3. cbn [flatten].
  pose proof (unpacked_shape x Hs) as Hu.
  rewrite <- flatten_unpacked.
  destruct (has_shape3_flat _ _ _ _ Hu) as (_ & _ & Hlen).
  rewrite decide_True by (rewrite Hlen; done).
  f_equal. by apply reshape3_flatten.
Qed.

Lemma pack_array_unpacked (x : arr3) :
  has_shape3 16 16 64 x → Forall3 is_byte x → pack_array (A3 (unpacked x)) = Ok x.
Proof.
  intros Hs Hb. unfold pack_array. cbn [flatten].
  pose proof (unpacked_shape x Hs) as Hu.
  destruct (has_shape3_flat _ _ _ _ Hu) as (_ & _ & Hlen).
  rewrite decide_True by (rewrite Hlen; done).
  rewrite flatten_unpacked, pack_pairs_unpack.
  - f_equal. by apply (reshape3_flatten 16 16 64).
  - apply Forall_concat, Forall_concat. exact Hb.
Qed.

(** The cells of the unpacked array: cell [2k] of a column is the low
    nibble of the packed byte [k], cell [2k+1] its high nibble. *)
Lemma unpacked_cells (x : arr3) (i j k : nat) (b : Z) :
  cell3 x i j k = Some b →
  cell3 (unpacked x) i j (2 * k) = Some (Z.land b 15)
  ∧ cell3 (unpacked x) i j (2 * k + 1) = Some (b ≫ 4).
Proof.
  unfold unpacked. rewrite !cell3_fmap. unfold cell3, cell2.
  destruct (x !! i) as [p|]; [|done].
  destruct (p !! j) as [c|]; [|done].
  apply lookup_unpack.
Qed.

End nibbles.

(* ------------------------------------------------------------------ *)
(** ** Running monadic code                                            *)
(* ------------------------------------------------------------------ *)

Section running.
Context {S : Type}.

Lemma bind_ok {A B} (m : M S A) (k : A → M S B) s a s' :
  m s = (Ok a, s') → bind m k s = k a s'.
Proof. unfold bind. by intros ->. Qed.

Lemma bind_raise {A B} (m : M S A) (k : A → M S B) s e s' :
  m s = (Raise e, s') → bind m k s = (Raise e, s').
Proof. unfold bind. by intros ->. Qed.

Lemma bind_inv {A B} (m : M S A) (k : A → M S B) s r s2 :
  bind m k s = (r, s2) →
  (∃ a s1, m s = (Ok a, s1) ∧ k a s1 = (r, s2))
  ∨ (∃ e, m s = (Raise e, s2) ∧ r = Raise e).
Proof.
  unfold bind. destruct (m s) as [[a|e] s1]; intros H.
  - left. by exists a, s1.
  - right. injection H as <- <-. by exists e.
Qed.

Lemma bind_ok_inv {A B} (m : M S A) (k : A → M S B) s b s2 :
  bind m k s = (Ok b, s2) → ∃ a s1, m s = (Ok a, s1) ∧ k a s1 = (Ok b, s2).
Proof.
  intros H. apply bind_inv in H as [H|(e & _ & ?)]; [done|discriminate].
Qed.

End running.

Section tags.

Lemma root_tag_with_level lv c : root_tag (with_level lv c) = Some (mkRoot (Some lv)).
Proof. done. Qed.

Lemma with_level_id lv c :
  root_tag c = Some (mkRoot (Some lv)) → with_level lv c = c.
Proof. destruct c. cbn. by intros ->. Qed.

Lemma level_compound_eq fs c lv :
  root_tag c = Some (mkRoot (Some lv)) → level_compound (fs, c) = (Ok lv, (fs, c)).
Proof. unfold level_compound, bind, get_self. cbn. by intros ->. Qed.

Lemma tag_value_eq fs c lv key a :
  root_tag c = Some (mkRoot (Some lv)) → lv !! key = Some (TAG_Byte_Array a) →
  tag_value key (fs, c) = (Ok a, (fs, c)).
Proof.
  intros Hc Hk. unfold tag_value.
  rewrite (bind_ok _ _ _ _ _ (level_compound_eq fs c lv Hc)). by rewrite Hk.
Qed.

Lemma set_tag_eq fs c lv key v :
  root_tag c = Some (mkRoot (Some lv)) →
  set_tag key v (fs, c) = (Ok tt, (fs, with_level (<[key := v]> lv) c)).
Proof.
  intros Hc. unfold set_tag.
  by rewrite (bind_ok _ _ _ _ _ (level_compound_eq fs c lv Hc)).
Qed.

Lemma set_tag_value_eq fs c lv key a0 a :
  root_tag c = Some (mkRoot (Some lv)) → lv !! key = Some (TAG_Byte_Array a0) →
  set_tag_value key a (fs, c)
  = (Ok tt, (fs, with_level (<[key := TAG_Byte_Array a]> lv) c)).
Proof.
  intros Hc Hk. unfold set_tag_value.
  rewrite (bind_ok _ _ _ _ _ (tag_value_eq fs c lv key a0 Hc Hk)).
  by apply set_tag_eq.
Qed.

Lemma with_level_twice lv lv' c : with_level lv (with_level lv' c) = with_level lv c.
Proof. done. Qed.

End tags.

Section nibble_methods.

Lemma shape_2_shaped n0 n1 n2 (a : arr3) :
  has_shape3 n0 n1 n2 a → (0 < n0)%nat → (0 < n1)%nat → shape_2 (A3 a) = Ok n2.
Proof.
  intros [Hlen Hall] H0 H1. unfold shape_2. cbn.
  destruct a as [|p a]; [cbn in Hlen; lia|].
  cbn. apply Forall_cons in Hall as [[Hp Hc] _].
  destruct p as [|c p]; [cbn in Hp; lia|].
  cbn. apply Forall_cons in Hc as [Hc _]. by rewrite Hc.
Qed.

(** One round of the loop of [unpackChunkData]. *)
Lemma unpack_key fs c lv key (x : arr3) :
  lv !! key = Some (TAG_Byte_Array (A3 x)) → has_shape3 16 16 64 x →
  (let! dataArray := tag_value key in
   let! n := lift_result (shape_2 dataArray) in
   assert (bool_decide (n = 64%nat)) ;;;
   let! unpackedData := lift_result (unpack_array dataArray) in
   set_tag_value key (A3 unpackedData)) (fs, with_level lv c)
  = (Ok tt, (fs, with_level (<[key := TAG_Byte_Array (A3 (unpacked x))]> lv) c)).
Proof.
  intros Hk Hs.
  rewrite (bind_ok _ _ _ _ _ (tag_value_eq fs (with_level lv c) lv key _ (root_tag_with_level lv c) Hk)).
  rewrite (shape_2_shaped 16 16 64) by (done || lia).
  unfold lift_result at 1. unfold bind at 1. cbn [assert bool_decide].
  rewrite bool_decide_eq_true_2 by done. unfold assert, ret. unfold bind at 1.
  rewrite unpack_array_shaped by done.
  unfold lift_result, bind at 1.
  by rewrite (set_tag_value_eq fs (with_level lv c) lv key _ _ (root_tag_with_level lv c) Hk).
Qed.

(** One round of the loop of [packChunkData]. *)
Lemma pack_key fs c lv key (x : arr3) :
  lv !! key = Some (TAG_Byte_Array (A3 (unpacked x))) →
  has_shape3 16 16 64 x → Forall3 is_byte x →
  (let! dataArray := tag_value key in
   let! n := lift_result (shape_2 dataArray) in
   assert (bool_decide (n = 128%nat)) ;;;
   let! packed := lift_result (pack_array dataArray) in
   set_tag_value key (A3 packed)) (fs, with_level lv c)
  = (Ok tt, (fs, with_level (<[key := TAG_Byte_Array (A3 x)]> lv) c)).
Proof.
  intros Hk Hs Hb.
  rewrite (bind_ok _ _ _ _ _ (tag_value_eq fs (with_level lv c) lv key _ (root_tag_with_level lv c) Hk)).
  rewrite (shape_2_shaped 16 16 128) by (by apply unpacked_shape || lia).
  unfold lift_result at 1. unfold bind at 1.
  rewrite bool_decide_eq_true_2 by done. unfold assert, ret. unfold bind at 1.
  rewrite pack_array_unpacked by done.
  unfold lift_result, bind at 1.
  by rewrite (set_tag_value_eq fs (with_level lv c) lv key _ _ (root_tag_with_level lv c) Hk).
Qed.

Lemma nibbles_of_unpacked (x : arr3) :
  has_shape3 16 16 64 x → nibbles_of x (unpacked x).
Proof.
  intros Hs. split; [by apply unpacked_shape|].
  intros i j k Hi Hj Hk.
  destruct (cell3_Some_shape _ _ _ _ i j k Hs Hi Hj Hk) as (p & c & v & _ & _ & _ & Hv).
  unfold get3. rewrite Hv. cbn. by apply unpacked_cells.
Qed.

(** C2: on a chunk tag whose three nibble arrays are 16x16x64 arrays of
    bytes, [unpackChunkData] leaves 16x16x128 arrays in which cell [2k] of
    a column is the low nibble and cell [2k+1] the high nibble of the
    packed byte [k], and [packChunkData] applied to the result gives the
    chunk with the packed arrays back. *)
Theorem pack_unpack_roundtrip fs (c : InfdevChunk) (lv : gmap string TagValue)
    (xs xb xd : arr3) :
  root_tag c = Some (mkRoot (Some lv)) →
  lv !! SkyLight = Some (TAG_Byte_Array (A3 xs)) →
  lv !! BlockLight = Some (TAG_Byte_Array (A3 xb)) →
  lv !! Data = Some (TAG_Byte_Array (A3 xd)) →
  has_shape3 16 16 64 xs → has_shape3 16 16 64 xb → has_shape3 16 16 64 xd →
  Forall3 is_byte xs → Forall3 is_byte xb → Forall3 is_byte xd →
  ∃ (c' : InfdevChunk) (lv' : gmap string TagValue) (us ub ud : arr3),
    unpackChunkData (fs, c) = (Ok tt, (fs, c'))
    ∧ root_tag c' = Some (mkRoot (Some lv'))
    ∧ lv' !! SkyLight = Some (TAG_Byte_Array (A3 us))
    ∧ lv' !! BlockLight = Some (TAG_Byte_Array (A3 ub))
    ∧ lv' !! Data = Some (TAG_Byte_Array (A3 ud))
    ∧ nibbles_of xs us ∧ nibbles_of xb ub ∧ nibbles_of xd ud
    ∧ packChunkData (fs, c') = (Ok tt, (fs, c)).
Proof.
  intros Hc Hs Hb Hd Ss Sb Sd Bs Bb Bd.
  set (lv1 := <[SkyLight := TAG_Byte_Array (A3 (unpacked xs))]> lv).
  set (lv2 := <[BlockLight := TAG_Byte_Array (A3 (unpacked xb))]> lv1).
  set (lv3 := <[Data := TAG_Byte_Array (A3 (unpacked xd))]> lv2).
  set (lv4 := <[SkyLight := TAG_Byte_Array (A3 xs)]> lv3).
  set (lv5 := <[BlockLight := TAG_Byte_Array (A3 xb)]> lv4).
  assert (Hne1 : SkyLight ≠ BlockLight) by done.
  assert (Hne2 : SkyLight ≠ Data) by done.
  assert (Hne3 : BlockLight ≠ Data) by done.
  assert (L1 : lv1 !! BlockLight = Some (TAG_Byte_Array (A3 xb)))
    by (unfold lv1; by rewrite lookup_insert_ne).
  assert (L2 : lv2 !! Data = Some (TAG_Byte_Array (A3 xd)))
    by (unfold lv2, lv1; by rewrite !lookup_insert_ne).
  assert (L3s : lv3 !! SkyLight = Some (TAG_Byte_Array (A3 (unpacked xs)))).
  { unfold lv3, lv2, lv1.
    rewrite lookup_insert_ne, lookup_insert_ne by done. apply lookup_insert_eq. }
  assert (L3b : lv3 !! BlockLight = Some (TAG_Byte_Array (A3 (unpacked xb)))).
  { unfold lv3, lv2. rewrite lookup_insert_ne by done. apply lookup_insert_eq. }
  assert (L3d : lv3 !! Data = Some (TAG_Byte_Array (A3 (unpacked xd))))
    by apply lookup_insert_eq.
  assert (L4 : lv4 !! BlockLight = Some (TAG_Byte_Array (A3 (unpacked xb))))
    by (unfold lv4; by rewrite lookup_insert_ne).
  assert (L5 : lv5 !! Data = Some (TAG_Byte_Array (A3 (unpacked xd))))
    by (unfold lv5, lv4; by rewrite !lookup_insert_ne).
  exists (with_level lv3 c), lv3, (unpacked xs), (unpacked xb), (unpacked xd).
  split.
  { rewrite <- (with_level_id lv c Hc) at 1.
    unfold unpackChunkData. cbn [for_each].
    unfold bind at 1. rewrite (unpack_key fs c lv SkyLight xs) by done.
    fold lv1. unfold bind at 1.
    rewrite (unpack_key fs c lv1 BlockLight xb) by done.
    fold lv2. unfold bind at 1.
    by rewrite (unpack_key fs c lv2 Data xd) by done. }
  do 4 (split; [done|]).
  do 3 (split; [by apply nibbles_of_unpacked|]).
  unfold packChunkData. unfold bind at 1.
  cbn [get_self snd root_tag with_level set_root_tag for_each].
  change (mkChunk (chunkPosition c) (filename c) (compressedTag c)
            (Some (mkRoot (Some lv3))) (dirty c) (needsCompression c)
            (needsLighting c)) with (with_level lv3 c).
  unfold bind at 1. rewrite (pack_key fs c lv3 SkyLight xs) by done.
  fold lv4. unfold bind at 1.
  rewrite (pack_key fs c lv4 BlockLight xb) by done.
  fold lv5. unfold bind at 1.
  rewrite (pack_key fs c lv5 Data xd) by done.
  unfold ret. f_equal. f_equal.
  rewrite <- (with_level_id lv c Hc) at 2. f_equal.
  apply map_eq. intros key. unfold lv5, lv4, lv3, lv2, lv1.
  destruct (decide (key = Data)) as [->|];
    [by rewrite lookup_insert_eq|rewrite (lookup_insert_ne _ Data) by done].
  destruct (decide (key = BlockLight)) as [->|];
    [by rewrite lookup_insert_eq|rewrite (lookup_insert_ne _ BlockLight) by done].
  destruct (decide (key = SkyLight)) as [->|];
    [by rewrite lookup_insert_eq|rewrite (lookup_insert_ne _ SkyLight) by done].
  by rewrite !lookup_insert_ne.
Qed.

End nibble_methods.

(* ------------------------------------------------------------------ *)
(** ** The chunk store: getChunk and deleteChunk                       *)
(* ------------------------------------------------------------------ *)

Section store.
Context {codec : Codec} {materials : Materials}.

Lemma world_eta w : mkWorld (presentChunks w) (files w) = w.
Proof. by destruct w. Qed.

Lemma with_chunk_eq {A} (m : M ChunkSt A) w k c r fs c' :
  presentChunks w !! k = Some c → m (files w, c) = (r, (fs, c')) →
  with_chunk k m w = (r, mkWorld (<[k := c']> (presentChunks w)) fs).
Proof. unfold with_chunk. by intros -> ->. Qed.

(** A method that leaves the chunk and the files as they are leaves the
    world as it is. *)
Lemma with_chunk_same {A} (m : M ChunkSt A) w k c r :
  presentChunks w !! k = Some c → m (files w, c) = (r, (files w, c)) →
  with_chunk k m w = (r, w).
Proof.
  intros Hk Hm. rewrite (with_chunk_eq m w k c r (files w) c Hk Hm).
  by rewrite insert_id, world_eta.
Qed.

Lemma containsChunk_eq w cx cz :
  containsChunk cx cz w = (Ok (bool_decide (is_Some (presentChunks w !! (cx, cz)))), w).
Proof. done. Qed.

Lemma getChunk_absent w cx cz :
  presentChunks w !! (cx, cz) = None →
  getChunk cx cz w = (Raise ChunkNotPresent, w).
Proof.
  intros Hk. unfold getChunk.
  rewrite (bind_ok _ _ _ _ _ (containsChunk_eq w cx cz)).
  rewrite Hk, bool_decide_eq_false_2; [done|]. by intros [? ?].
Qed.

(** [getChunk] on a chunk that is present: only the [load] can fail, and
    an exception of [load] is the only way out other than the chunk. *)
Lemma getChunk_present w cx cz c r fs c' :
  presentChunks w !! (cx, cz) = Some c → load (files w, c) = (r, (fs, c')) →
  getChunk cx cz w
  = (match r with Ok _ => Ok (cx, cz) | Raise e => Raise e end,
     mkWorld (<[(cx, cz) := c']> (presentChunks w)) fs).
Proof.
  intros Hk Hl. unfold getChunk.
  rewrite (bind_ok _ _ _ _ _ (containsChunk_eq w cx cz)).
  rewrite Hk, bool_decide_eq_true_2 by eauto. cbn [negb].
  unfold bind at 1. rewrite (with_chunk_eq load w _ c r fs c' Hk Hl).
  destruct r as [[]|e]; [|done].
  rewrite (bind_ok _ _ _ _ _ (containsChunk_eq _ cx cz)). cbn [presentChunks].
  rewrite lookup_insert_eq, bool_decide_eq_true_2 by eauto. done.
Qed.

(** [decompress] when the parser refuses the data with one of the two
    exceptions that are caught: nothing is changed and nothing is
    raised. *)
Lemma decompress_unparsable fs c blob data e :
  root_tag c = None → compressedTag c = Some blob →
  (gunzip blob = Ok data ∨ gunzip blob = Raise IOError ∧ data = blob) →
  nbt_load data = Raise e → e = IOError ∨ e = TypeError →
  decompress (fs, c) = (Ok tt, (fs, c)).
Proof.
  intros Hr Hb Hz Hp He. unfold decompress, bind at 1. cbn [get_self snd].
  rewrite Hr, Hb.
  assert (Hd : try_except (lift_result (gunzip blob))
                 (λ e, bool_decide (e = IOError)) (ret blob) (fs, c)
               = (Ok data, (fs, c))).
  { unfold try_except, lift_result. destruct Hz as [->|[-> ->]]; done. }
  rewrite (bind_ok _ _ _ _ _ Hd).
  unfold bind at 1, try_except, lift_result, bind. rewrite Hp.
  rewrite bool_decide_eq_true_2 by done. done.
Qed.

Lemma load_unparsable fs c blob data e :
  root_tag c = None → compressedTag c = Some blob →
  (gunzip blob = Ok data ∨ gunzip blob = Raise IOError ∧ data = blob) →
  nbt_load data = Raise e → e = IOError ∨ e = TypeError →
  load (fs, c) = (Ok tt, (fs, c)).
Proof.
  intros Hr Hb Hz Hp He. unfold load, bind at 1. cbn [get_self snd].
  rewrite Hb. unfold bind at 1, ret. unfold bind at 1. cbn [get_self snd].
  rewrite Hr. by eapply decompress_unparsable.
Qed.

(** C1, what the code does where the claim says [ChunkMalformed]: when
    the cached data of a present chunk is refused by the parser,
    [getChunk] raises nothing, returns the chunk, and leaves the world,
    and with it the key of the chunk, as it was. *)
Theorem getChunk_malformed_stays w cx cz c blob data e :
  presentChunks w !! (cx, cz) = Some c →
  root_tag c = None → compressedTag c = Some blob →
  (gunzip blob = Ok data ∨ gunzip blob = Raise IOError ∧ data = blob) →
  nbt_load data = Raise e → e = IOError ∨ e = TypeError →
  getChunk cx cz w = (Ok (cx, cz), w)
  ∧ presentChunks w !! (cx, cz) = Some c.
Proof.
  intros Hk Hr Hb Hz Hp He. split; [|done].
  rewrite (getChunk_present w cx cz c (Ok tt) (files w) c Hk)
    by (by eapply load_unparsable).
  by rewrite insert_id, world_eta.
Qed.

(** *** deleteChunk *)





End store.

(* ------------------------------------------------------------------ *)
(** ** Point writes of sky light                                       *)
(* ------------------------------------------------------------------ *)

Section skylight.
Context {codec : Codec} {materials : Materials}.

Lemma tag_value_inv key s a s' :
  tag_value key s = (Ok a, s') →
  s' = s ∧ ∃ lv, root_tag (snd s) = Some (mkRoot (Some lv))
                 ∧ lv !! key = Some (TAG_Byte_Array a).
Proof.
  destruct s as [fs c]. unfold tag_value, level_compound, bind, get_self. cbn.
  destruct (root_tag c) as [[[lv|]]|]; cbn; try done.
  destruct (lv !! key) as [[b|]|] eqn:Hk; cbn; try done.
  intros [= <- <-]. eauto.
Qed.

Lemma with_chunk_inv {A} (m : M ChunkSt A) w k r w' :
  with_chunk k m w = (r, w') →
  (∃ c fs c', presentChunks w !! k = Some c ∧ m (files w, c) = (r, (fs, c'))
              ∧ w' = mkWorld (<[k := c']> (presentChunks w)) fs)
  ∨ (presentChunks w !! k = None ∧ r = Raise KeyError ∧ w' = w).
Proof.
  unfold with_chunk. destruct (presentChunks w !! k) as [c|].
  - destruct (m (files w, c)) as [r' [fs c']] eqn:Hm. intros [= <- <-].
    left. by exists c, fs, c'.
  - intros [= <- <-]. by right.
Qed.

Lemma getChunk_ok_inv w cx cz k w' :
  getChunk cx cz w = (Ok k, w') → k = (cx, cz).
Proof.
  destruct (presentChunks w !! (cx, cz)) as [c|] eqn:Hk.
  - destruct (load (files w, c)) as [r [fs c']] eqn:Hl.
    rewrite (getChunk_present w cx cz c r fs c' Hk Hl).
    destruct r; [by intros [= <- _]|done].
  - by rewrite (getChunk_absent w cx cz Hk).
Qed.

(** After a chunk property has been read through the store, the chunk
    holds the array that was returned. *)
Lemma chunk_property_inv (key : string) w cx cz a w1 :
  (let! c := getChunk cx cz in with_chunk c (decompress ;;; tag_value key)) w
    = (Ok a, w1) →
  ∃ c lv, presentChunks w1 !! (cx, cz) = Some c
          ∧ root_tag c = Some (mkRoot (Some lv))
          ∧ lv !! key = Some (TAG_Byte_Array a).
Proof.
  intros H. apply bind_ok_inv in H as (k & w0 & Hg & Hw).
  apply getChunk_ok_inv in Hg as ->.
  apply with_chunk_inv in Hw as [(c0 & fs & c1 & Hk & Hm & ->)|(_ & ? & _)]; [|done].
  apply bind_ok_inv in Hm as ([] & s1 & _ & Ht).
  apply tag_value_inv in Ht as [<- (lv & Hr & Hl)].
  exists c1, lv. cbn. by rewrite lookup_insert_eq.
Qed.

Lemma cell3_set (a : arr3) (x z y : nat) (v v0 : Z) :
  cell3 a x z y = Some v0 →
  cell3 (alter (alter (<[y := v]>) z) x a) x z y = Some v
  ∧ ∀ i j k, (i, j, k) ≠ (x, z, y) →
      cell3 (alter (alter (<[y := v]>) z) x a) i j k = cell3 a i j k.
Proof.
  unfold cell3, cell2. intros Hc.
  destruct (a !! x) as [p|] eqn:Hp; [|done].
  destruct (p !! z) as [c|] eqn:Hz; [|done].
  split.
  - rewrite list_lookup_alter_eq, Hp. cbn.
    rewrite list_lookup_alter_eq, Hz. cbn.
    apply list_lookup_insert_eq. by eapply lookup_lt_Some.
  - intros i j k Hne.
    destruct (decide (i = x)) as [->|Hi];
      [|by rewrite list_lookup_alter_ne].
    rewrite list_lookup_alter_eq, Hp. cbn.
    destruct (decide (j = z)) as [->|Hj];
      [|by rewrite list_lookup_alter_ne].
    rewrite list_lookup_alter_eq, Hz. cbn.
    apply list_lookup_insert_ne. congruence.
Qed.

Lemma land_15_bound (x : Z) : (Z.to_nat (Z.land x 15) < 16)%nat.
Proof.
  change 15 with (Z.ones 4). rewrite Z.land_ones by lia.
  pose proof (Z.mod_pos_bound x (2 ^ 4)). lia.
Qed.

(** C10: outside of [0, Height) the method writes nothing. Within, on a
    chunk whose sky light is a 16x16x128 array, the addressed cell becomes
    the maximum of its old value and of [v] (it is written exactly when
    the old value is smaller than [v], and never lowered), the value
    returned tells whether it was written, and no other cell of the sky
    light changes. *)
Theorem setSkylightAt_monotone w x y z v :
  (¬ 0 ≤ y < Height → setSkylightAt x y z v w = (Ok (RInt 0), w))
  ∧ (∀ sky w1,
       0 ≤ y < Height → 0 ≤ v < 256 →
       skyLightForChunk (x ≫ 4) (z ≫ 4) w = (Ok (A3 sky), w1) →
       has_shape3 16 16 128 sky →
       let xi := Z.to_nat (Z.land x 15) in
       let zi := Z.to_nat (Z.land z 15) in
       let yi := Z.to_nat y in
       ∃ old w' sky',
         cell3 sky xi zi yi = Some old
         ∧ stored_array w1 (x ≫ 4, z ≫ 4) SkyLight = Some (A3 sky)
         ∧ setSkylightAt x y z v w = (Ok (RBool (bool_decide (old < v))), w')
         ∧ stored_array w' (x ≫ 4, z ≫ 4) SkyLight = Some (A3 sky')
         ∧ cell3 sky' xi zi yi = Some (Z.max old v)
         ∧ (∀ i j k, (i, j, k) ≠ (xi, zi, yi) → cell3 sky' i j k = cell3 sky i j k)
         ∧ (old < v ∨ w' = w1)).
Proof.
  split.
  - intros Hy. unfold setSkylightAt, Height in *.
    destruct (decide (y < 0)) as [?|?];
      [by rewrite bool_decide_eq_true_2|rewrite bool_decide_eq_false_2 by done].
    rewrite bool_decide_eq_true_2 by lia. done.
  - intros sky w1 Hy Hv Hsky Hshape xi zi yi.
    unfold Height in Hy.
    destruct (cell3_Some_shape 16 16 128 sky xi zi yi Hshape)
      as (p & c & old & _ & _ & _ & Hold);
      [apply land_15_bound|apply land_15_bound|unfold yi; lia|].
    pose proof Hsky as Hinv. apply chunk_property_inv in Hinv as (c1 & lv & Hk & Hr & Hl).
    assert (Hst : stored_array w1 (x ≫ 4, z ≫ 4) SkyLight = Some (A3 sky))
      by (unfold stored_array; by rewrite Hk, Hr, Hl).
    assert (Hrun :
      setSkylightAt x y z v w =
      ((if bool_decide (old < v)
        then let! skyLight := lift_result (set3 sky xi zi yi v) in
             with_chunk (x ≫ 4, z ≫ 4) (set_tag_value SkyLight (A3 skyLight))
        else ret tt) ;;; ret (RBool (bool_decide (old < v)))) w1).
    { unfold setSkylightAt, Height.
      rewrite !bool_decide_eq_false_2 by lia. cbn [orb].
      rewrite (bind_ok _ _ _ _ _ Hsky). cbn [as3].
      unfold bind at 1, ret at 1. fold xi zi yi.
      unfold idx3. rewrite Hold. unfold lift_result at 1, bind at 1. done. }
    rewrite Hrun. clear Hrun.
    destruct (decide (old < v)) as [Hlt|Hge].
    + rewrite bool_decide_eq_true_2 by done.
      destruct (cell3_set sky xi zi yi (u8 v) old Hold) as [Hnew Hothers].
      exists old, (mkWorld (<[(x ≫ 4, z ≫ 4) :=
                       with_level (<[SkyLight := TAG_Byte_Array
                         (A3 (alter (alter (<[yi := u8 v]>) zi) xi sky))]> lv) c1]>
                     (presentChunks w1)) (files w1)),
        (alter (alter (<[yi := u8 v]>) zi) xi sky).
      split; [done|]. split; [done|]. split.
      { unfold set3, idx3. rewrite Hold. unfold lift_result at 1.
        unfold bind at 2.
        unfold bind at 1.
        rewrite (with_chunk_eq _ w1 _ c1 _ _ _ Hk
                   (set_tag_value_eq (files w1) c1 lv SkyLight _ _ Hr Hl)).
        by rewrite bool_decide_eq_true_2. }
      split.
      { unfold stored_array. cbn [presentChunks].
        rewrite lookup_insert_eq. cbn [root_tag with_level set_root_tag].
        by rewrite lookup_insert_eq. }
      split.
      { rewrite Hnew. f_equal. unfold u8. rewrite Z.mod_small by lia. lia. }
      split; [exact Hothers|by left].
    + rewrite bool_decide_eq_false_2 by done.
      exists old, w1, sky.
      split; [done|]. split; [done|].
      split; [by rewrite bool_decide_eq_false_2|]. split; [done|].
      split; [rewrite Hold; f_equal; lia|].
      split; [done|by right].
Qed.

End skylight.

(* ------------------------------------------------------------------ *)
(** ** The height map                                                  *)
(* ------------------------------------------------------------------ *)

Section height_map.
Context {codec : Codec} {materials : Materials}.

Lemma filter_all {A} (P : A → Prop) `{∀ x, Decision (P x)} (l : list A) :
  Forall P l → filter P l = l.
Proof.
  induction 1 as [|x l Hx _ IH]; [done|].
  rewrite filter_cons_True by done. by rewrite IH.
Qed.

Lemma filter_none {A} (P : A → Prop) `{∀ x, Decision (P x)} (l : list A) :
  Forall (λ x, ¬ P x) l → filter P l = [].
Proof.
  induction 1 as [|x l Hx _ IH]; [done|].
  by rewrite filter_cons_False.
Qed.

Lemma elem_of_concat {A} (x : A) (ls : list (list A)) :
  x ∈ concat ls ↔ ∃ l, x ∈ l ∧ l ∈ ls.
Proof.
  induction ls as [|l ls IH]; cbn.
  - split; [by intros ?%elem_of_nil|]. by intros (l & _ & ?%elem_of_nil).
  - rewrite elem_of_app, IH. split.
    + intros [Hx|(l' & Hx & Hl')].
      * exists l. split; [done|]. apply list_elem_of_here.
      * exists l'. split; [done|]. by apply list_elem_of_further.
    + intros (l' & Hx & Hl'). apply elem_of_cons in Hl' as [->|Hl']; [by left|].
      right. by exists l'.
Qed.

(** In a concatenation of indexed pieces, a filter that only accepts
    elements of the piece [i0] sees that piece alone. *)
Lemma filter_concat_imap {A B} (P : B → Prop) `{∀ x, Decision (P x)}
    (f : nat → A → list B) (l : list A) (i0 : nat) :
  (∀ i a e, l !! i = Some a → e ∈ f i a → P e → i = i0) →
  filter P (concat (imap f l))
  = match l !! i0 with Some a => filter P (f i0 a) | None => [] end.
Proof.
  revert f i0. induction l as [|a l IH]; intros f i0 Hf; [done|].
  rewrite imap_cons. cbn [concat]. rewrite filter_app.
  destruct i0 as [|j].
  - cbn. rewrite (filter_none P (concat _)); [by rewrite app_nil_r|].
    apply Forall_forall. intros e He HP.
    apply elem_of_concat in He as (piece & He & Hpiece).
    apply list_elem_of_lookup in Hpiece as [i Hi].
    rewrite list_lookup_imap in Hi.
    destruct (l !! i) as [a'|] eqn:Hl; [|done]. cbn in Hi. injection Hi as <-.
    assert (S i = 0)%nat; [|done].
    by eapply (Hf (S i) a' e).
  - cbn. rewrite (filter_none P (f 0%nat a)).
    + cbn. apply (IH (f ∘ S) j). intros i a' e Hl He HP.
      assert (S i = S j) by (by eapply (Hf (S i) a' e)). lia.
    + apply Forall_forall. intros e He HP.
      assert (0 = S j)%nat; [|done].
      by eapply (Hf 0%nat a e).
Qed.

Lemma nonzero1_snoc (c : list Z) (b : Z) :
  nonzero1 (c ++ [b])
  = nonzero1 c ++ (if decide (lightAbsorption b = 0) then [] else [length c]).
Proof.
  unfold nonzero1. rewrite imap_app, concat_app. cbn.
  rewrite Nat.add_0_r. by rewrite app_nil_r.
Qed.

(** The last index given by [nonzero] on a column is the highest cell
    that absorbs light. *)
Lemma last_nonzero1 (c : list Z) :
  match last (nonzero1 c) with
  | Some y => top_absorbing c y
  | None => none_absorbing c
  end.
Proof.
  induction c as [|b c IH] using rev_ind; [by intros y b|].
  rewrite nonzero1_snoc. destruct (decide (lightAbsorption b = 0)) as [Hb|Hb].
  - rewrite app_nil_r. destruct (last (nonzero1 c)) as [y|].
    + destruct IH as [(b0 & Hy & Hb0) Hup]. split.
      * exists b0. split; [|done]. by apply lookup_app_l_Some.
      * intros y' b' Hlt Hy'.
        apply lookup_app_Some in Hy' as [Hy'|[_ Hy']]; [by eapply Hup|].
        apply list_lookup_singleton_Some in Hy' as [_ <-]. done.
    + intros y b' Hy.
      apply lookup_app_Some in Hy as [Hy|[_ Hy]]; [by eapply IH|].
      apply list_lookup_singleton_Some in Hy as [_ <-]. done.
  - rewrite last_snoc. split.
    + exists b. split; [|done]. by rewrite list_lookup_middle.
    + intros y' b' Hlt Hy'. apply lookup_lt_Some in Hy'.
      rewrite length_app in Hy'. cbn in Hy'. lia.
Qed.

Lemma nonzero1_bound (c : list Z) (y : nat) :
  y ∈ nonzero1 c → (y < length c)%nat.
Proof.
  induction c as [|b c IH] using rev_ind; [by intros ?%elem_of_nil|].
  rewrite nonzero1_snoc, length_app. cbn. intros [Hy|Hy]%elem_of_app.
  - specialize (IH Hy). lia.
  - destruct (decide (lightAbsorption b = 0)); [by apply elem_of_nil in Hy|].
    apply list_elem_of_singleton in Hy as ->. lia.
Qed.

(** What [nonzero] gives for one column of the array. *)
Lemma nonzero3_column (blocks : arr3) (x z : nat) :
  filter (λ e, e.1.1 = x ∧ e.1.2 = z) (nonzero3 blocks)
  = (λ y, (x, z, y)) <$> nonzero1 (column blocks x z).
Proof.
  unfold nonzero3, column.
  rewrite (filter_concat_imap _ _ _ x).
  2:{ intros i p e _ He [Hx _].
      apply elem_of_concat in He as (piece & He & Hpiece).
      apply list_elem_of_lookup in Hpiece as [j Hj].
      rewrite list_lookup_imap in Hj.
      destruct (p !! j); [|done]. cbn in Hj. injection Hj as <-.
      apply list_elem_of_fmap in He as (y & -> & _). done. }
  destruct (blocks !! x) as [p|]; [|done].
  rewrite (filter_concat_imap _ _ _ z).
  2:{ intros j c e _ He [_ Hz].
      apply list_elem_of_fmap in He as (y & -> & _). done. }
  destruct (p !! z) as [c|]; [|done]. cbn.
  apply filter_all, Forall_forall. intros e He.
  apply list_elem_of_fmap in He as (y & -> & _). done.
Qed.

Lemma nonzero3_bounds (blocks : arr3) (x z y : nat) :
  (x, z, y) ∈ nonzero3 blocks →
  ∃ p c, blocks !! x = Some p ∧ p !! z = Some c ∧ (y < length c)%nat.
Proof.
  unfold nonzero3. intros He.
  apply elem_of_concat in He as (piece & He & Hpiece).
  apply list_elem_of_lookup in Hpiece as [i Hi].
  rewrite list_lookup_imap in Hi.
  destruct (blocks !! i) as [p|] eqn:Hp; [|done]. cbn in Hi. injection Hi as <-.
  apply elem_of_concat in He as (piece & He & Hpiece).
  apply list_elem_of_lookup in Hpiece as [j Hj].
  rewrite list_lookup_imap in Hj.
  destruct (p !! j) as [c|] eqn:Hc; [|done]. cbn in Hj. injection Hj as <-.
  apply list_elem_of_fmap in He as (y' & [= -> -> ->] & Hy).
  exists p, c. split; [done|]. split; [done|]. by apply nonzero1_bound.
Qed.

Lemma cell2_Some_shape (n0 n1 : nat) (a : arr2) (z x : nat) :
  has_shape2 n0 n1 a → (z < n0)%nat → (x < n1)%nat →
  ∃ v, cell2 a z x = Some v.
Proof.
  intros [Hlen Hall] Hz Hx. unfold cell2.
  destruct (lookup_lt_is_Some_2 a z) as [r Hr]; [lia|]. rewrite Hr.
  rewrite Forall_lookup in Hall. specialize (Hall _ _ Hr).
  apply lookup_lt_is_Some_2. lia.
Qed.

Lemma cell2_upd2 (g : nat → nat → Z → Z) (a : arr2) (z x : nat) :
  cell2 (upd2 g a) z x = g z x <$> cell2 a z x.
Proof.
  unfold cell2, upd2. rewrite list_lookup_imap.
  destruct (a !! z) as [r|]; [|done]. cbn. by rewrite list_lookup_imap.
Qed.

Lemma has_shape2_upd2 (g : nat → nat → Z → Z) (n0 n1 : nat) (a : arr2) :
  has_shape2 n0 n1 a → has_shape2 n0 n1 (upd2 g a).
Proof.
  intros [Hlen Hall]. unfold upd2. split; [by rewrite length_imap|].
  apply Forall_lookup. intros i r Hr. rewrite list_lookup_imap in Hr.
  destruct (a !! i) as [r0|] eqn:Hi; [|done]. cbn in Hr. injection Hr as <-.
  rewrite length_imap. rewrite Forall_lookup in Hall. by eapply Hall.
Qed.

Lemma set2_spec (n0 n1 : nat) (a : arr2) (z x : nat) (v : Z) :
  has_shape2 n0 n1 a → (z < n0)%nat → (x < n1)%nat →
  ∃ a', set2 a z x v = Ok a' ∧ has_shape2 n0 n1 a'
        ∧ cell2 a' z x = Some (u8 v)
        ∧ ∀ z' x', (z', x') ≠ (z, x) → cell2 a' z' x' = cell2 a z' x'.
Proof.
  intros Hs Hz Hx.
  destruct (cell2_Some_shape _ _ _ _ _ Hs Hz Hx) as [v0 Hv0].
  exists (alter (<[x := u8 v]>) z a).
  unfold set2, idx2. rewrite Hv0. split; [done|].
  destruct Hs as [Hlen Hall]. split.
  { split; [by rewrite length_alter|].
    apply Forall_alter; [done|]. intros r _ Hr. by rewrite length_insert. }
  unfold cell2 in *. destruct (a !! z) as [r|] eqn:Hr; [|done]. split.
  - rewrite list_lookup_alter_eq, Hr. cbn.
    apply list_lookup_insert_eq. by eapply lookup_lt_Some.
  - intros z' x' Hne. destruct (decide (z' = z)) as [->|Hz'].
    + rewrite list_lookup_alter_eq, Hr. cbn.
      apply list_lookup_insert_ne. congruence.
    + by rewrite list_lookup_alter_ne.
Qed.

(** After the indexed assignment, a cell holds the value of the last
    index that addressed it, or what it held before. *)
Lemma assign_heights_spec (n0 n1 : nat) (axes : list (nat * nat * nat)) (hm : arr2) :
  has_shape2 n0 n1 hm →
  (∀ x z y, (x, z, y) ∈ axes → (z < n0)%nat ∧ (x < n1)%nat) →
  ∃ hm', assign_heights hm axes = Ok hm' ∧ has_shape2 n0 n1 hm'
         ∧ ∀ z x, (z < n0)%nat → (x < n1)%nat →
             cell2 hm' z x
             = Some (match last (filter (λ e, e.1.1 = x ∧ e.1.2 = z) axes) with
                     | Some e => u8 (Z.of_nat e.2)
                     | None => get2 hm z x
                     end).
Proof.
  revert hm. induction axes as [|[[x0 z0] y0] axes IH]; intros hm Hs Hin.
  - exists hm. split; [done|]. split; [done|]. intros z x Hz Hx. cbn.
    destruct (cell2_Some_shape _ _ _ _ _ Hs Hz Hx) as [v Hv].
    unfold get2. by rewrite Hv.
  - destruct (Hin x0 z0 y0) as [Hz0 Hx0]; [apply list_elem_of_here|].
    destruct (set2_spec n0 n1 hm z0 x0 (Z.of_nat y0) Hs Hz0 Hx0)
      as (hm1 & Hset & Hs1 & Hnew & Hothers).
    destruct (IH hm1 Hs1) as (hm' & Hrun & Hs' & Hcells).
    { intros x z y He. apply (Hin x z y). by apply list_elem_of_further. }
    exists hm'. cbn [assign_heights]. rewrite Hset. split; [done|]. split; [done|].
    intros z x Hz Hx. rewrite (Hcells z x Hz Hx). f_equal.
    destruct (decide (x0 = x ∧ z0 = z)) as [[-> ->]|Hne].
    + rewrite filter_cons_True by done. rewrite last_cons.
      destruct (last (filter _ axes)); [done|].
      unfold get2. by rewrite Hnew.
    + rewrite filter_cons_False by done.
      destruct (last (filter _ axes)); [done|].
      unfold get2. rewrite Hothers; [done|]. intros [= -> ->]. by apply Hne.
Qed.

Lemma top_absorbing_unique (c : list Z) (y y' : nat) :
  top_absorbing c y → top_absorbing c y' → y = y'.
Proof.
  intros [(b & Hb & Hab) Hup] [(b' & Hb' & Hab') Hup'].
  destruct (Nat.lt_trichotomy y y') as [Hlt|[->|Hlt]]; [|done|].
  - by destruct (Hab' (Hup y' b' Hlt Hb')).
  - by destruct (Hab (Hup' y b Hlt Hb)).
Qed.

(** The array computation of [generateHeightMap] on a 16x16x128 array of
    blocks: every entry is one more than the highest absorbing cell of
    its column, and 1 for a column without an absorbing cell. *)
Lemma height_map_of_spec (blocks : arr3) (hm : arr2) :
  has_shape3 16 16 128 blocks → has_shape2 16 16 hm →
  ∃ hm', height_map_of blocks hm = Ok hm' ∧ has_shape2 16 16 hm'
         ∧ ∀ x z, (x < 16)%nat → (z < 16)%nat →
             ∃ h, cell2 hm' z x = Some h ∧ 1 ≤ h ≤ 128
                  ∧ (∀ y, top_absorbing (column blocks x z) y → h = Z.of_nat y + 1)
                  ∧ (none_absorbing (column blocks x z) → h = 1).
Proof.
  intros Hb Hh. unfold height_map_of.
  destruct (assign_heights_spec 16 16 (nonzero3 blocks) (upd2 (λ _ _ _, 0) hm))
    as (hm1 & Hrun & Hs1 & Hcells).
  { by apply has_shape2_upd2. }
  { intros x z y He. apply nonzero3_bounds in He as (p & c & Hp & Hc & _).
    destruct Hb as [Hlen Hall]. rewrite Forall_lookup in Hall.
    destruct (Hall _ _ Hp) as [Hlp _].
    apply lookup_lt_Some in Hp, Hc. lia. }
  rewrite Hrun. eexists. split; [done|]. split; [by apply has_shape2_upd2|].
  intros x z Hx Hz. rewrite cell2_upd2, (Hcells z x Hz Hx), nonzero3_column, fmap_last.
  pose proof (last_nonzero1 (column blocks x z)) as Hlast.
  assert (Hcol : length (column blocks x z) = 128%nat).
  { destruct (cell3_Some_shape 16 16 128 blocks x z 0 Hb) as (p & c & v & Hp & Hc & _);
      [lia..|].
    unfold column. rewrite Hp, Hc. cbn.
    destruct Hb as [_ Hall]. rewrite Forall_lookup in Hall.
    destruct (Hall _ _ Hp) as [_ Hcs]. rewrite Forall_lookup in Hcs. by eapply Hcs. }
  destruct (last (nonzero1 (column blocks x z))) as [y0|] eqn:Hy0; cbn.
  - assert (y0 < 128)%nat.
    { destruct Hlast as [(b & Hb0 & _) _]. apply lookup_lt_Some in Hb0. lia. }
    exists (Z.of_nat y0 + 1). unfold u8.
    rewrite (Z.mod_small (Z.of_nat y0)) by lia. rewrite Z.mod_small by lia.
    split; [done|]. split; [lia|]. split.
    + intros y Hy. by rewrite (top_absorbing_unique _ _ _ Hy Hlast).
    + intros Hnone. destruct Hlast as [(b & Hb0 & Hab) _].
      by destruct (Hab (Hnone _ _ Hb0)).
  - exists 1. split.
    { f_equal. destruct (cell2_Some_shape 16 16 hm z x Hh Hz Hx) as [v Hv].
      unfold get2. rewrite cell2_upd2, Hv. done. }
    split; [lia|]. split; [|done].
    intros y [(b & Hb0 & Hab) _]. by destruct (Hab (Hlast _ _ Hb0)).
Qed.

End height_map.

(* ------------------------------------------------------------------ *)
(** ** Decompressing a well-formed chunk                               *)
(* ------------------------------------------------------------------ *)

Section decompressing.
Context {codec : Codec} {materials : Materials}.

Lemma length_chunks {A} (k n : nat) (l : list A) : length (chunks k n l) = k.
Proof. revert l. induction k as [|k IH]; intros l; cbn; [done|]. by rewrite IH. Qed.

Lemma Forall_length_chunks {A} (k n : nat) (l : list A) :
  length l = (k * n)%nat → Forall (λ c, length c = n) (chunks k n l).
Proof.
  revert l. induction k as [|k IH]; intros l Hl; cbn; [done|].
  constructor.
  - rewrite length_take. lia.
  - apply IH. rewrite length_drop. lia.
Qed.

Lemma Forall_chunks {A} (Q : A → Prop) (k m : nat) (l : list A) :
  Forall Q l → length l = (k * m)%nat →
  Forall (λ p, length p = m ∧ Forall Q p) (chunks k m l).
Proof.
  revert l. induction k as [|k IH]; intros l HQ Hl; cbn; [done|].
  constructor.
  - split; [rewrite length_take; lia|by apply Forall_take].
  - apply IH; [by apply Forall_drop|rewrite length_drop; lia].
Qed.

Lemma has_shape3_shaped3 (n0 n1 n2 : nat) (a : ndarray) :
  length (flatten a) = (n0 * n1 * n2)%nat → has_shape3 n0 n1 n2 (shaped3 n0 n1 n2 a).
Proof.
  intros Hl. unfold shaped3. split; [apply length_chunks|].
  apply Forall_chunks; [|by rewrite length_chunks].
  by apply Forall_length_chunks.
Qed.

Lemma has_shape2_shaped2 (n0 n1 : nat) (a : ndarray) :
  length (flatten a) = (n0 * n1)%nat → has_shape2 n0 n1 (shaped2 n0 n1 a).
Proof.
  intros Hl. split; [apply length_chunks|]. by apply Forall_length_chunks.
Qed.

Lemma set_shape3_eq fs c lv key a (n0 n1 n2 : nat) :
  lv !! key = Some (TAG_Byte_Array a) → length (flatten a) = (n0 * n1 * n2)%nat →
  set_shape3 key n0 n1 n2 (fs, with_level lv c)
  = (Ok tt, (fs, with_level (<[key := TAG_Byte_Array (A3 (shaped3 n0 n1 n2 a))]> lv) c)).
Proof.
  intros Hk Hl. unfold set_shape3.
  rewrite (bind_ok _ _ _ _ _
             (tag_value_eq fs (with_level lv c) lv key a (root_tag_with_level lv c) Hk)).
  unfold reshape3. rewrite decide_True by done.
  unfold lift_result at 1, bind at 1.
  by rewrite (set_tag_value_eq fs (with_level lv c) lv key a _
                (root_tag_with_level lv c) Hk).
Qed.

Lemma set_shape2_eq fs c lv key a (n0 n1 : nat) :
  lv !! key = Some (TAG_Byte_Array a) → length (flatten a) = (n0 * n1)%nat →
  set_shape2 key n0 n1 (fs, with_level lv c)
  = (Ok tt, (fs, with_level (<[key := TAG_Byte_Array (A2 (shaped2 n0 n1 a))]> lv) c)).
Proof.
  intros Hk Hl. unfold set_shape2.
  rewrite (bind_ok _ _ _ _ _
             (tag_value_eq fs (with_level lv c) lv key a (root_tag_with_level lv c) Hk)).
  unfold reshape2. rewrite decide_True by done.
  unfold lift_result at 1, bind at 1.
  by rewrite (set_tag_value_eq fs (with_level lv c) lv key a _
                (root_tag_with_level lv c) Hk).
Qed.

Lemma ensure_list_eq fs c lv key :
  ensure_list key (fs, with_level lv c) = (Ok tt, (fs, with_level (ensured key lv) c)).
Proof.
  unfold ensure_list, ensured.
  rewrite (bind_ok _ _ _ _ _
             (level_compound_eq fs (with_level lv c) lv (root_tag_with_level lv c))).
  destruct (lv !! key); [done|].
  by rewrite (set_tag_eq fs (with_level lv c) lv key _ (root_tag_with_level lv c)).
Qed.

Lemma lookup_ensured_ne key key' lv : key ≠ key' → ensured key lv !! key' = lv !! key'.
Proof.
  intros Hne. unfold ensured. destruct (lv !! key); [done|].
  by rewrite lookup_insert_ne.
Qed.

Lemma unpackChunkData_eq fs c lv (xs xb xd : arr3) :
  lv !! SkyLight = Some (TAG_Byte_Array (A3 xs)) →
  lv !! BlockLight = Some (TAG_Byte_Array (A3 xb)) →
  lv !! Data = Some (TAG_Byte_Array (A3 xd)) →
  has_shape3 16 16 64 xs → has_shape3 16 16 64 xb → has_shape3 16 16 64 xd →
  unpackChunkData (fs, with_level lv c)
  = (Ok tt, (fs, with_level
       (<[Data := TAG_Byte_Array (A3 (unpacked xd))]>
          (<[BlockLight := TAG_Byte_Array (A3 (unpacked xb))]>
             (<[SkyLight := TAG_Byte_Array (A3 (unpacked xs))]> lv))) c)).
Proof.
  intros Hs Hb Hd Ss Sb Sd.
  unfold unpackChunkData. cbn [for_each].
  unfold bind at 1. rewrite (unpack_key fs c lv SkyLight xs) by done.
  unfold bind at 1.
  rewrite (unpack_key fs c _ BlockLight xb) by (done || by rewrite lookup_insert_ne).
  unfold bind at 1.
  by rewrite (unpack_key fs c _ Data xd) by (done || by rewrite !lookup_insert_ne).
Qed.

Lemma shapeChunkData_eq fs c raw ab ah asl abl ad :
  well_formed_level raw ab ah asl abl ad →
  shapeChunkData (fs, with_level raw c)
  = (Ok tt, (fs, with_level
       (ensured Entities (ensured TileEntities
          (<[Data := TAG_Byte_Array (A3 (shaped3 16 16 64 ad))]>
          (<[BlockLight := TAG_Byte_Array (A3 (shaped3 16 16 64 abl))]>
          (<[SkyLight := TAG_Byte_Array (A3 (shaped3 16 16 64 asl))]>
          (<[HeightMap := TAG_Byte_Array (A2 (shaped2 16 16 ah))]>
          (<[Blocks := TAG_Byte_Array (A3 (shaped3 16 16 128 ab))]> raw))))))) c)).
Proof.
  intros (Hb & Hh & Hs & Hl & Hd & Lb & Lh & Ls & Ll & Ld).
  unfold shapeChunkData.
  unfold bind at 1. rewrite (set_shape3_eq fs c raw Blocks ab) by done.
  unfold bind at 1.
  rewrite (set_shape2_eq fs c _ HeightMap ah) by (done || by rewrite lookup_insert_ne).
  unfold bind at 1.
  rewrite (set_shape3_eq fs c _ SkyLight asl) by (done || by rewrite !lookup_insert_ne).
  unfold bind at 1.
  rewrite (set_shape3_eq fs c _ BlockLight abl) by (done || by rewrite !lookup_insert_ne).
  unfold bind at 1.
  rewrite (set_shape3_eq fs c _ Data ad) by (done || by rewrite !lookup_insert_ne).
  unfold bind at 1. rewrite ensure_list_eq.
  by rewrite ensure_list_eq.
Qed.

(** [decompress] on a chunk that is not materialized and whose cached data
    parse to a well-formed compound. *)
Lemma decompress_parsable fs c blob data raw ab ah asl abl ad :
  root_tag c = None → compressedTag c = Some blob →
  (gunzip blob = Ok data ∨ gunzip blob = Raise IOError ∧ data = blob) →
  nbt_load data = Ok (mkRoot (Some raw)) →
  well_formed_level raw ab ah asl abl ad →
  decompress (fs, c)
  = (Ok tt, (fs, with_level (decompressed_level raw ab ah asl abl ad) c)).
Proof.
  intros Hr Hb Hz Hp Hwf. unfold decompress, bind at 1. cbn [get_self snd].
  rewrite Hr, Hb.
  assert (Hd : try_except (lift_result (gunzip blob))
                 (λ e, bool_decide (e = IOError)) (ret blob) (fs, c)
               = (Ok data, (fs, c))).
  { unfold try_except, lift_result. destruct Hz as [->|[-> ->]]; done. }
  rewrite (bind_ok _ _ _ _ _ Hd).
  unfold bind at 1, try_except at 1, lift_result, bind at 1. rewrite Hp.
  unfold ret at 1. unfold bind at 1, modify_self. cbn [fst snd].
  change (set_root_tag (Some (mkRoot (Some raw))) c) with (with_level raw c).
  unfold bind at 1, try_except, bind at 1.
  rewrite (shapeChunkData_eq fs c raw ab ah asl abl ad Hwf).
  unfold ret at 1.
  destruct Hwf as (_ & _ & _ & _ & _ & _ & _ & Ls & Ll & Ld).
  rewrite (unpackChunkData_eq fs c _ (shaped3 16 16 64 asl) (shaped3 16 16 64 abl)
             (shaped3 16 16 64 ad)); [done|..].
  - rewrite !lookup_ensured_ne, !lookup_insert_ne by done. apply lookup_insert_eq.
  - rewrite !lookup_ensured_ne, lookup_insert_ne by done. apply lookup_insert_eq.
  - rewrite !lookup_ensured_ne by done. apply lookup_insert_eq.
  - by apply has_shape3_shaped3.
  - by apply has_shape3_shaped3.
  - by apply has_shape3_shaped3.
Qed.

Lemma decompress_loaded fs c t :
  root_tag c = Some t → decompress (fs, c) = (Ok tt, (fs, c)).
Proof. intros Hr. unfold decompress, bind, get_self. cbn. by rewrite Hr. Qed.

Lemma load_loaded fs c t blob :
  root_tag c = Some t → compressedTag c = Some blob →
  load (fs, c) = (Ok tt, (fs, c)).
Proof.
  intros Hr Hb. unfold load, bind at 1. cbn [get_self snd]. rewrite Hb.
  unfold bind at 1, ret at 1. unfold bind, get_self. cbn. by rewrite Hr.
Qed.

(** [load] on a chunk that holds its file content but is not
    materialized. *)
Lemma load_compressed fs c blob data raw ab ah asl abl ad :
  root_tag c = None → compressedTag c = Some blob →
  (gunzip blob = Ok data ∨ gunzip blob = Raise IOError ∧ data = blob) →
  nbt_load data = Ok (mkRoot (Some raw)) →
  well_formed_level raw ab ah asl abl ad →
  load (fs, c)
  = (Ok tt, (fs, with_level (decompressed_level raw ab ah asl abl ad) c)).
Proof.
  intros Hr Hb Hz Hp Hwf. unfold load, bind at 1. cbn [get_self snd]. rewrite Hb.
  unfold bind at 1, ret at 1. unfold bind at 1. cbn [get_self snd]. rewrite Hr.
  by eapply decompress_parsable.
Qed.

(** A property of a materialized chunk. *)
Lemma property_loaded fs c lv key a :
  root_tag c = Some (mkRoot (Some lv)) → lv !! key = Some (TAG_Byte_Array a) →
  (decompress ;;; tag_value key) (fs, c) = (Ok a, (fs, c)).
Proof.
  intros Hr Hk. rewrite (bind_ok _ _ _ _ _ (decompress_loaded fs c _ Hr)).
  by eapply tag_value_eq.
Qed.

(** The arrays of the compound left by [decompress]. *)
Lemma decompressed_level_arrays raw ab ah asl abl ad :
  let lv := decompressed_level raw ab ah asl abl ad in
  lv !! Blocks = Some (TAG_Byte_Array (A3 (shaped3 16 16 128 ab)))
  ∧ lv !! HeightMap = Some (TAG_Byte_Array (A2 (shaped2 16 16 ah)))
  ∧ lv !! SkyLight = Some (TAG_Byte_Array (A3 (unpacked (shaped3 16 16 64 asl))))
  ∧ lv !! BlockLight = Some (TAG_Byte_Array (A3 (unpacked (shaped3 16 16 64 abl))))
  ∧ lv !! Data = Some (TAG_Byte_Array (A3 (unpacked (shaped3 16 16 64 ad)))).
Proof.
  unfold decompressed_level. cbn zeta. repeat split.
  - rewrite !lookup_insert_ne, !lookup_ensured_ne, !lookup_insert_ne by done.
    apply lookup_insert_eq.
  - rewrite !lookup_insert_ne, !lookup_ensured_ne, !lookup_insert_ne by done.
    apply lookup_insert_eq.
  - rewrite !lookup_insert_ne by done. apply lookup_insert_eq.
  - rewrite lookup_insert_ne by done. apply lookup_insert_eq.
  - apply lookup_insert_eq.
Qed.

End decompressing.

(* ------------------------------------------------------------------ *)
(** ** Whole-array assignments                                         *)
(* ------------------------------------------------------------------ *)

Section array_updates.

Lemma Forall_imap {A B} (P : A → Prop) (Q : B → Prop) (f : nat → A → B) (l : list A) :
  (∀ i x, P x → Q (f i x)) → Forall P l → Forall Q (imap f l).
Proof.
  intros Hf Hl. apply Forall_lookup. intros i y Hy.
  rewrite list_lookup_imap in Hy.
  destruct (l !! i) as [x|] eqn:Hx; [|done]. cbn in Hy. injection Hy as <-.
  apply Hf. rewrite Forall_lookup in Hl. by eapply Hl.
Qed.

Lemma has_shape3_upd3 sel g (n0 n1 n2 : nat) (a : arr3) :
  has_shape3 n0 n1 n2 a → has_shape3 n0 n1 n2 (upd3 sel g a).
Proof.
  intros [Hlen Hall]. unfold upd3. split; [by rewrite length_imap|].
  eapply Forall_imap; [|exact Hall]. intros x p [Hp Hcs]. cbn.
  split; [by rewrite length_imap|].
  eapply Forall_imap; [|exact Hcs]. intros z c Hc. cbn. by rewrite length_imap.
Qed.

Lemma Forall3_upd3 (P : Z → Prop) sel g (a : arr3) :
  (∀ x z y v, P v → P (if sel x z y : bool then g x z y v else v)) →
  Forall3 P a → Forall3 P (upd3 sel g a).
Proof.
  intros Hg Ha. unfold upd3, Forall3.
  eapply Forall_imap; [|exact Ha]. intros x p Hp. cbn.
  eapply Forall_imap; [|exact Hp]. intros z c Hc. cbn.
  eapply Forall_imap; [|exact Hc]. intros y v Hv. apply Hg, Hv.
Qed.

Lemma set3_ok (n0 n1 n2 : nat) (a : arr3) (x z y : nat) (v : Z) :
  has_shape3 n0 n1 n2 a → (x < n0)%nat → (z < n1)%nat → (y < n2)%nat →
  ∃ a', set3 a x z y v = Ok a' ∧ has_shape3 n0 n1 n2 a'.
Proof.
  intros Hs Hx Hz Hy.
  destruct (cell3_Some_shape _ _ _ _ x z y Hs Hx Hz Hy) as (p & c & v0 & _ & _ & _ & Hv0).
  unfold set3, idx3. rewrite Hv0. eexists. split; [done|].
  destruct Hs as [Hlen Hall]. split; [by rewrite length_alter|].
  apply Forall_alter; [done|]. intros p' _ [Hp' Hcs].
  split; [by rewrite length_alter|].
  apply Forall_alter; [done|]. intros c' _ Hc'. by rewrite length_insert.
Qed.

Lemma set3_Forall3 (P : Z → Prop) (a a' : arr3) (x z y : nat) (v : Z) :
  set3 a x z y v = Ok a' → Forall3 P a → P (u8 v) → Forall3 P a'.
Proof.
  unfold set3. destruct (idx3 a x z y); [|done]. intros [= <-] Ha Hv.
  unfold Forall3. apply Forall_alter; [done|]. intros p _ Hp.
  apply Forall_alter; [done|]. intros c _ Hc.
  by apply Forall_insert.
Qed.

End array_updates.

(* ------------------------------------------------------------------ *)
(** ** generateHeightMap, genFastLights and chunkChanged               *)
(* ------------------------------------------------------------------ *)

Section chunk_changed.
Context {codec : Codec} {materials : Materials}.

Lemma generateHeightMap_loaded fs c lv blocks hm hm' :
  root_tag c = Some (mkRoot (Some lv)) →
  lv !! Blocks = Some (TAG_Byte_Array (A3 blocks)) →
  lv !! HeightMap = Some (TAG_Byte_Array (A2 hm)) →
  height_map_of blocks hm = Ok hm' →
  generateHeightMap (fs, c)
  = (Ok tt, (fs, with_level (<[HeightMap := TAG_Byte_Array (A2 hm')]> lv) c)).
Proof.
  intros Hr Hb Hh Hm. unfold generateHeightMap, bind at 1. cbn [get_self snd].
  rewrite Hr. unfold bind at 1, ret at 1.
  unfold getBlocks, getHeightMap.
  rewrite (bind_ok _ _ _ _ _ (property_loaded fs c lv Blocks _ Hr Hb)).
  rewrite (bind_ok _ _ _ _ _ (property_loaded fs c lv HeightMap _ Hr Hh)).
  cbn [as3 as2]. unfold bind at 1, ret at 1. unfold bind at 1, ret at 1.
  rewrite Hm. unfold lift_result at 1, bind at 1.
  by eapply set_tag_value_eq.
Qed.

Lemma fast_column_ok (blocks sky : arr3) (x z : nat) (ys : list nat) (lv : Z) :
  has_shape3 16 16 128 blocks → has_shape3 16 16 128 sky →
  (x < 16)%nat → (z < 16)%nat → Forall (λ y, y < 128)%nat ys →
  ∃ sky', fast_column blocks x z ys lv sky = Ok sky' ∧ has_shape3 16 16 128 sky'.
Proof.
  intros Hb Hs Hx Hz Hys. revert lv sky Hs.
  induction Hys as [|y ys Hy _ IH]; intros lv sky Hs; [by exists sky|].
  cbn [fast_column].
  destruct (cell3_Some_shape _ _ _ _ x z y Hb Hx Hz Hy) as (p & c & b & _ & _ & _ & Hcell).
  unfold idx3. rewrite Hcell.
  destruct (lv - Z.max (lightAbsorption b) 1 <=? 0); [by exists sky|].
  destruct (set3_ok 16 16 128 sky x z y (lv - Z.max (lightAbsorption b) 1) Hs Hx Hz Hy)
    as (sky1 & -> & Hs1).
  by apply IH.
Qed.

Lemma fast_column_light (blocks sky sky' : arr3) (x z : nat) (ys : list nat) (lv : Z) :
  lv ≤ 15 → Forall3 is_light sky →
  fast_column blocks x z ys lv sky = Ok sky' → Forall3 is_light sky'.
Proof.
  revert lv sky. induction ys as [|y ys IH]; intros lv sky Hlv Hs; cbn [fast_column].
  - by intros [= <-].
  - destruct (idx3 blocks x z y) as [b|]; [|done].
    destruct (Z.leb_spec (lv - Z.max (lightAbsorption b) 1) 0) as [|Hpos];
      [by intros [= <-]|].
    destruct (set3 sky x z y _) as [sky1|] eqn:Hset; [|done].
    apply IH; [lia|]. eapply set3_Forall3; [exact Hset|done|].
    unfold is_light, u8. rewrite Z.mod_small by lia. lia.
Qed.

Lemma fast_lights_at_ok (blocks sky : arr3) (hm : arr2) (x z : nat) :
  has_shape3 16 16 128 blocks → has_shape3 16 16 128 sky → has_shape2 16 16 hm →
  (∀ z x h, cell2 hm z x = Some h → 0 ≤ h ≤ 128) →
  (x < 16)%nat → (z < 16)%nat →
  ∃ sky', fast_lights_at blocks hm sky (x, z) = Ok sky' ∧ has_shape3 16 16 128 sky'.
Proof.
  intros Hb Hs Hh Hrange Hx Hz. unfold fast_lights_at.
  destruct (cell2_Some_shape 16 16 hm z x Hh Hz Hx) as [h Hcell].
  unfold idx2. rewrite Hcell.
  destruct (cell3_Some_shape _ _ _ _ x z 0 Hs Hx Hz) as (p & c & v & _ & _ & _ & ->);
    [lia|].
  apply fast_column_ok; try done; [by apply has_shape3_upd3|].
  apply Forall_forall. intros y Hy. apply elem_of_reverse, elem_of_seq in Hy.
  specialize (Hrange _ _ _ Hcell). lia.
Qed.

Lemma fast_lights_at_light (blocks sky sky' : arr3) (hm : arr2) (xz : nat * nat) :
  Forall3 is_light sky →
  fast_lights_at blocks hm sky xz = Ok sky' → Forall3 is_light sky'.
Proof.
  intros Hs. unfold fast_lights_at. destruct xz as [x z].
  destruct (idx2 hm z x) as [h|]; [|done].
  destruct (cell3 sky x z 0); [|done].
  apply fast_column_light; [lia|].
  apply Forall3_upd3; [|done]. intros x' z' y v Hv.
  destruct (_ && _); [|done]. unfold is_light. lia.
Qed.

Lemma fast_lights_ok (blocks sky : arr3) (hm : arr2) (cols : list (nat * nat)) :
  has_shape3 16 16 128 blocks → has_shape3 16 16 128 sky → has_shape2 16 16 hm →
  (∀ z x h, cell2 hm z x = Some h → 0 ≤ h ≤ 128) →
  Forall (λ xz, xz.1 < 16 ∧ xz.2 < 16)%nat cols →
  ∃ sky', fast_lights blocks hm sky cols = Ok sky' ∧ has_shape3 16 16 128 sky'.
Proof.
  intros Hb Hs Hh Hrange Hcols. revert sky Hs.
  induction Hcols as [|[x z] cols [Hx Hz] _ IH]; intros sky Hs; [by exists sky|].
  cbn [fast_lights].
  destruct (fast_lights_at_ok blocks sky hm x z Hb Hs Hh Hrange Hx Hz)
    as (sky1 & -> & Hs1).
  by apply IH.
Qed.

Lemma fast_lights_light (blocks sky sky' : arr3) (hm : arr2) (cols : list (nat * nat)) :
  Forall3 is_light sky →
  fast_lights blocks hm sky cols = Ok sky' → Forall3 is_light sky'.
Proof.
  revert sky. induction cols as [|xz cols IH]; intros sky Hs; cbn [fast_lights].
  - by intros [= <-].
  - destruct (fast_lights_at blocks hm sky xz) as [sky1|] eqn:Hat; [|done].
    apply IH. by eapply fast_lights_at_light.
Qed.

Lemma columns_in_range : Forall (λ xz, xz.1 < 16 ∧ xz.2 < 16)%nat columns.
Proof. apply (bool_decide_unpack _). vm_compute. exact I. Qed.

Lemma zeroed_light (sky : arr3) :
  Forall3 is_light (upd3 (λ _ _ _, true) (λ _ _ _ _, 0) sky).
Proof.
  unfold upd3, Forall3.
  apply Forall_lookup. intros x p Hp. rewrite list_lookup_imap in Hp.
  destruct (sky !! x) as [p0|]; [|done]. cbn in Hp. injection Hp as <-.
  apply Forall_lookup. intros z c Hc. rewrite list_lookup_imap in Hc.
  destruct (p0 !! z) as [c0|]; [|done]. cbn in Hc. injection Hc as <-.
  apply Forall_lookup. intros y v Hv. rewrite list_lookup_imap in Hv.
  destruct (c0 !! y); [|done]. cbn in Hv. injection Hv as <-. done.
Qed.

Lemma genFastLights_loaded fs c lv blocks hm sky :
  root_tag c = Some (mkRoot (Some lv)) →
  lv !! Blocks = Some (TAG_Byte_Array (A3 blocks)) →
  lv !! HeightMap = Some (TAG_Byte_Array (A2 hm)) →
  lv !! SkyLight = Some (TAG_Byte_Array (A3 sky)) →
  has_shape3 16 16 128 blocks → has_shape3 16 16 128 sky → has_shape2 16 16 hm →
  (∀ z x h, cell2 hm z x = Some h → 0 ≤ h ≤ 128) →
  ∃ sky', genFastLights (fs, c)
          = (Ok tt, (fs, with_level (<[SkyLight := TAG_Byte_Array (A3 sky')]> lv) c))
          ∧ has_shape3 16 16 128 sky' ∧ Forall3 is_light sky'.
Proof.
  intros Hr Hb Hh Hs Sb Ss Sh Hrange.
  set (sky0 := upd3 (λ _ _ _, true) (λ _ _ _ _, 0) sky).
  set (lv0 := <[SkyLight := TAG_Byte_Array (A3 sky0)]> lv).
  destruct (fast_lights_ok blocks sky0 hm columns Sb) as (sky' & Hrun & Ss');
    [by apply has_shape3_upd3|done|done|apply columns_in_range|].
  exists sky'. split; [|split; [done|]].
  2:{ eapply fast_lights_light; [|exact Hrun]. apply zeroed_light. }
  unfold genFastLights, getSkyLight, getBlocks, getHeightMap.
  rewrite (bind_ok _ _ _ _ _ (property_loaded fs c lv SkyLight _ Hr Hs)).
  cbn [as3]. unfold bind at 1, ret at 1.
  rewrite (bind_ok _ _ _ _ _ (set_tag_value_eq fs c lv SkyLight _ (A3 sky0) Hr Hs)).
  fold sky0 lv0.
  assert (Hb0 : lv0 !! Blocks = Some (TAG_Byte_Array (A3 blocks)))
    by (unfold lv0; by rewrite lookup_insert_ne).
  assert (Hh0 : lv0 !! HeightMap = Some (TAG_Byte_Array (A2 hm)))
    by (unfold lv0; by rewrite lookup_insert_ne).
  assert (Hs0 : lv0 !! SkyLight = Some (TAG_Byte_Array (A3 sky0)))
    by apply lookup_insert_eq.
  rewrite (bind_ok _ _ _ _ _
             (property_loaded fs (with_level lv0 c) lv0 Blocks _
                (root_tag_with_level lv0 c) Hb0)).
  cbn [as3]. unfold bind at 1, ret at 1.
  rewrite (bind_ok _ _ _ _ _
             (property_loaded fs (with_level lv0 c) lv0 HeightMap _
                (root_tag_with_level lv0 c) Hh0)).
  cbn [as2]. unfold bind at 1, ret at 1.
  rewrite Hrun. unfold lift_result at 1, bind at 1.
  rewrite (set_tag_value_eq fs (with_level lv0 c) lv0 SkyLight _ (A3 sky')
             (root_tag_with_level lv0 c) Hs0).
  unfold lv0. by rewrite insert_insert_eq.
Qed.

Lemma generateHeightMap_compressed fs c blob data raw ab ah asl abl ad hm' :
  root_tag c = None → compressedTag c = Some blob →
  (gunzip blob = Ok data ∨ gunzip blob = Raise IOError ∧ data = blob) →
  nbt_load data = Ok (mkRoot (Some raw)) →
  well_formed_level raw ab ah asl abl ad →
  height_map_of (shaped3 16 16 128 ab) (shaped2 16 16 ah) = Ok hm' →
  generateHeightMap (fs, c)
  = (Ok tt, (fs, with_level (<[HeightMap := TAG_Byte_Array (A2 hm')]>
                               (decompressed_level raw ab ah asl abl ad)) c)).
Proof.
  intros Hr Hb Hz Hp Hwf Hm.
  destruct (decompressed_level_arrays raw ab ah asl abl ad) as (Lb & Lh & _).
  set (lv := decompressed_level raw ab ah asl abl ad) in *.
  unfold generateHeightMap, bind at 1. cbn [get_self snd].
  rewrite Hr. unfold bind at 1.
  rewrite (load_compressed fs c blob data raw ab ah asl abl ad Hr Hb Hz Hp Hwf).
  fold lv. unfold getBlocks, getHeightMap.
  rewrite (bind_ok _ _ _ _ _
             (property_loaded fs (with_level lv c) lv Blocks _
                (root_tag_with_level lv c) Lb)).
  rewrite (bind_ok _ _ _ _ _
             (property_loaded fs (with_level lv c) lv HeightMap _
                (root_tag_with_level lv c) Lh)).
  cbn [as3 as2]. unfold bind at 1, ret at 1. unfold bind at 1, ret at 1.
  rewrite Hm. unfold lift_result at 1, bind at 1.
  by rewrite (set_tag_value_eq fs (with_level lv c) lv HeightMap _ _
                (root_tag_with_level lv c) Lh).
Qed.

(** The height map is in [1, 128], whatever the blocks. *)
Lemma height_map_of_range (blocks : arr3) (hm hm' : arr2) :
  has_shape3 16 16 128 blocks → has_shape2 16 16 hm →
  height_map_of blocks hm = Ok hm' →
  has_shape2 16 16 hm' ∧ ∀ z x h, cell2 hm' z x = Some h → 0 ≤ h ≤ 128.
Proof.
  intros Hb Hh Hm.
  destruct (height_map_of_spec blocks hm Hb Hh) as (hm1 & Hm1 & Hs1 & Hcells).
  rewrite Hm in Hm1. injection Hm1 as <-. split; [done|].
  intros z x h Hcell.
  assert (z < 16 ∧ x < 16)%nat as [Hz Hx].
  { destruct Hs1 as [Hlen Hall]. unfold cell2 in Hcell.
    destruct (hm' !! z) as [r|] eqn:Hr; [|done].
    rewrite Forall_lookup in Hall. specialize (Hall _ _ Hr).
    apply lookup_lt_Some in Hr, Hcell. lia. }
  destruct (Hcells x z Hx Hz) as (h' & Hh' & Hrange & _).
  rewrite Hcell in Hh'. injection Hh' as <-. lia.
Qed.

(** The part of [chunkChanged] after the test of [root_tag], on a chunk
    that [generateHeightMap] finds or makes materialized with the
    compound [lv]. Only the height map and the sky light change. *)
Lemma chunkChanged_rest fs c0 c lv blocks hm sky (calc : bool) :
  (∀ hm', height_map_of blocks hm = Ok hm' →
          generateHeightMap (fs, c0)
          = (Ok tt, (fs, with_level (<[HeightMap := TAG_Byte_Array (A2 hm')]> lv) c))) →
  lv !! Blocks = Some (TAG_Byte_Array (A3 blocks)) →
  lv !! HeightMap = Some (TAG_Byte_Array (A2 hm)) →
  lv !! SkyLight = Some (TAG_Byte_Array (A3 sky)) →
  has_shape3 16 16 128 blocks → has_shape2 16 16 hm → has_shape3 16 16 128 sky →
  ∃ lv' hm', (generateHeightMap ;;;
              if calc then genFastLights else ret tt) (fs, c0)
             = (Ok tt, (fs, with_level lv' c))
             ∧ lv' !! HeightMap = Some (TAG_Byte_Array (A2 hm'))
             ∧ height_map_of blocks hm = Ok hm'
             ∧ ∀ key, key ≠ HeightMap → key ≠ SkyLight → lv' !! key = lv !! key.
Proof.
  intros Hgen Hb Hh Hs Sb Sh Ss.
  destruct (height_map_of_spec blocks hm Sb Sh) as (hm' & Hm & _ & _).
  destruct (height_map_of_range blocks hm hm' Sb Sh Hm) as [Sh' Hrange].
  set (lv1 := <[HeightMap := TAG_Byte_Array (A2 hm')]> lv).
  rewrite (bind_ok _ _ _ _ _ (Hgen hm' Hm)). fold lv1.
  destruct calc.
  - destruct (genFastLights_loaded fs (with_level lv1 c) lv1 blocks hm' sky)
      as (sky' & Hfast & _); try done.
    { unfold lv1. by rewrite lookup_insert_ne. }
    { apply lookup_insert_eq. }
    { unfold lv1. by rewrite lookup_insert_ne. }
    rewrite Hfast. eexists _, hm'. split; [done|]. split; [|split; [done|]].
    + unfold lv1. rewrite lookup_insert_ne by done. apply lookup_insert_eq.
    + intros key Hk1 Hk2. unfold lv1. by rewrite !lookup_insert_ne.
  - exists lv1, hm'. split; [done|]. split; [apply lookup_insert_eq|].
    split; [done|]. intros key Hk1 Hk2. unfold lv1. by rewrite lookup_insert_ne.
Qed.

Lemma chunkChanged_unloaded fs c (calcLighting : bool) :
  root_tag c = None → compressedTag c = None →
  chunkChanged calcLighting (fs, c) = (Ok tt, (fs, c)).
Proof.
  intros Hr Hb. unfold chunkChanged, bind at 1. cbn [get_self snd].
  by rewrite Hr, Hb.
Qed.

Lemma chunkChanged_loaded fs c (calcLighting : bool) lv blocks hm sky :
  root_tag c = Some (mkRoot (Some lv)) →
  lv !! Blocks = Some (TAG_Byte_Array (A3 blocks)) →
  lv !! HeightMap = Some (TAG_Byte_Array (A2 hm)) →
  lv !! SkyLight = Some (TAG_Byte_Array (A3 sky)) →
  has_shape3 16 16 128 blocks → has_shape2 16 16 hm → has_shape3 16 16 128 sky →
  ∃ lv' hm',
    chunkChanged calcLighting (fs, c)
    = (Ok tt, (fs, with_level lv'
         (set_needsLighting true (set_dirty true (set_needsCompression true c)))))
    ∧ lv' !! HeightMap = Some (TAG_Byte_Array (A2 hm'))
    ∧ height_map_of blocks hm = Ok hm'
    ∧ ∀ key, key ≠ HeightMap → key ≠ SkyLight → lv' !! key = lv !! key.
Proof.
  intros Hr Hb Hh Hs Sb Sh Ss.
  set (c0 := set_needsLighting true (set_dirty true (set_needsCompression true c))).
  destruct (chunkChanged_rest fs c0 c0 lv blocks hm sky calcLighting)
    as (lv' & hm' & Hrest & Hrest'); try done.
  { intros hm' Hm. by eapply generateHeightMap_loaded. }
  exists lv', hm'. split; [|done].
  unfold chunkChanged, bind at 1. cbn [get_self snd]. rewrite Hr.
  unfold bind at 1, modify_self at 1. cbn [fst snd].
  unfold bind at 1, modify_self at 1. cbn [fst snd].
  unfold bind at 1, modify_self at 1. cbn [fst snd].
  exact Hrest.
Qed.

Lemma chunkChanged_compressed fs c (calcLighting : bool)
    blob data raw ab ah asl abl ad :
  root_tag c = None → compressedTag c = Some blob →
  (gunzip blob = Ok data ∨ gunzip blob = Raise IOError ∧ data = blob) →
  nbt_load data = Ok (mkRoot (Some raw)) →
  well_formed_level raw ab ah asl abl ad →
  ∃ lv' hm',
    chunkChanged calcLighting (fs, c)
    = (Ok tt, (fs, with_level lv' (set_needsLighting true (set_dirty true c))))
    ∧ lv' !! HeightMap = Some (TAG_Byte_Array (A2 hm'))
    ∧ height_map_of (shaped3 16 16 128 ab) (shaped2 16 16 ah) = Ok hm'.
Proof.
  intros Hr Hb Hz Hp Hwf.
  set (c0 := set_needsLighting true (set_dirty true c)).
  destruct (decompressed_level_arrays raw ab ah asl abl ad) as (Lb & Lh & Ls & _).
  pose proof Hwf as (_ & _ & _ & _ & _ & Nb & Nh & Ns & _).
  destruct (chunkChanged_rest fs c0 c0 (decompressed_level raw ab ah asl abl ad)
              (shaped3 16 16 128 ab) (shaped2 16 16 ah)
              (unpacked (shaped3 16 16 64 asl)) calcLighting)
    as (lv' & hm' & Hrest & Hh' & Hm & _); try done.
  { intros hm' Hm. by eapply generateHeightMap_compressed. }
  { by apply has_shape3_shaped3. }
  { by apply has_shape2_shaped2. }
  { by apply unpacked_shape, has_shape3_shaped3. }
  exists lv', hm'. split; [|done].
  unfold chunkChanged, bind at 1. cbn [get_self snd]. rewrite Hr, Hb.
  unfold bind at 1, modify_self at 1. cbn [fst snd].
  unfold bind at 1, modify_self at 1. cbn [fst snd].
  exact Hrest.
Qed.

(** C7, as the code has it: on a chunk with neither tag nor cached data
    [chunkChanged] changes nothing; on a chunk with a materialized tag it
    sets [needsCompression], [dirty] and [needsLighting] and recomputes
    the height map; on a chunk that only has its cached data it sets
    [dirty] and [needsLighting], materializes the tag and recomputes the
    height map, and leaves [needsCompression] as it was. *)
Theorem chunkChanged_flags fs (c : InfdevChunk) (calcLighting : bool) :
  (root_tag c = None → compressedTag c = None →
   chunkChanged calcLighting (fs, c) = (Ok tt, (fs, c)))
  ∧ (∀ lv blocks hm sky,
       root_tag c = Some (mkRoot (Some lv)) →
       lv !! Blocks = Some (TAG_Byte_Array (A3 blocks)) →
       lv !! HeightMap = Some (TAG_Byte_Array (A2 hm)) →
       lv !! SkyLight = Some (TAG_Byte_Array (A3 sky)) →
       has_shape3 16 16 128 blocks → has_shape2 16 16 hm → has_shape3 16 16 128 sky →
       ∃ c' lv' hm',
         chunkChanged calcLighting (fs, c) = (Ok tt, (fs, c'))
         ∧ needsCompression c' = true ∧ dirty c' = true ∧ needsLighting c' = true
         ∧ root_tag c' = Some (mkRoot (Some lv'))
         ∧ lv' !! HeightMap = Some (TAG_Byte_Array (A2 hm'))
         ∧ height_map_of blocks hm = Ok hm')
  ∧ (∀ blob data raw ab ah asl abl ad,
       root_tag c = None → compressedTag c = Some blob →
       (gunzip blob = Ok data ∨ gunzip blob = Raise IOError ∧ data = blob) →
       nbt_load data = Ok (mkRoot (Some raw)) →
       well_formed_level raw ab ah asl abl ad →
       ∃ c' lv' hm',
         chunkChanged calcLighting (fs, c) = (Ok tt, (fs, c'))
         ∧ needsCompression c' = needsCompression c
         ∧ dirty c' = true ∧ needsLighting c' = true
         ∧ root_tag c' = Some (mkRoot (Some lv'))
         ∧ lv' !! HeightMap = Some (TAG_Byte_Array (A2 hm'))
         ∧ height_map_of (shaped3 16 16 128 ab) (shaped2 16 16 ah) = Ok hm').
Proof.
  split; [apply chunkChanged_unloaded|split].
  - intros lv blocks hm sky Hr Hb Hh Hs Sb Sh Ss.
    destruct (chunkChanged_loaded fs c calcLighting lv blocks hm sky)
      as (lv' & hm' & Hrun & Hh' & Hm & _); try done.
    eexists _, lv', hm'. split; [exact Hrun|done].
  - intros blob data raw ab ah asl abl ad Hr Hb Hz Hp Hwf.
    destruct (chunkChanged_compressed fs c calcLighting blob data raw ab ah asl abl ad)
      as (lv' & hm' & Hrun & Hh' & Hm); try done.
    eexists _, lv', hm'. split; [exact Hrun|done].
Qed.

(** C5, as the code has it: on a materialized chunk with a 16x16x128
    array of blocks, [generateHeightMap] leaves in every entry [z], [x] of
    the height map one more than the highest cell of the column [x], [z]
    whose block absorbs light, and 1 (not 0) when the column has no such
    cell. *)
Theorem generateHeightMap_columns fs (c : InfdevChunk) lv blocks hm :
  root_tag c = Some (mkRoot (Some lv)) →
  lv !! Blocks = Some (TAG_Byte_Array (A3 blocks)) →
  lv !! HeightMap = Some (TAG_Byte_Array (A2 hm)) →
  has_shape3 16 16 128 blocks → has_shape2 16 16 hm →
  ∃ hm',
    generateHeightMap (fs, c)
    = (Ok tt, (fs, with_level (<[HeightMap := TAG_Byte_Array (A2 hm')]> lv) c))
    ∧ ∀ x z, (x < 16)%nat → (z < 16)%nat →
        (∀ y, top_absorbing (column blocks x z) y →
              cell2 hm' z x = Some (Z.of_nat y + 1))
        ∧ (none_absorbing (column blocks x z) → cell2 hm' z x = Some 1).
Proof.
  intros Hr Hb Hh Sb Sh.
  destruct (height_map_of_spec blocks hm Sb Sh) as (hm' & Hm & _ & Hcells).
  exists hm'. split; [by eapply generateHeightMap_loaded|].
  intros x z Hx Hz. destruct (Hcells x z Hx Hz) as (h & Hcell & _ & Htop & Hnone).
  split.
  - intros y Hy. by rewrite Hcell, (Htop y Hy).
  - intros Hn. by rewrite Hcell, (Hnone Hn).
Qed.

End chunk_changed.

(* ------------------------------------------------------------------ *)
(** ** getChunkSlices                                                  *)
(* ------------------------------------------------------------------ *)

Section chunk_slices.
Context {codec : Codec} {materials : Materials}.

Lemma loads_ok_again fs c c' lv b blob :
  load (fs, c) = (Ok tt, (fs, c')) →
  root_tag c' = Some (mkRoot (Some lv)) → lv !! Blocks = Some (TAG_Byte_Array b) →
  compressedTag c' = Some blob →
  load (fs, c') = (Ok tt, (fs, c')) ∧ loads_ok fs c'.
Proof.
  intros _ Hr Hb Hc.
  pose proof (load_loaded fs c' _ blob Hr Hc) as Hl.
  split; [done|]. by exists c', lv, b, blob.
Qed.

(** The test of the loop body of [getChunkSlices] at a position without
    a chunk. *)
Lemma blocksForChunk_absent w cx cz :
  presentChunks w !! (cx, cz) = None →
  try_except (blocksForChunk cx cz ;;; ret true) is_ChunkNotPresent (ret false) w
  = (Ok false, w).
Proof.
  intros Hk. unfold try_except, blocksForChunk.
  unfold bind at 1. by rewrite (bind_raise _ _ _ _ _ (getChunk_absent w cx cz Hk)).
Qed.

(** The loop body of [getChunkSlices] at a position with a chunk that can
    be loaded: the chunk is loaded, nothing else changes. *)
Lemma blocksForChunk_present w cx cz c :
  presentChunks w !! (cx, cz) = Some c → loads_ok (files w) c →
  ∃ c', let w1 := mkWorld (<[(cx, cz) := c']> (presentChunks w)) (files w) in
        loads_ok (files w) c'
        ∧ try_except (blocksForChunk cx cz ;;; ret true)
            is_ChunkNotPresent (ret false) w = (Ok true, w1)
        ∧ getChunk cx cz w1 = (Ok (cx, cz), w1).
Proof.
  intros Hk (c' & lv & b & blob & Hl & Hr & Hb & Hc).
  destruct (loads_ok_again _ _ _ _ _ _ Hl Hr Hb Hc) as [Hl' Hok'].
  exists c'. intros w1. split; [done|].
  assert (Hk1 : presentChunks w1 !! (cx, cz) = Some c') by apply lookup_insert_eq.
  assert (Hg : getChunk cx cz w = (Ok (cx, cz), w1))
    by (by rewrite (getChunk_present w cx cz c (Ok tt) (files w) c' Hk Hl)).
  assert (Hg1 : getChunk cx cz w1 = (Ok (cx, cz), w1)).
  { rewrite (getChunk_present w1 cx cz c' (Ok tt) (files w) c' Hk1 Hl').
    unfold w1. cbn. by rewrite insert_insert_eq. }
  assert (Hb1 : with_chunk (cx, cz) getBlocks w1 = (Ok b, w1)).
  { apply (with_chunk_same _ w1 _ c'); [done|]. by eapply property_loaded. }
  split; [|done].
  unfold try_except, blocksForChunk. unfold bind at 1.
  rewrite (bind_ok _ _ _ _ _ Hg). by rewrite Hb1.
Qed.

Lemma for_yield_inv {S A B} (I : S → Prop) (l : list A)
    (body : A → M S (list B)) (f : A → list B) :
  (∀ x s, I s → ∃ s', body x s = (Ok (f x), s') ∧ I s') →
  ∀ s, I s → ∃ s', for_yield l body s = (Ok (l ≫= f), s') ∧ I s'.
Proof.
  intros Hbody. induction l as [|x l IH]; intros s Hs; [by exists s|].
  destruct (Hbody x s Hs) as (s1 & Hx & Hs1).
  destruct (IH s1 Hs1) as (s2 & Hl & Hs2).
  exists s2. split; [|done]. cbn [for_yield].
  rewrite (bind_ok _ _ _ _ _ Hx), (bind_ok _ _ _ _ _ Hl). done.
Qed.

Lemma getChunkSlices_run w box :
  store_loads w →
  ∃ w', getChunkSlices box w
        = (Ok (range (Box.getMincx box) (Box.getMaxcx box) ≫= λ cx,
               range (Box.getMincz box) (Box.getMaxcz box) ≫= λ cz,
               if bool_decide (is_Some (presentChunks w !! (cx, cz)))
               then [slice_at box (cx, cz)] else []), w')
        ∧ slices_inv w w'.
Proof.
  intros Hw. unfold getChunkSlices.
  apply (for_yield_inv (slices_inv w)); [|by split].
  intros cx s Hs.
  apply (for_yield_inv (slices_inv w)); [|done].
  clear s Hs. intros cz s [Hloads Hdom].
  destruct (presentChunks s !! (cx, cz)) as [c|] eqn:Hk.
  - destruct (blocksForChunk_present s cx cz c Hk (Hloads _ _ Hk))
      as (c' & Hok' & Htry & Hg).
    rewrite (bool_decide_eq_true_2 (is_Some (presentChunks w !! (cx, cz))))
      by (apply Hdom; by rewrite Hk).
    eexists. split.
    + by rewrite (bind_ok _ _ _ _ _ Htry), (bind_ok _ _ _ _ _ Hg).
    + split.
      * intros k' c0. cbn. destruct (decide (k' = (cx, cz))) as [->|Hne].
        -- rewrite lookup_insert_eq. by intros [= <-].
        -- rewrite lookup_insert_ne by done. apply Hloads.
      * intros k'. cbn. rewrite <- Hdom.
        destruct (decide (k' = (cx, cz))) as [->|Hne].
        -- rewrite lookup_insert_eq, Hk. split; eauto.
        -- by rewrite lookup_insert_ne.
  - rewrite (bool_decide_eq_false_2 (is_Some (presentChunks w !! (cx, cz))))
      by (rewrite <- Hdom, Hk; by intros [? ?]).
    exists s. split; [|done].
    by rewrite (bind_ok _ _ _ _ _ (blocksForChunk_absent s cx cz Hk)).
Qed.

(** The values yielded, as a list over the chunk positions of the box. *)
Lemma yielded_positions (box : Box.BoundingBox) (m : gmap (Z * Z) InfdevChunk)
    (lx lz : list Z) :
  (lx ≫= λ cx, lz ≫= λ cz,
     if bool_decide (is_Some (m !! (cx, cz))) then [slice_at box (cx, cz)] else [])
  = slice_at box <$> filter (λ k, is_Some (m !! k)) (lx ≫= λ cx, lz ≫= λ cz, [(cx, cz)]).
Proof.
  induction lx as [|cx lx IH]; [done|].
  cbn [mbind list_bind]. rewrite filter_app, fmap_app, <- IH. f_equal.
  clear IH. induction lz as [|cz lz IH]; [done|].
  cbn [mbind list_bind]. rewrite filter_app, fmap_app, <- IH. f_equal.
  rewrite filter_cons, filter_nil. by case_bool_decide; case_decide.
Qed.

Lemma product_length (lx lz : list Z) :
  length (lx ≫= λ cx, lz ≫= λ cz, [(cx, cz)]) = (length lx * length lz)%nat.
Proof.
  induction lx as [|cx lx IH]; [done|].
  cbn [mbind list_bind]. rewrite length_app, IH. cbn. f_equal.
  clear. induction lz as [|cz lz IH]; [done|]. cbn. by rewrite IH.
Qed.

Lemma elem_of_product (lx lz : list Z) (cx cz : Z) :
  (cx, cz) ∈ (lx ≫= λ cx, lz ≫= λ cz, [(cx, cz)]) ↔ cx ∈ lx ∧ cz ∈ lz.
Proof.
  rewrite list_elem_of_bind. split.
  - intros (x & Hin & Hx). apply list_elem_of_bind in Hin as (z & Hin & Hz).
    apply list_elem_of_singleton in Hin as [= -> ->]. done.
  - intros [Hx Hz]. exists cx. split; [|done].
    apply list_elem_of_bind. exists cz. split; [|done]. apply list_elem_of_here.
Qed.

Lemma NoDup_product (lx lz : list Z) :
  NoDup lx → NoDup lz → NoDup (lx ≫= λ cx, lz ≫= λ cz, [(cx, cz)]).
Proof.
  intros Hx Hz. apply NoDup_bind; [| |done].
  - intros x1 x2 [cx cz] _ _ H1 H2.
    apply list_elem_of_bind in H1 as (z1 & H1 & _).
    apply list_elem_of_bind in H2 as (z2 & H2 & _).
    apply list_elem_of_singleton in H1, H2. congruence.
  - intros x _. apply NoDup_bind; [| |done].
    + intros z1 z2 [cx cz] _ _ H1 H2.
      apply list_elem_of_singleton in H1, H2. congruence.
    + intros z _. apply NoDup_singleton.
Qed.

Lemma filter_unique_length {A} (P : A → Prop) `{∀ x, Decision (P x)}
    (l : list A) (x0 : A) :
  NoDup l → x0 ∈ l → P x0 → (∀ y, y ∈ l → P y → y = x0) →
  length (filter P l) = 1%nat.
Proof.
  induction 1 as [|y l Hy Hnd IH]; intros Hin HP Huniq.
  - by apply elem_of_nil in Hin.
  - destruct (decide (P y)) as [HPy|HPy].
    + rewrite filter_cons_True by done. cbn. f_equal.
      rewrite (filter_none P l); [done|].
      apply Forall_forall. intros z Hz HPz.
      assert (z = x0) by (apply Huniq; [by apply list_elem_of_further|done]).
      assert (y = x0) by (apply Huniq; [apply list_elem_of_here|done]).
      congruence.
    + rewrite filter_cons_False by done. apply IH; [|done|].
      * apply elem_of_cons in Hin as [->|Hin]; done.
      * intros z Hz. apply Huniq. by apply list_elem_of_further.
Qed.

Lemma filter_fmap_comp {A B} (f : A → B) (P : B → Prop) `{∀ x, Decision (P x)}
    (l : list A) :
  filter P (f <$> l) = f <$> filter (λ x, P (f x)) l.
Proof.
  induction l as [|x l IH]; [done|].
  cbn [fmap list_fmap]. rewrite !filter_cons, IH. by case_decide.
Qed.

Lemma if_same_Z (c : bool) (v : Z) : (if c then v else v) = v.
Proof. by destruct c. Qed.

Lemma shiftr_4_aligned (a r : Z) : 0 ≤ r < 16 → (16 * a + r) ≫ 4 = a.
Proof.
  intros Hr. rewrite Z.shiftr_div_pow2 by lia.
  change (2 ^ 4) with 16. symmetry. apply (Z.div_unique _ 16 a r); lia.
Qed.

(** The chunk range and the pieces of a box that is made of whole
    chunks. *)
Lemma aligned_box (a b y0 n m h : Z) :
  0 ≤ n → 0 ≤ m →
  let box := Box.mkBox (Box.Vec3 (16 * a) y0 (16 * b)) (Box.Vec3 (16 * n) h (16 * m)) in
  Box.getMincx box = a ∧ Box.getMaxcx box = a + n
  ∧ Box.getMincz box = b ∧ Box.getMaxcz box = b + m
  ∧ ∀ cx cz, slice_at box (cx, cz)
      = mkChunkSlice (cx, cz)
          (mkSlice 0 16, mkSlice 0 16, mkSlice y0 (y0 + h))
          (16 * (cx - a), 0, 16 * (cz - b)).
Proof.
  intros Hn Hm box.
  assert (Hx0 : Box.getMincx box = a).
  { unfold Box.getMincx, box. cbn. replace (16 * a) with (16 * a + 0) by lia.
    by apply shiftr_4_aligned. }
  assert (Hx1 : Box.getMaxcx box = a + n).
  { unfold Box.getMaxcx, box. cbn.
    replace (16 * a + 16 * n - 1) with (16 * (a + n - 1) + 15) by lia.
    rewrite shiftr_4_aligned by lia. lia. }
  assert (Hz0 : Box.getMincz box = b).
  { unfold Box.getMincz, box. cbn. replace (16 * b) with (16 * b + 0) by lia.
    by apply shiftr_4_aligned. }
  assert (Hz1 : Box.getMaxcz box = b + m).
  { unfold Box.getMaxcz, box. cbn.
    replace (16 * b + 16 * m - 1) with (16 * (b + m - 1) + 15) by lia.
    rewrite shiftr_4_aligned by lia. lia. }
  split; [done|]. split; [done|]. split; [done|]. split; [done|].
  intros cx cz. unfold slice_at. rewrite Hx0, Hx1, Hz0, Hz1.
  unfold Box.getMinx, Box.getMaxx, Box.getMinz, Box.getMaxz, Box.getMiny, Box.getMaxy, box.
  cbn [Box.origin Box.size Box.v0 Box.v1 Box.v2].
  rewrite !Z.shiftl_mul_pow2 by lia. change (2 ^ 4) with 16.
  replace (16 * a - a * 16) with 0 by lia.
  replace (16 * a + 16 * n - (a + n) * 16 + 16) with 16 by lia.
  replace (16 * b - b * 16) with 0 by lia.
  replace (16 * b + 16 * m - (b + m) * 16 + 16) with 16 by lia.
  rewrite !(if_same_Z _ 0), !(if_same_Z _ 16).
  do 2 f_equal; [f_equal; lia|lia].
Qed.

Lemma slice_at_fields (box : Box.BoundingBox) (k : Z * Z) :
  cs_chunk (slice_at box k) = k
  ∧ (cs_slices (slice_at box k)).2 = mkSlice (Box.getMiny box) (Box.getMaxy box).
Proof. by destruct k. Qed.

(** C4: in a store whose chunks can all be loaded, [getChunkSlices] ends
    without an exception and yields one value for every chunk position of
    the box that is in the store, and none for the others; the third
    slice of every value is the vertical range of the box. When the box
    is made of [n] by [m] whole chunks that are all in the store, it
    yields [n * m] values, each with the slices 0..16 in x and z, and
    every column of the box is covered by exactly one of them. *)
Theorem getChunkSlices_tiling w (box : Box.BoundingBox) :
  store_loads w →
  ∃ w' ts,
    getChunkSlices box w = (Ok ts, w')
    ∧ ts = slice_at box <$> filter (λ k, is_Some (presentChunks w !! k))
                                   (Box.chunkPositions box)
    ∧ (∀ t, t ∈ ts →
         (cs_slices t).2 = mkSlice (Box.getMiny box) (Box.getMaxy box))
    ∧ (∀ t, t ∈ ts → is_Some (presentChunks w !! cs_chunk t))
    ∧ (∀ a b y0 n m h,
         0 ≤ n → 0 ≤ m →
         box = Box.mkBox (Box.Vec3 (16 * a) y0 (16 * b))
                         (Box.Vec3 (16 * n) h (16 * m)) →
         (∀ cx cz, a ≤ cx < a + n → b ≤ cz < b + m →
                   is_Some (presentChunks w !! (cx, cz))) →
         length ts = Z.to_nat (n * m)
         ∧ (∀ t, t ∈ ts →
              cs_slices t = (mkSlice 0 16, mkSlice 0 16, mkSlice y0 (y0 + h)))
         ∧ ∀ x z, 0 ≤ x < 16 * n → 0 ≤ z < 16 * m →
             length (filter (λ t, covers t x z) ts) = 1%nat).
Proof.
  intros Hw. destruct (getChunkSlices_run w box Hw) as (w' & Hrun & _).
  rewrite (yielded_positions box (presentChunks w)) in Hrun.
  exists w'. eexists. split; [exact Hrun|]. split; [done|]. split; [|split].
  - intros t (k & -> & _)%list_elem_of_fmap. apply slice_at_fields.
  - intros t (k & -> & Hk)%list_elem_of_fmap.
    apply list_elem_of_filter in Hk as [Hk _].
    by rewrite (proj1 (slice_at_fields box k)).
  - intros a b y0 n m h Hn Hm -> Hall.
    destruct (aligned_box a b y0 n m h Hn Hm) as (Hx0 & Hx1 & Hz0 & Hz1 & Hslice).
    unfold range. rewrite Hx0, Hx1, Hz0, Hz1.
    replace (a + n - a) with n by lia. replace (b + m - b) with m by lia.
    rewrite (filter_all _ (seqZ a n ≫= _)).
    2:{ apply Forall_forall. intros [cx cz] Hin.
        apply elem_of_product in Hin as [Hcx Hcz].
        apply elem_of_seqZ in Hcx, Hcz. by apply Hall. }
    split; [|split].
    + rewrite length_fmap, product_length, !length_seqZ. lia.
    + intros t ([cx cz] & -> & _)%list_elem_of_fmap. by rewrite Hslice.
    + intros x z Hx Hz. rewrite filter_fmap_comp, length_fmap.
      apply (filter_unique_length _ _ (a + x `div` 16, b + z `div` 16)).
      * apply NoDup_product; apply NoDup_seqZ.
      * apply elem_of_product. rewrite !elem_of_seqZ.
        pose proof (Z.div_pos x 16). pose proof (Z.div_lt_upper_bound x 16 n).
        pose proof (Z.div_pos z 16). pose proof (Z.div_lt_upper_bound z 16 m).
        lia.
      * unfold covers. rewrite Hslice. cbn.
        pose proof (Z.div_mod x 16). pose proof (Z.mod_pos_bound x 16).
        pose proof (Z.div_mod z 16). pose proof (Z.mod_pos_bound z 16).
        lia.
      * intros [cx cz] _. unfold covers. rewrite Hslice. cbn.
        intros [Hcx Hcz]. f_equal.
        -- assert (x `div` 16 = cx - a); [|lia].
           symmetry. apply (Z.div_unique x 16 (cx - a) (x - 16 * (cx - a))); lia.
        -- assert (z `div` 16 = cz - b); [|lia].
           symmetry. apply (Z.div_unique z 16 (cz - b) (z - 16 * (cz - b))); lia.
Qed.

End chunk_slices.

(* ------------------------------------------------------------------ *)
(** ** Properties of the state kept by monadic code                    *)
(* ------------------------------------------------------------------ *)

Section preserving.
Context {S : Type} (I : S → Prop).

Lemma preserves_ret {A} (a : A) : preserves I (ret a).
Proof. by intros s. Qed.

Lemma preserves_raise {A} (e : exn) : preserves I (raise (A:=A) e).
Proof. by intros s. Qed.

Lemma preserves_lift_result {A} (r : result A) : preserves I (lift_result r).
Proof. by intros s. Qed.

Lemma preserves_assert (b : bool) : preserves I (assert b).
Proof. by destruct b; intros s. Qed.

Lemma preserves_get_state : preserves I get_state.
Proof. by intros s. Qed.

Lemma preserves_bind {A B} (m : M S A) (k : A → M S B) :
  preserves I m → (∀ a, preserves I (k a)) → preserves I (bind m k).
Proof.
  intros Hm Hk s Hs. unfold bind. specialize (Hm s Hs).
  destruct (m s) as [[a|e] s1]; [|done]. by apply Hk.
Qed.

Lemma preserves_try_except {A} (m h : M S A) (handled : exn → bool) :
  preserves I m → preserves I h → preserves I (try_except m handled h).
Proof.
  intros Hm Hh s Hs. unfold try_except. specialize (Hm s Hs).
  destruct (m s) as [[a|e] s1]; [done|]. destruct (handled e); [|done].
  by apply Hh.
Qed.

Lemma preserves_for_each {A} (l : list A) (body : A → M S unit) :
  (∀ x, preserves I (body x)) → preserves I (for_each l body).
Proof.
  intros Hbody. induction l as [|x l IH]; [apply preserves_ret|].
  cbn [for_each]. apply preserves_bind; [apply Hbody|intros _; exact IH].
Qed.

End preserving.

(** Goals of the form [preserves I m], by the structure of [m]. *)
Ltac preserving :=
  repeat first
    [ apply preserves_ret | apply preserves_raise | apply preserves_lift_result
    | apply preserves_assert | apply preserves_get_state
    | apply preserves_bind; [|intros ?]
    | apply preserves_try_except
    | apply preserves_for_each; intros ?
    | match goal with
      | |- preserves _ (if ?b then _ else _) => destruct b
      | |- preserves _ (match ?x with _ => _ end) => destruct x
      end
    | assumption ].

(* ------------------------------------------------------------------ *)
(** ** Light values stay between 0 and 15                              *)
(* ------------------------------------------------------------------ *)

Section light_range.
Context {codec : Codec} {materials : Materials}.

Lemma clamp_light (v : Z) : clamp v ≤ 15.
Proof. unfold clamp. destruct (Z.ltb_spec 15 v); lia. Qed.

Lemma merge_light sel newlight (a : arr3) :
  Forall3 is_light a → Forall3 is_light (merge sel newlight a).
Proof.
  intros Ha. unfold merge. apply Forall3_upd3; [|done].
  intros x z y v Hv. destruct (sel x z y); [|done].
  pose proof (clamp_light (newlight x z y)). unfold is_light in *. lia.
Qed.

Lemma preserves_same {S A} (I : S → Prop) (m : M S A) :
  (∀ s, snd (m s) = s) → preserves I m.
Proof. intros Hm s Hs. by rewrite Hm. Qed.

Lemma level_compound_state s : snd (level_compound s) = s.
Proof.
  destruct s as [fs c]. unfold level_compound, bind, get_self. cbn.
  by destruct (root_tag c) as [[[lv|]]|].
Qed.

Lemma tag_value_state key s : snd (tag_value key s) = s.
Proof.
  unfold tag_value, bind. pose proof (level_compound_state s) as Hs.
  destruct (level_compound s) as [[lv|e] s1]; cbn in Hs; subst s1; [|done].
  by destruct (lv !! key) as [[a|l]|].
Qed.

Lemma chunk_array_state {S} (a : ndarray) (s : S) : snd (chunk_array a s) = s.
Proof.
  unfold chunk_array. destruct a as [l|l|l]; try done. by case_decide.
Qed.

Lemma decompress_pres : preserves Ic decompress.
Proof.
  intros [fs c] Hc. unfold Ic in *. cbn [snd] in Hc.
  pose proof Hc as (lv & _ & _ & Hr & _).
  by rewrite (decompress_loaded fs c _ Hr).
Qed.

Lemma load_pres : preserves Ic load.
Proof.
  intros [fs c] Hc. unfold Ic in *. cbn [snd] in Hc.
  pose proof Hc as (lv & bl & sl & Hr & Hrest).
  unfold load, bind at 1. cbn [get_self snd].
  destruct (compressedTag c) as [blob|] eqn:Hb.
  - unfold bind at 1, ret at 1. unfold bind, get_self. cbn [fst snd].
    by rewrite Hr.
  - unfold bind at 1. unfold bind at 1, read_file. cbn [fst snd].
    destruct (fs !! filename c) as [content|]; [|done].
    unfold modify_self. cbn [fst snd]. unfold bind, get_self. cbn [fst snd].
    cbn [root_tag set_compressedTag]. rewrite Hr.
    cbn. by exists lv, bl, sl.
Qed.

Lemma tag_value_loaded fs c lv key :
  root_tag c = Some (mkRoot (Some lv)) →
  tag_value key (fs, c)
  = (match lv !! key with
     | None => Raise KeyError
     | Some (TAG_Byte_Array a) => Ok a
     | Some (TAG_List _) => Raise AttributeError
     end, (fs, c)).
Proof.
  intros Hr. unfold tag_value.
  rewrite (bind_ok _ _ _ _ _ (level_compound_eq fs c lv Hr)).
  by destruct (lv !! key) as [[a|l]|].
Qed.

Lemma modify_tag3_pres key (f : arr3 → arr3) :
  (∀ a, Forall3 is_light a → Forall3 is_light (f a)) →
  preserves Ic (modify_tag3 key f).
Proof.
  intros Hf [fs c] Hc. unfold Ic in *. cbn [snd] in Hc.
  pose proof Hc as (lv & bl & sl & Hr & Hb & Hs & Rb & Rs).
  unfold modify_tag3. unfold bind at 1. rewrite (tag_value_loaded fs c lv key Hr).
  destruct (lv !! key) as [[a|l]|] eqn:Hk; try done.
  unfold bind at 1, chunk_array.
  destruct a as [l|l|l]; try done. case_decide; [|done].
  unfold ret at 1.
  rewrite (set_tag_eq fs c lv key _ Hr). cbn [snd].
  destruct (decide (key = BlockLight)) as [->|Hnb].
  - exists (<[BlockLight := TAG_Byte_Array (A3 (f l))]> lv), (f l), sl.
    rewrite Hb in Hk. injection Hk as <-.
    split; [done|]. split; [apply lookup_insert_eq|].
    split; [by rewrite lookup_insert_ne|]. split; [by apply Hf|done].
  - destruct (decide (key = SkyLight)) as [->|Hns].
    + exists (<[SkyLight := TAG_Byte_Array (A3 (f l))]> lv), bl, (f l).
      rewrite Hs in Hk. injection Hk as <-.
      split; [done|]. split; [by rewrite lookup_insert_ne|].
      split; [apply lookup_insert_eq|]. split; [done|by apply Hf].
    + exists (<[key := TAG_Byte_Array (A3 (f l))]> lv), bl, sl.
      split; [done|]. by rewrite !lookup_insert_ne.
Qed.

Lemma with_chunk_pres {A} k0 k (m : M (gmap string (list Z) * InfdevChunk) A) :
  preserves Ic m → preserves (Iw k0) (with_chunk k m).
Proof.
  intros Hm w (c0 & Hk0 & Hc0). unfold with_chunk.
  destruct (presentChunks w !! k) as [c|] eqn:Hk; [|by exists c0].
  destruct (m (files w, c)) as [r [fs c']] eqn:Hrun.
  unfold Iw, lights_ok. cbn [snd presentChunks].
  destruct (decide (k = k0)) as [->|Hne].
  - exists c'. split; [apply lookup_insert_eq|].
    rewrite Hk in Hk0. injection Hk0 as ->.
    specialize (Hm (files w, c0) Hc0). by rewrite Hrun in Hm.
  - exists c0. split; [by rewrite lookup_insert_ne|done].
Qed.

Lemma in_world_pres {A} k0 (m : M World A) :
  preserves (Iw k0) m → preserves (Il k0) (in_world m).
Proof.
  intros Hm [w z] Hw. unfold in_world. cbn [fst].
  specialize (Hm w Hw). by destruct (m w) as [r w'].
Qed.

Lemma getChunk_pres k0 cx cz : preserves (Iw k0) (getChunk cx cz).
Proof.
  unfold getChunk, containsChunk. preserving.
  apply with_chunk_pres, load_pres.
Qed.

Lemma property_pres key : preserves Ic (decompress ;;; tag_value key).
Proof.
  apply preserves_bind; [apply decompress_pres|intros _].
  apply preserves_same, tag_value_state.
Qed.

Lemma ref_light_pres k0 light r : preserves (Il k0) (ref_light light r).
Proof.
  destruct r as [k|]; [|by intros s].
  unfold ref_light. apply preserves_bind.
  - apply in_world_pres, with_chunk_pres, property_pres.
  - intros a. apply preserves_same. intros s. apply chunk_array_state.
Qed.

Lemma ref_blocks_pres k0 r : preserves (Il k0) (ref_blocks r).
Proof.
  destruct r as [k|]; [|by intros s].
  unfold ref_blocks. apply preserves_bind.
  - apply in_world_pres, with_chunk_pres, property_pres.
  - intros a. apply preserves_same. intros s. apply chunk_array_state.
Qed.

Lemma modify_light_pres k0 light r (f : arr3 → arr3) :
  (∀ a, Forall3 is_light a → Forall3 is_light (f a)) →
  preserves (Il k0) (modify_light light r f).
Proof.
  intros Hf. destruct r as [k|]; [|by intros s].
  unfold modify_light. apply in_world_pres, with_chunk_pres.
  apply preserves_bind; [apply decompress_pres|intros _].
  by apply modify_tag3_pres.
Qed.

Lemma neighbor_pres k0 cx cz : preserves (Il k0) (neighbor cx cz).
Proof.
  unfold neighbor. apply preserves_bind.
  { apply in_world_pres. by apply preserves_same. }
  intros present. destruct (negb present); [apply preserves_ret|].
  apply preserves_bind; [apply in_world_pres, getChunk_pres|intros k].
  apply preserves_bind.
  { apply in_world_pres, with_chunk_pres. by apply preserves_same. }
  intros loaded. preserving.
Qed.

Lemma push_out_pres k0 light k nc sel src :
  preserves (Il k0) (push_out light k nc sel src).
Proof.
  unfold push_out.
  apply preserves_bind; [apply ref_light_pres|intros _].
  apply preserves_bind; [apply ref_light_pres|intros chunkLight].
  apply preserves_bind; [apply ref_blocks_pres|intros ncBlocks].
  apply modify_light_pres. intros a. apply merge_light.
Qed.

Lemma pull_in_pres k0 light k nc chunkLa sel src :
  preserves (Il k0) (pull_in light k nc chunkLa sel src).
Proof.
  unfold pull_in.
  apply preserves_bind; [apply ref_light_pres|intros ncLight].
  apply modify_light_pres. intros a. apply merge_light.
Qed.

Lemma chunk_body_pres k0 light k chunkLa sel src :
  preserves (Il k0) (chunk_body light k chunkLa sel src).
Proof.
  unfold chunk_body. apply modify_light_pres. intros a. apply merge_light.
Qed.

Lemma reset_zero_pres k0 light : preserves (Il k0) (reset_zero light).
Proof. by intros s. Qed.

(** One chunk of one pass keeps the lights of every chunk in range. *)
Lemma light_chunk_pres k0 light k : preserves (Il k0) (light_chunk light k).
Proof.
  unfold light_chunk.
  apply preserves_bind.
  { apply in_world_pres, with_chunk_pres. by apply preserves_same. }
  intros c. destruct (chunkPosition c) as [cx cz].
  repeat (apply preserves_bind; [apply neighbor_pres|intros ?]).
  apply preserves_bind; [apply ref_blocks_pres|intros blocks].
  apply preserves_bind; [apply ref_light_pres|intros _].
  repeat (apply preserves_bind;
          [first [apply push_out_pres | apply pull_in_pres
                 | apply chunk_body_pres | apply reset_zero_pres]|intros _]).
  apply reset_zero_pres.
Qed.

Lemma passes_pres k0 light n dirtyChunks :
  preserves (Il k0) (passes light n dirtyChunks).
Proof.
  unfold passes. apply preserves_for_each. intros i.
  apply preserves_for_each. intros k. apply light_chunk_pres.
Qed.

(** *** The first loop of [generateLights] puts the lights in range *)

Lemma Forall3_upd3_all (P : Z → Prop) (g : nat → nat → nat → Z → Z) (a : arr3) :
  (∀ x z y v, P (g x z y v)) → Forall3 P (upd3 (λ _ _ _, true) g a).
Proof.
  intros Hg. unfold upd3, Forall3.
  apply Forall_lookup. intros x p Hp. rewrite list_lookup_imap in Hp.
  destruct (a !! x) as [p0|]; [|done]. cbn in Hp. injection Hp as <-.
  apply Forall_lookup. intros z c Hc. rewrite list_lookup_imap in Hc.
  destruct (p0 !! z) as [c0|]; [|done]. cbn in Hc. injection Hc as <-.
  apply Forall_lookup. intros y v Hv. rewrite list_lookup_imap in Hv.
  destruct (c0 !! y); [|done]. cbn in Hv. injection Hv as <-. apply Hg.
Qed.

Lemma set_tag_inv key v s s' :
  set_tag key v s = (Ok tt, s') →
  ∃ lv, root_tag (snd s) = Some (mkRoot (Some lv))
        ∧ s' = (fst s, with_level (<[key := v]> lv) (snd s)).
Proof.
  destruct s as [fs c]. unfold set_tag, level_compound, bind, get_self. cbn.
  destruct (root_tag c) as [[[lv|]]|] eqn:Hr; cbn; try done.
  intros [= <-]. by exists lv.
Qed.

Lemma set_tag_value_inv key a s s' :
  set_tag_value key a s = (Ok tt, s') →
  ∃ lv, root_tag (snd s) = Some (mkRoot (Some lv))
        ∧ s' = (fst s, with_level (<[key := TAG_Byte_Array a]> lv) (snd s)).
Proof.
  intros H. apply bind_ok_inv in H as (a0 & s1 & Ht & Hs).
  apply tag_value_inv in Ht as [-> _]. by apply set_tag_inv.
Qed.

Lemma genFastLights_sky s s' :
  genFastLights s = (Ok tt, s') → sky_ok (snd s').
Proof.
  unfold genFastLights. intros H.
  apply bind_ok_inv in H as (sky & s1 & _ & H).
  apply bind_ok_inv in H as (sky3 & s2 & _ & H).
  apply bind_ok_inv in H as ([] & s3 & _ & H).
  apply bind_ok_inv in H as (blocks & s4 & _ & H).
  apply bind_ok_inv in H as (blocks3 & s5 & _ & H).
  apply bind_ok_inv in H as (hm & s6 & _ & H).
  apply bind_ok_inv in H as (hm2 & s7 & _ & H).
  apply bind_ok_inv in H as (sky' & s8 & Hfast & H).
  apply set_tag_value_inv in H as (lv & Hr & ->).
  match type of Hfast with
  | lift_result ?r _ = _ =>
      assert (Hf : r = Ok sky') by (unfold lift_result in Hfast; congruence)
  end.
  exists (<[SkyLight := TAG_Byte_Array (A3 sky')]> lv), sky'.
  split; [done|]. split; [apply lookup_insert_eq|].
  eapply fast_lights_light; [|exact Hf]. apply zeroed_light.
Qed.

Lemma chunkChanged_sky s s' :
  chunkChanged true s = (Ok tt, s') →
  sky_ok (snd s')
  ∨ (s' = s ∧ root_tag (snd s) = None ∧ compressedTag (snd s) = None).
Proof.
  destruct s as [fs c]. unfold chunkChanged, bind at 1. cbn [get_self snd].
  destruct (root_tag c) as [t|] eqn:Hr; [|destruct (compressedTag c) eqn:Hb].
  - intros H. left.
    apply bind_ok_inv in H as ([] & s1 & _ & H).
    apply bind_ok_inv in H as ([] & s2 & _ & H).
    apply bind_ok_inv in H as ([] & s3 & _ & H).
    apply bind_ok_inv in H as ([] & s4 & _ & H).
    by eapply genFastLights_sky.
  - intros H. left.
    apply bind_ok_inv in H as ([] & s2 & _ & H).
    apply bind_ok_inv in H as ([] & s3 & _ & H).
    apply bind_ok_inv in H as ([] & s4 & _ & H).
    by eapply genFastLights_sky.
  - intros [= <-]. by right.
Qed.

Lemma property_state key fs c t r s' :
  root_tag c = Some t → (decompress ;;; tag_value key) (fs, c) = (r, s') → s' = (fs, c).
Proof.
  intros Hr. rewrite (bind_ok _ _ _ _ _ (decompress_loaded fs c t Hr)).
  intros H. pose proof (tag_value_state key (fs, c)) as Hs.
  rewrite H in Hs. done.
Qed.

Lemma property_unloaded key fs c :
  root_tag c = None → compressedTag c = None →
  (decompress ;;; tag_value key) (fs, c) = (Raise TypeError, (fs, c)).
Proof.
  intros Hr Hb.
  assert (Hd : decompress (fs, c) = (Ok tt, (fs, c))).
  { unfold decompress, bind, get_self. cbn [snd]. by rewrite Hr, Hb. }
  rewrite (bind_ok _ _ _ _ _ Hd).
  unfold tag_value, level_compound, bind, get_self. cbn [snd]. by rewrite Hr.
Qed.

Lemma init_lights_ok s s' :
  (∀ b, is_light (lightEmission b)) →
  init_lights s = (Ok tt, s') → chunk_lights_ok (snd s').
Proof.
  intros Hem. unfold init_lights. intros H.
  apply bind_ok_inv in H as ([] & s1 & _ & H).
  apply bind_ok_inv in H as ([] & s2 & Hchanged & H).
  apply bind_ok_inv in H as (c2 & s2' & Hself & H).
  injection Hself as <- <-.
  apply bind_ok_inv in H as ([] & s2' & Hassert & H).
  assert (s2' = s2) as ->.
  { destruct (_ && _); cbn in Hassert; [by injection Hassert|done]. }
  clear Hassert.
  apply bind_ok_inv in H as (blocks & s3 & Hblocks & H).
  apply bind_ok_inv in H as (blocks3 & s3' & Harr & H).
  assert (s3' = s3) as ->.
  { pose proof (chunk_array_state blocks s3) as Hs. by rewrite Harr in Hs. }
  apply bind_ok_inv in H as ([] & s4 & Hdec & H).
  destruct s2 as [fs c2].
  apply chunkChanged_sky in Hchanged as [Hsky|(<- & Hr & Hb)].
  2:{ cbn [snd] in Hr, Hb. unfold getBlocks in Hblocks.
      by rewrite (property_unloaded Blocks fs c2 Hr Hb) in Hblocks. }
  cbn [snd] in Hsky. destruct Hsky as (lv & sl & Hr & Hs & Rs).
  apply (property_state Blocks fs c2 _ _ _ Hr) in Hblocks as ->.
  rewrite (decompress_loaded fs c2 _ Hr) in Hdec. injection Hdec as <-.
  unfold modify_tag3 in H. unfold bind at 1 in H.
  rewrite (tag_value_loaded fs c2 lv BlockLight Hr) in H.
  destruct (lv !! BlockLight) as [[a|l]|] eqn:Hb; try done.
  unfold bind at 1, chunk_array in H.
  destruct a as [l|l|l]; try done. case_decide; [|done].
  unfold ret at 1 in H. rewrite (set_tag_eq fs c2 lv BlockLight _ Hr) in H.
  injection H as <-. cbn [snd].
  eexists _, _, sl. split; [done|]. split; [apply lookup_insert_eq|].
  split; [by rewrite lookup_insert_ne|]. split; [|done].
  apply Forall3_upd3_all. intros x z y _.
  specialize (Hem (get3 blocks3 x z y)). unfold is_light, u8 in *.
  rewrite Z.mod_small; lia.
Qed.

Lemma with_chunk_frame {A} k k0 (m : M (gmap string (list Z) * InfdevChunk) A) w :
  k ≠ k0 → presentChunks (snd (with_chunk k m w)) !! k0 = presentChunks w !! k0.
Proof.
  intros Hne. unfold with_chunk.
  destruct (presentChunks w !! k) as [c|]; [|done].
  destruct (m (files w, c)) as [r [fs c']]. cbn. by rewrite lookup_insert_ne.
Qed.

Lemma init_lights_all (dirtyChunks : list (Z * Z)) w w' k :
  (∀ b, is_light (lightEmission b)) →
  for_each dirtyChunks (λ k, with_chunk k init_lights) w = (Ok tt, w') →
  k ∈ dirtyChunks ∨ lights_ok k w → lights_ok k w'.
Proof.
  intros Hem. revert w. induction dirtyChunks as [|x l IH]; intros w Hrun Hk.
  - injection Hrun as <-. destruct Hk as [Hk|Hk]; [by apply elem_of_nil in Hk|done].
  - cbn [for_each] in Hrun. apply bind_ok_inv in Hrun as ([] & w1 & Hx & Hl).
    apply (IH w1 Hl).
    destruct (decide (k = x)) as [->|Hne].
    + right. apply with_chunk_inv in Hx as [(c & fs & c' & Hc & Hm & ->)|(_ & ? & _)];
        [|done].
      exists c'. split; [apply lookup_insert_eq|].
      by apply (init_lights_ok _ _ Hem Hm).
    + destruct Hk as [Hk|(c & Hc & Hok)].
      * apply elem_of_cons in Hk as [?|Hk]; [done|by left].
      * right. exists c. split; [|done].
        pose proof (with_chunk_frame x k init_lights w (not_eq_sym Hne)) as Hf.
        rewrite Hx in Hf. cbn [snd] in Hf. by rewrite Hf.
Qed.

(** C3: when the light emission table holds light values, then after the
    first loop of [generateLights] and after any number [n1] of
    block-light passes followed by any number [n2] of sky-light passes,
    whether the last of them was completed or left by an exception, both
    light arrays of every chunk that is being lit hold values between 0
    and 15. *)
Theorem generateLights_light_range (dirtyChunks : list (Z * Z)) (w w0 : World)
    (zero : arr3) (n1 n2 : nat) (k : Z * Z) :
  (∀ b, is_light (lightEmission b)) →
  for_each dirtyChunks (λ k, with_chunk k init_lights) w = (Ok tt, w0) →
  k ∈ dirtyChunks →
  lights_ok k w0
  ∧ lights_ok k
      (fst (snd ((passes BlockLight n1 dirtyChunks ;;;
                  passes SkyLight n2 dirtyChunks) (w0, zero)))).
Proof.
  intros Hem Hinit Hk.
  assert (H0 : lights_ok k w0) by (eapply init_lights_all; eauto).
  split; [done|].
  apply (preserves_bind (Il k)); [apply passes_pres|intros _; apply passes_pres|].
  exact H0.
Qed.

End light_range.

(* ------------------------------------------------------------------ *)
(** ** The statements on the sample world                              *)
(* ------------------------------------------------------------------ *)

Section sample_facts.

Lemma has_shape3_replicate (n0 n1 n2 : nat) (v : Z) :
  has_shape3 n0 n1 n2 (replicate n0 (replicate n1 (replicate n2 v))).
Proof.
  split; [apply length_replicate|].
  apply Forall_replicate. split; [apply length_replicate|].
  apply Forall_replicate, length_replicate.
Qed.

Lemma has_shape2_replicate (n0 n1 : nat) (v : Z) :
  has_shape2 n0 n1 (replicate n0 (replicate n1 v)).
Proof.
  split; [apply length_replicate|]. apply Forall_replicate, length_replicate.
Qed.

Lemma Forall3_replicate (P : Z → Prop) (n0 n1 n2 : nat) (v : Z) :
  P v → Forall3 P (replicate n0 (replicate n1 (replicate n2 v))).
Proof. intros Hv. by do 3 apply Forall_replicate. Qed.

Lemma sample_level_arrays :
  Sample.level !! Blocks = Some (TAG_Byte_Array (A3 (zeros3 16 16 128)))
  ∧ Sample.level !! HeightMap = Some (TAG_Byte_Array (A2 (zeros2 16 16)))
  ∧ Sample.level !! SkyLight = Some (TAG_Byte_Array (A3 (zeros3 16 16 128)))
  ∧ Sample.level !! BlockLight = Some (TAG_Byte_Array (A3 (zeros3 16 16 128))).
Proof.
  unfold Sample.level. split; [|split; [|split]].
  - apply lookup_insert_eq.
  - rewrite lookup_insert_ne by done. apply lookup_insert_eq.
  - rewrite !lookup_insert_ne by done. apply lookup_insert_eq.
  - rewrite !lookup_insert_ne by done. apply lookup_insert_eq.
Qed.

Lemma sample_packed_arrays :
  Sample.packed_level !! SkyLight = Some (TAG_Byte_Array (A3 Sample.packed))
  ∧ Sample.packed_level !! BlockLight = Some (TAG_Byte_Array (A3 Sample.packed))
  ∧ Sample.packed_level !! Data = Some (TAG_Byte_Array (A3 Sample.packed)).
Proof.
  unfold Sample.packed_level. split; [|split].
  - apply lookup_insert_eq.
  - rewrite lookup_insert_ne by done. apply lookup_insert_eq.
  - rewrite !lookup_insert_ne by done. apply lookup_insert_eq.
Qed.

Lemma sample_raw_level :
  well_formed_level Sample.raw_level
    (Sample.flat (16 * 16 * 128)) (Sample.flat (16 * 16))
    (Sample.flat (16 * 16 * 64)) (Sample.flat (16 * 16 * 64))
    (Sample.flat (16 * 16 * 64)).
Proof.
  unfold well_formed_level, Sample.raw_level, Sample.flat.
  split; [apply lookup_insert_eq|].
  split; [rewrite lookup_insert_ne by done; apply lookup_insert_eq|].
  split; [rewrite !lookup_insert_ne by done; apply lookup_insert_eq|].
  split; [rewrite !lookup_insert_ne by done; apply lookup_insert_eq|].
  split; [rewrite !lookup_insert_ne by done; apply lookup_insert_eq|].
  cbn [flatten]. split; [|split; [|split; [|split]]]; apply length_replicate.
Qed.

End sample_facts.

Section loaded_chunks.
Context {codec : Codec} {materials : Materials}.

(** A chunk property read through the store on a materialized chunk. *)
Lemma chunk_property_world (key : string) w cx cz c lv blob a :
  presentChunks w !! (cx, cz) = Some c →
  root_tag c = Some (mkRoot (Some lv)) → compressedTag c = Some blob →
  lv !! key = Some (TAG_Byte_Array a) →
  (let! k := getChunk cx cz in with_chunk k (decompress ;;; tag_value key)) w
  = (Ok a, w).
Proof.
  intros Hk Hr Hb Hl.
  assert (Hg : getChunk cx cz w = (Ok (cx, cz), w)).
  { rewrite (getChunk_present w cx cz c (Ok tt) (files w) c Hk)
      by (by eapply load_loaded).
    by rewrite insert_id, world_eta. }
  rewrite (bind_ok _ _ _ _ _ Hg).
  apply (with_chunk_same _ w _ c); [done|]. by eapply property_loaded.
Qed.

(** The first loop of [generateLights] goes through on a materialized
    chunk with arrays of the right shapes. *)
Lemma init_lights_loaded fs c lv blob blocks hm sky bl :
  root_tag c = Some (mkRoot (Some lv)) → compressedTag c = Some blob →
  lv !! Blocks = Some (TAG_Byte_Array (A3 blocks)) →
  lv !! HeightMap = Some (TAG_Byte_Array (A2 hm)) →
  lv !! SkyLight = Some (TAG_Byte_Array (A3 sky)) →
  lv !! BlockLight = Some (TAG_Byte_Array (A3 bl)) →
  has_shape3 16 16 128 blocks → has_shape2 16 16 hm →
  has_shape3 16 16 128 sky → has_shape3 16 16 128 bl →
  ∃ c', init_lights (fs, c) = (Ok tt, (fs, c')).
Proof.
  intros Hr Hc Hb Hh Hs Hl Sb Sh Ss Sl.
  destruct (chunkChanged_loaded fs c true lv blocks hm sky)
    as (lv' & hm' & Hrun & _ & _ & Hframe); try done.
  set (c1 := with_level lv' (set_needsLighting true (set_dirty true
               (set_needsCompression true c)))) in *.
  assert (Hb' : lv' !! Blocks = Some (TAG_Byte_Array (A3 blocks)))
    by (by rewrite Hframe).
  assert (Hl' : lv' !! BlockLight = Some (TAG_Byte_Array (A3 bl)))
    by (by rewrite Hframe).
  assert (Hr1 : root_tag c1 = Some (mkRoot (Some lv'))) by done.
  eexists. unfold init_lights.
  rewrite (bind_ok _ _ _ _ _ (load_loaded fs c _ blob Hr Hc)).
  rewrite (bind_ok _ _ _ _ _ Hrun).
  unfold bind at 1. cbn [get_self snd].
  unfold bind at 1. cbn [assert dirty needsCompression needsLighting c1 with_level
                           set_root_tag set_needsLighting set_dirty
                           set_needsCompression andb]. unfold ret at 1.
  fold c1. unfold getBlocks.
  rewrite (bind_ok _ _ _ _ _ (property_loaded fs c1 lv' Blocks _ Hr1 Hb')).
  unfold bind at 1, chunk_array at 1. rewrite decide_True by done. unfold ret at 1.
  rewrite (bind_ok _ _ _ _ _ (decompress_loaded fs c1 _ Hr1)).
  unfold modify_tag3. unfold bind at 1.
  rewrite (tag_value_loaded fs c1 lv' BlockLight Hr1), Hl'.
  unfold bind at 1, chunk_array at 1. rewrite decide_True by done. unfold ret at 1.
  by rewrite (set_tag_eq fs c1 lv' BlockLight _ Hr1).
Qed.

End loaded_chunks.

Section witnesses.

Lemma sample_store_loads : store_loads (codec := Sample.codec) Sample.world.
Proof.
  intros k c Hk. unfold Sample.world in Hk. cbn [presentChunks] in Hk.
  apply lookup_singleton_Some in Hk as [_ <-].
  destruct sample_level_arrays as (Hb & _).
  exists Sample.loaded_chunk, Sample.level, (A3 (zeros3 16 16 128)), Sample.blob.
  split; [|done]. by eapply load_loaded.
Qed.

Lemma sample_init_lights :
  ∃ w0, for_each [(0, 0)]
          (λ k, with_chunk k (init_lights (codec := Sample.codec)
                                (materials := Sample.materials))) Sample.world
        = (Ok tt, w0).
Proof.
  destruct sample_level_arrays as (Hb & Hh & Hs & Hl).
  destruct (init_lights_loaded (codec := Sample.codec) (materials := Sample.materials)
              ∅ Sample.loaded_chunk Sample.level Sample.blob
              (zeros3 16 16 128) (zeros2 16 16) (zeros3 16 16 128) (zeros3 16 16 128)
              eq_refl eq_refl Hb Hh Hs Hl
              (has_shape3_replicate 16 16 128 0) (has_shape2_replicate 16 16 0)
              (has_shape3_replicate 16 16 128 0) (has_shape3_replicate 16 16 128 0))
    as [c' Hc'].
  exists (mkWorld (<[(0, 0) := c']> (presentChunks Sample.world)) ∅).
  cbn [for_each].
  rewrite (bind_ok _ _ _ _ _
             (with_chunk_eq _ Sample.world (0, 0) Sample.loaded_chunk (Ok tt) ∅ c'
                eq_refl Hc')).
  reflexivity.
Qed.

Lemma sample_air_column (y : nat) (b : Z) :
  column (zeros3 16 16 128) 0 0 !! y = Some b → b = 0.
Proof.
  change (column (zeros3 16 16 128) 0 0) with (replicate 128 0).
  by intros [-> _]%lookup_replicate.
Qed.

Lemma getChunk_malformed_stays_witness :
  getChunk (codec := Sample.codec) 0 0 Sample.malformed_world
  = (Ok (0, 0), Sample.malformed_world)
  ∧ presentChunks Sample.malformed_world !! (0, 0) = Some Sample.malformed_chunk.
Proof.
  apply (getChunk_malformed_stays (codec := Sample.codec)
           Sample.malformed_world 0 0 Sample.malformed_chunk [] [] IOError).
  - reflexivity.
  - reflexivity.
  - reflexivity.
  - left. reflexivity.
  - reflexivity.
  - left. reflexivity.
Defined.

Lemma pack_unpack_roundtrip_witness :
  ∃ (c' : InfdevChunk) (lv' : gmap string TagValue) (us ub ud : arr3),
    unpackChunkData (∅, Sample.packed_chunk) = (Ok tt, (∅, c'))
    ∧ root_tag c' = Some (mkRoot (Some lv'))
    ∧ lv' !! SkyLight = Some (TAG_Byte_Array (A3 us))
    ∧ lv' !! BlockLight = Some (TAG_Byte_Array (A3 ub))
    ∧ lv' !! Data = Some (TAG_Byte_Array (A3 ud))
    ∧ nibbles_of Sample.packed us ∧ nibbles_of Sample.packed ub
    ∧ nibbles_of Sample.packed ud
    ∧ packChunkData (∅, c') = (Ok tt, (∅, Sample.packed_chunk)).
Proof.
  apply (pack_unpack_roundtrip ∅ Sample.packed_chunk Sample.packed_level
           Sample.packed Sample.packed Sample.packed).
  - reflexivity.
  - apply sample_packed_arrays.
  - apply sample_packed_arrays.
  - apply sample_packed_arrays.
  - apply has_shape3_replicate.
  - apply has_shape3_replicate.
  - apply has_shape3_replicate.
  - apply Forall3_replicate. unfold is_byte. lia.
  - apply Forall3_replicate. unfold is_byte. lia.
  - apply Forall3_replicate. unfold is_byte. lia.
Defined.

Lemma generateLights_light_range_witness :
  ∃ w0,
    for_each [(0, 0)]
      (λ k, with_chunk k (init_lights (codec := Sample.codec)
                            (materials := Sample.materials))) Sample.world
    = (Ok tt, w0)
    ∧ lights_ok (0, 0) w0
    ∧ lights_ok (0, 0)
        (fst (snd ((passes (codec := Sample.codec) (materials := Sample.materials)
                      BlockLight 16 [(0, 0)] ;;;
                    passes (codec := Sample.codec) (materials := Sample.materials)
                      SkyLight 16 [(0, 0)]) (w0, zeros3 16 16 128)))).
Proof.
  destruct sample_init_lights as [w0 Hinit]. exists w0. split; [exact Hinit|].
  apply (generateLights_light_range (codec := Sample.codec)
           (materials := Sample.materials) [(0, 0)] Sample.world w0
           (zeros3 16 16 128) 16 16 (0, 0)).
  - intros b. unfold is_light. cbn. case_decide; lia.
  - exact Hinit.
  - apply list_elem_of_here.
Defined.

Lemma getChunkSlices_tiling_witness :
  ∃ w' ts,
    getChunkSlices (codec := Sample.codec) Sample.box Sample.world = (Ok ts, w')
    ∧ length ts = 1%nat
    ∧ (∀ t, t ∈ ts → cs_slices t = (mkSlice 0 16, mkSlice 0 16, mkSlice 0 (0 + 128)))
    ∧ ∀ x z, 0 ≤ x < 16 * 1 → 0 ≤ z < 16 * 1 →
        length (filter (λ t, covers t x z) ts) = 1%nat.
Proof.
  destruct (getChunkSlices_tiling (codec := Sample.codec) Sample.world Sample.box
              sample_store_loads)
    as (w' & ts & Hrun & _ & _ & _ & Haligned).
  exists w', ts. split; [exact Hrun|].
  apply (Haligned 0 0 0 1 1 128); [lia|lia|reflexivity|].
  intros cx cz Hcx Hcz. replace cx with 0 by lia. replace cz with 0 by lia.
  by eexists.
Defined.

Lemma generateHeightMap_columns_witness :
  ∃ hm',
    generateHeightMap (codec := Sample.codec) (materials := Sample.materials)
      (∅, Sample.loaded_chunk)
    = (Ok tt, (∅, with_level (<[HeightMap := TAG_Byte_Array (A2 hm')]> Sample.level)
                    Sample.loaded_chunk))
    ∧ cell2 hm' 0 0 = Some 1.
Proof.
  destruct (generateHeightMap_columns (codec := Sample.codec)
              (materials := Sample.materials) ∅ Sample.loaded_chunk Sample.level
              (zeros3 16 16 128) (zeros2 16 16))
    as (hm' & Hrun & Hcells).
  - reflexivity.
  - apply sample_level_arrays.
  - apply sample_level_arrays.
  - apply has_shape3_replicate.
  - apply has_shape2_replicate.
  - exists hm'. split; [exact Hrun|].
    apply (Hcells 0%nat 0%nat); [lia|lia|].
    intros y b Hb. apply sample_air_column in Hb as ->. reflexivity.
Defined.

Lemma chunkChanged_flags_witness :
  chunkChanged (codec := Sample.codec) (materials := Sample.materials) true
    (∅, Sample.unloaded_chunk) = (Ok tt, (∅, Sample.unloaded_chunk))
  ∧ (∃ c' lv' hm',
       chunkChanged (codec := Sample.codec) (materials := Sample.materials) true
         (∅, Sample.loaded_chunk) = (Ok tt, (∅, c'))
       ∧ needsCompression c' = true ∧ dirty c' = true ∧ needsLighting c' = true
       ∧ root_tag c' = Some (mkRoot (Some lv'))
       ∧ lv' !! HeightMap = Some (TAG_Byte_Array (A2 hm'))
       ∧ height_map_of (materials := Sample.materials)
           (zeros3 16 16 128) (zeros2 16 16) = Ok hm')
  ∧ (∃ c' lv' hm',
       chunkChanged (codec := Sample.codec) (materials := Sample.materials) true
         (∅, Sample.compressed_chunk) = (Ok tt, (∅, c'))
       ∧ needsCompression c' = needsCompression Sample.compressed_chunk
       ∧ dirty c' = true ∧ needsLighting c' = true
       ∧ root_tag c' = Some (mkRoot (Some lv'))
       ∧ lv' !! HeightMap = Some (TAG_Byte_Array (A2 hm'))
       ∧ height_map_of (materials := Sample.materials)
           (shaped3 16 16 128 (Sample.flat (16 * 16 * 128)))
           (shaped2 16 16 (Sample.flat (16 * 16))) = Ok hm').
Proof.
  destruct sample_level_arrays as (Hb & Hh & Hs & _).
  split; [|split].
  - exact (proj1 (chunkChanged_flags (codec := Sample.codec)
                    (materials := Sample.materials) ∅ Sample.unloaded_chunk true)
             eq_refl eq_refl).
  - exact (proj1 (proj2 (chunkChanged_flags (codec := Sample.codec)
                           (materials := Sample.materials) ∅ Sample.loaded_chunk true))
             Sample.level (zeros3 16 16 128) (zeros2 16 16) (zeros3 16 16 128)
             eq_refl Hb Hh Hs
             (has_shape3_replicate 16 16 128 0) (has_shape2_replicate 16 16 0)
             (has_shape3_replicate 16 16 128 0)).
  - exact (proj2 (proj2 (chunkChanged_flags (codec := Sample.codec)
                           (materials := Sample.materials) ∅ Sample.compressed_chunk true))
             Sample.blob Sample.blob Sample.raw_level _ _ _ _ _
             eq_refl eq_refl (or_introl eq_refl) eq_refl sample_raw_level).
Defined.

(** C7 as the claim has it fails on a chunk that only holds its cached
    data: [chunkChanged] returns normally, sets [dirty] and
    [needsLighting], and [needsCompression] is still false. *)
Lemma chunkChanged_compressed_counterexample :
  root_tag Sample.compressed_chunk = None
  ∧ compressedTag Sample.compressed_chunk = Some Sample.blob
  ∧ ∃ c',
      chunkChanged (codec := Sample.codec) (materials := Sample.materials) true
        (∅, Sample.compressed_chunk) = (Ok tt, (∅, c'))
      ∧ dirty c' = true ∧ needsLighting c' = true
      ∧ needsCompression c' = false.
Proof.
  split; [reflexivity|]. split; [reflexivity|].
  destruct (chunkChanged_compressed (codec := Sample.codec)
              (materials := Sample.materials) ∅ Sample.compressed_chunk true
              Sample.blob Sample.blob Sample.raw_level _ _ _ _ _
              eq_refl eq_refl (or_introl eq_refl) eq_refl sample_raw_level)
    as (lv' & hm' & Hrun & _).
  eexists. split; [exact Hrun|]. split; [reflexivity|]. split; reflexivity.
Qed.


Lemma sample_skyLight :
  skyLightForChunk (codec := Sample.codec) (1 ≫ 4) (3 ≫ 4) Sample.world
  = (Ok (A3 (zeros3 16 16 128)), Sample.world).
Proof.
  destruct sample_level_arrays as (_ & _ & Hs & _).
  change (1 ≫ 4) with 0. change (3 ≫ 4) with 0.
  exact (chunk_property_world (codec := Sample.codec) SkyLight Sample.world 0 0
           Sample.loaded_chunk Sample.level Sample.blob _ eq_refl eq_refl eq_refl Hs).
Qed.

Lemma setSkylightAt_monotone_witness :
  setSkylightAt (codec := Sample.codec) 1 200 3 7 Sample.world
  = (Ok (RInt 0), Sample.world)
  ∧ ∃ old w' sky',
      cell3 (zeros3 16 16 128) 1 3 2 = Some old
      ∧ stored_array Sample.world (1 ≫ 4, 3 ≫ 4) SkyLight = Some (A3 (zeros3 16 16 128))
      ∧ setSkylightAt (codec := Sample.codec) 1 2 3 7 Sample.world
        = (Ok (RBool (bool_decide (old < 7))), w')
      ∧ stored_array w' (1 ≫ 4, 3 ≫ 4) SkyLight = Some (A3 sky')
      ∧ cell3 sky' 1 3 2 = Some (Z.max old 7)
      ∧ (∀ i j k, (i, j, k) ≠ (1, 3, 2)%nat →
                  cell3 sky' i j k = cell3 (zeros3 16 16 128) i j k)
      ∧ (old < 7 ∨ w' = Sample.world).
Proof.
  split.
  - apply (proj1 (setSkylightAt_monotone (codec := Sample.codec)
                    Sample.world 1 200 3 7)).
    unfold Height. lia.
  - apply (proj2 (setSkylightAt_monotone (codec := Sample.codec)
                    Sample.world 1 2 3 7) (zeros3 16 16 128) Sample.world).
    + unfold Height. lia.
    + lia.
    + exact sample_skyLight.
    + apply has_shape3_replicate.
Defined.

End witnesses.
